(** * Umuganda: a shallow embedding of the analytics engine
      [src/domain/services/AnalyticsEngine.ts], of the post builder
      [src/domain/builders/PostBuilder.ts], of the factories and the post
      service of [src/domain/factories/PostFactory.ts] and of the analytics
      route, with the properties of the summary and of the posts they
      produce.

    Layout: the data model and the engine's methods come first, in the order
    of the TypeScript class, then the builder, the factories, the service
    and the route; the lemmas about numbers, maps, sorting and strings
    follow; the theorems close the file. *)

From Stdlib Require Import List ZArith NArith Lia Bool String Ascii.
From Stdlib Require Import Sorting.Sorted Sorting.Permutation.
From Stdlib Require Import Floats.SpecFloat.
Import ListNotations.
Open Scope Z_scope.

(* ================================================================== *)
(** * JavaScript numbers *)
(* ================================================================== *)

(** A JavaScript [number] is an IEEE-754 binary64 value.  Values that are
    not integers (ratios, percentages before rounding, the engagement score)
    are [spec_float]s with the binary64 parameters; the operations are the
    ones of the standard library's executable specification, rounding to
    nearest, ties to even.  Numbers that only ever hold a count (an array
    length, a map counter, a sum of lengths) are integers well below 2^53,
    where binary64 arithmetic is exact: they are modelled by [N], and enter
    floating point through [of_N] when the code divides them. *)

Definition prec : Z := 53.
Definition emax : Z := 1024.

Definition number := spec_float.

Definition of_Z (n : Z) : number := binary_normalize prec emax n 0 false.
Definition of_N (n : N) : number := of_Z (Z.of_N n).

Definition fdiv : number -> number -> number := SFdiv prec emax.
Definition fmul : number -> number -> number := SFmul prec emax.
Definition fsub : number -> number -> number := SFsub prec emax.

(** The literal [100]. *)
Definition hundred : number := of_Z 100.

(** [Math.round]: the integer nearest to [x], ties towards +infinity, that
    is [floor (x + 1/2)] computed exactly.  A finite [x] is
    [(-1)^s * m * 2^e]; when [e >= 0] it is an integer already.  Zeros,
    infinities and NaN are returned as they are; a negative [x] that rounds
    to zero gives [-0]. *)
Definition Math_round (x : number) : number :=
  match x with
  | S754_finite s m e =>
      if 0 <=? e then x
      else binary_normalize prec emax
             (Z.shiftr (2 * cond_Zopp s (Zpos m) + 2 ^ (- e)) (1 - e)) 0 s
  | _ => x
  end.

(** Sign of a comparator's result, as [Array.prototype.sort] reads it:
    negative, positive, or neither (zero and NaN count as zero). *)
Definition sign_of_number (x : number) : comparison :=
  match x with
  | S754_finite s _ _ | S754_infinity s => if s then Lt else Gt
  | S754_zero _ | S754_nan => Eq
  end.

Definition sign_of_Z (z : Z) : comparison := Z.compare z 0.

(** [x || 1] on a count: [0] is the only falsy count. *)
Definition or_one (x : N) : N := if (x =? 0)%N then 1%N else x.

(* ================================================================== *)
(** * Arrays and Maps *)
(* ================================================================== *)

(** [Array.prototype.sort(compareFn)].  The sort is stable (ECMAScript 2019):
    an element moves behind a later one only when the comparator is positive
    on the pair, so equal elements keep their order.  For a comparator that
    orders the elements consistently every stable sort returns the same
    array; it is computed here by insertion.  [insert_sorted x l] puts [x],
    which preceded every element of [l] in the array, in its place among the
    sorted [l]. *)
Section ArraySort.
Context {A : Type}.
Variable compareFn : A -> A -> comparison.

Fixpoint insert_sorted (x : A) (l : list A) : list A :=
  match l with
  | [] => [x]
  | y :: l' =>
      match compareFn x y with
      | Gt => y :: insert_sorted x l'
      | _ => x :: l
      end
  end.

Fixpoint sort (l : list A) : list A :=
  match l with
  | [] => []
  | x :: l' => insert_sorted x (sort l')
  end.
End ArraySort.

(** [Array.prototype.slice(0, n)]. *)
Definition slice0 {A : Type} (n : nat) (l : list A) : list A := firstn n l.

(** Keys of a [Map]: compared by value ([SameValueZero] on strings and on
    enum members, which are strings at run time). *)
Class MapKey (K : Type) := key_eqb : K -> K -> bool.

#[export] Instance MapKey_string : MapKey string := String.eqb.

(** A [Map<K, number>] of counters keeps its entries in insertion order:
    [set] on a key already present changes the value in place, [set] on a
    new key appends the entry. *)
Section JsMap.
Context {K : Type} `{MapKey K}.

Definition JsMap := list (K * N).

Definition new_Map : JsMap := [].

Fixpoint map_get (m : JsMap) (k : K) : option N :=
  match m with
  | [] => None
  | (k', v) :: m' => if key_eqb k' k then Some v else map_get m' k
  end.

Fixpoint map_set (m : JsMap) (k : K) (v : N) : JsMap :=
  match m with
  | [] => [(k, v)]
  | (k', v') :: m' =>
      if key_eqb k' k then (k', v) :: m' else (k', v') :: map_set m' k v
  end.

Definition map_entries (m : JsMap) : list (K * N) := m.
Definition map_values (m : JsMap) : list N := List.map snd m.

(** [m.get(k) || 0]: [undefined] and [0] both give [0]. *)
Definition get_or_zero (m : JsMap) (k : K) : N :=
  match map_get m k with
  | Some v => v
  | None => 0%N
  end.

(** [m.set(k, (m.get(k) || 0) + 1)]. *)
Definition increment (m : JsMap) (k : K) : JsMap :=
  map_set m k (get_or_zero m k + 1)%N.
End JsMap.
Arguments JsMap K : clear implicits.

(** [Array.prototype.reduce(f, init)]. *)
Definition reduce {A B : Type} (f : B -> A -> B) (init : B) (l : list A) : B :=
  fold_left f l init.

(** [l.length] as a count. *)
Definition len {A : Type} (l : list A) : N := N.of_nat (List.length l).

(* ================================================================== *)
(** * The record store *)
(* ================================================================== *)

Definition Date := Z.      (* milliseconds since the epoch *)
Definition Id := string.

(** The enum [ActivityCategory] of [@prisma/client], as the API
    documentation lists it. *)
Inductive ActivityCategory :=
| CLEANING | CONSTRUCTION | ENVIRONMENT | HEALTH | EDUCATION
| INFRASTRUCTURE | AGRICULTURE | SOCIAL_SERVICES | OTHER.

Definition ActivityCategory_eqb (a b : ActivityCategory) : bool :=
  match a, b with
  | CLEANING, CLEANING | CONSTRUCTION, CONSTRUCTION
  | ENVIRONMENT, ENVIRONMENT | HEALTH, HEALTH | EDUCATION, EDUCATION
  | INFRASTRUCTURE, INFRASTRUCTURE | AGRICULTURE, AGRICULTURE
  | SOCIAL_SERVICES, SOCIAL_SERVICES | OTHER, OTHER => true
  | _, _ => false
  end.

#[export] Instance MapKey_ActivityCategory : MapKey ActivityCategory :=
  ActivityCategory_eqb.

(** Modelled from the spec: the Prisma schema (prisma/schema.prisma) is not
    among the sources.  The rows below carry the attributes the spec's data
    model gives each entity; the foreign keys of a post are the ones
    [PostService] writes ([cellId], [sectorId], [districtId]), and a
    reaction targets a post or a comment as [api/reactions/route.ts] has
    it. *)
Record Comment := {
  comment_id : Id;
  comment_postId : Id;
  comment_createdAt : Date
}.

Record Reaction := {
  reaction_id : Id;
  reaction_postId : option Id;
  reaction_commentId : option Id;
  reaction_createdAt : Date
}.

Record Repost := {
  repost_id : Id;
  repost_postId : Id;
  repost_createdAt : Date
}.

Record Post := {
  post_id : Id;
  post_category : ActivityCategory;
  post_hashtags : list string;
  post_createdAt : Date;
  post_cellId : Id;
  post_sectorId : Id;
  post_districtId : Id
}.

Record Location := {
  location_id : Id;
  location_name : string
}.

Record Database := {
  db_posts : list Post;
  db_comments : list Comment;
  db_reactions : list Reaction;
  db_reposts : list Repost;
  db_cells : list Location;
  db_sectors : list Location;
  db_districts : list Location
}.

(** The filter [{ createdAt: { gte: startDate, lte: endDate } }]. *)
Record DateFilter := { gte : Date; lte : Date }.

(** What [findMany] returns for a post with
    [include: { comments: true, reactions: true, reposts: true }]. *)
Record PostWithRelations := {
  post : Post;
  comments : list Comment;
  reactions : list Reaction;
  reposts : list Repost
}.

(** What [cell.findMany], [sector.findMany] and [district.findMany] return
    with [include: { posts: { where, include } }]. *)
Record LocationWithPosts := {
  location : Location;
  posts : list PostWithRelations
}.

(** An awaited read either yields its rows or rejects. *)
Definition Error := string.

Inductive Result (A : Type) : Type :=
| Ok (a : A)
| Err (e : Error).
Arguments Ok {A} a.
Arguments Err {A} e.

(** The queries the engine sends through its [PrismaClient].  The two
    [post.findMany] queries differ in their [select]: the one of
    [getCategoryStats] asks for [{ category: true }], the one of
    [getHashtagStats] for [{ hashtags: true }].  A row of either has the one
    selected field and stands here as that field's value. *)
Record PrismaReads := {
  post_count : DateFilter -> Result N;
  comment_count : DateFilter -> Result N;
  reaction_count : DateFilter -> Result N;
  repost_count : DateFilter -> Result N;
  post_findMany_category : DateFilter -> Result (list ActivityCategory);
  post_findMany_hashtags : DateFilter -> Result (list (list string));
  cell_findMany : DateFilter -> Result (list LocationWithPosts);
  sector_findMany : DateFilter -> Result (list LocationWithPosts);
  district_findMany : DateFilter -> Result (list LocationWithPosts)
}.

(** Prisma's answers over a database that is up: [gte] and [lte] are
    inclusive bounds, [include] attaches the rows whose foreign key is the
    parent's id, and a [where] nested under [posts] filters the posts only. *)
Definition in_window (w : DateFilter) (d : Date) : bool :=
  (gte w <=? d) && (d <=? lte w).

Definition targets_post (p : Post) (r : Reaction) : bool :=
  match reaction_postId r with
  | Some i => String.eqb i (post_id p)
  | None => false
  end.

Definition include_relations (db : Database) (p : Post) : PostWithRelations :=
  {| post := p;
     comments :=
       filter (fun c => String.eqb (comment_postId c) (post_id p))
              (db_comments db);
     reactions := filter (targets_post p) (db_reactions db);
     reposts :=
       filter (fun r => String.eqb (repost_postId r) (post_id p))
              (db_reposts db) |}.

Definition posts_of (db : Database) (fk : Post -> Id) (w : DateFilter)
    (l : Location) : list Post :=
  filter (fun p => String.eqb (fk p) (location_id l)
                   && in_window w (post_createdAt p))
         (db_posts db).

Definition include_posts (db : Database) (fk : Post -> Id) (w : DateFilter)
    (l : Location) : LocationWithPosts :=
  {| location := l;
     posts := List.map (include_relations db) (posts_of db fk w l) |}.

Definition prismaOf (db : Database) : PrismaReads :=
  {| post_count w :=
       Ok (len (filter (fun p => in_window w (post_createdAt p))
                       (db_posts db)));
     comment_count w :=
       Ok (len (filter (fun c => in_window w (comment_createdAt c))
                       (db_comments db)));
     reaction_count w :=
       Ok (len (filter (fun r => in_window w (reaction_createdAt r))
                       (db_reactions db)));
     repost_count w :=
       Ok (len (filter (fun r => in_window w (repost_createdAt r))
                       (db_reposts db)));
     post_findMany_category w :=
       Ok (List.map post_category
             (filter (fun p => in_window w (post_createdAt p)) (db_posts db)));
     post_findMany_hashtags w :=
       Ok (List.map post_hashtags
             (filter (fun p => in_window w (post_createdAt p)) (db_posts db)));
     cell_findMany w :=
       Ok (List.map (include_posts db post_cellId w) (db_cells db));
     sector_findMany w :=
       Ok (List.map (include_posts db post_sectorId w) (db_sectors db));
     district_findMany w :=
       Ok (List.map (include_posts db post_districtId w) (db_districts db)) |}.

(* ================================================================== *)
(** * The engine *)
(* ================================================================== *)

(** The summary's interfaces.  Field names are the source's, except where
    two interfaces share one: [HashtagStats] has [hcount] and [hpercentage]
    for its [count] and [percentage]; the object [national] has
    [nationalPosts], ..., [nationalEngagement] for its [totalPosts], ...,
    [totalEngagement]; [AnalyticsSummary] has [summaryCategories] for its
    [topCategories] and [summaryUpdated] for its [lastUpdated]. *)
Record CategoryStats := {
  category : ActivityCategory;
  count : N;
  percentage : number
}.

Record LocationStats := {
  name : string;
  id : Id;
  totalPosts : N;
  totalEngagement : N;
  engagementScore : number;
  topCategories : list CategoryStats
}.

Record HashtagStats := {
  hashtag : string;
  hcount : N;
  hpercentage : number
}.

Record Period := { startDate : Date; endDate : Date }.

Record National := {
  nationalPosts : N;
  nationalComments : N;
  nationalReactions : N;
  nationalReposts : N;
  nationalEngagement : N
}.

Record AnalyticsSummary := {
  period : Period;
  national : National;
  summaryCategories : list CategoryStats;
  topHashtags : list HashtagStats;
  cellStats : list LocationStats;
  sectorStats : list LocationStats;
  districtStats : list LocationStats;
  summaryUpdated : Date
}.

(** A [PrismaClient] is a handle on a connection; what a read through it
    answers is the environment's business. *)
Definition PrismaClient := nat.

(** The fields of an engine object. *)
Record AnalyticsEngine := {
  prisma : PrismaClient;
  lastUpdated : option Date
}.

(** The environment of one call: the behaviour of the store behind each
    client while the call runs, and the instant [new Date()] reads. *)
Record Env := {
  reads : PrismaClient -> PrismaReads;
  now : Date
}.

(** An [async] method of the engine: it runs against the environment and
    the object's fields, resolves or rejects, and leaves the fields as the
    statements executed so far have set them. *)
Definition Async (A : Type) : Type :=
  Env -> AnalyticsEngine -> Result A * AnalyticsEngine.

Definition ret {A : Type} (a : A) : Async A := fun _ this => (Ok a, this).

Definition bind {A B : Type} (c : Async A) (k : A -> Async B) : Async B :=
  fun env this =>
    match c env this with
    | (Ok a, this') => k a env this'
    | (Err e, this') => (Err e, this')
    end.

Notation "x <- c ;; k" := (bind c (fun x => k))
  (at level 61, c at next level, right associativity).

(** [await this.prisma.<query>]. *)
Definition await_prisma {A : Type} (query : PrismaReads -> Result A) : Async A :=
  fun env this => (query (reads env (prisma this)), this).

(** [new Date()]. *)
Definition new_Date : Async Date := fun env this => (Ok (now env), this).

(** [this.lastUpdated = d]. *)
Definition set_lastUpdated (d : Date) : Async unit :=
  fun _ this => (Ok tt, {| prisma := prisma this; lastUpdated := Some d |}).

(** [Math.round((count / total) * 100)]. *)
Definition percent (count total : N) : number :=
  Math_round (fmul (fdiv (of_N count) (of_N total)) hundred).

(** [(a, b) => b.count - a.count]. *)
Definition by_count_desc {A : Type} (cnt : A -> N) (a b : A) : comparison :=
  sign_of_Z (Z.of_N (cnt b) - Z.of_N (cnt a)).

(** [calculateEngagementScore]. *)
Definition calculateEngagementScore (posts comments reactions reposts : N)
    : number :=
  (* Weighted scoring: posts=1, comments=2, reactions=1, reposts=3 *)
  let score := (posts * 1 + comments * 2 + reactions * 1 + reposts * 3)%N in
  fdiv (Math_round (fmul (fdiv (of_N score) (of_N (or_one posts))) hundred))
       hundred.

(** The part of [getCategoryStats] after the read. *)
Definition categoryStatsOf (categories : list ActivityCategory)
    : list CategoryStats :=
  let categoryMap := fold_left increment categories new_Map in
  let total := or_one (len categories) in
  sort (by_count_desc count)
    (List.map (fun '(category, count) =>
                 {| category := category;
                    count := count;
                    percentage := percent count total |})
              (map_entries categoryMap)).

(** [getCategoryStats]. *)
Definition getCategoryStats (startDate endDate : Date)
    : Async (list CategoryStats) :=
  posts <- await_prisma (fun db =>
             post_findMany_category db
               {| gte := startDate; lte := endDate |}) ;;
  ret (categoryStatsOf posts).

(** The part of [getHashtagStats] after the read; the inner [forEach] runs
    only on a post that has hashtags. *)
Definition hashtagStatsOf (hashtags : list (list string)) : list HashtagStats :=
  let hashtagMap :=
    fold_left
      (fun m tags =>
         if (0 <? len tags)%N then fold_left increment tags m else m)
      hashtags new_Map in
  let total := reduce (fun a b => (a + b)%N) 1%N (map_values hashtagMap) in
  slice0 10 (* Top 10 hashtags *)
    (sort (by_count_desc hcount)
       (List.map (fun '(hashtag, count) =>
                    {| hashtag := hashtag;
                       hcount := count;
                       hpercentage := percent count total |})
                 (map_entries hashtagMap))).

(** [getHashtagStats]. *)
Definition getHashtagStats (startDate endDate : Date)
    : Async (list HashtagStats) :=
  posts <- await_prisma (fun db =>
             post_findMany_hashtags db
               {| gte := startDate; lte := endDate |}) ;;
  ret (hashtagStatsOf posts).

(** [getCategoryStatsForLocation]. *)
Definition getCategoryStatsForLocation (categories : list ActivityCategory)
    : Async (list CategoryStats) :=
  let categoryMap := fold_left increment categories new_Map in
  let total := or_one (len categories) in
  ret (slice0 5 (* Top 5 categories per location *)
         (sort (by_count_desc count)
            (List.map (fun '(category, count) =>
                         {| category := category;
                            count := count;
                            percentage := percent count total |})
                      (map_entries categoryMap)))).

(** The body of the [for ... of] loops of [getLocationStats], the same in
    its three branches. *)
Definition locationStatsOf (node : LocationWithPosts) : Async LocationStats :=
  let totalPosts := len (posts node) in
  let totalComments :=
    reduce (fun acc p => (acc + len (comments p))%N) 0%N (posts node) in
  let totalReactions :=
    reduce (fun acc p => (acc + len (reactions p))%N) 0%N (posts node) in
  let totalReposts :=
    reduce (fun acc p => (acc + len (reposts p))%N) 0%N (posts node) in
  let totalEngagement :=
    (totalPosts + totalComments + totalReactions + totalReposts)%N in
  categoryStats <- getCategoryStatsForLocation
                     (List.map (fun p => post_category (post p)) (posts node)) ;;
  ret {| name := location_name (location node);
         id := location_id (location node);
         totalPosts := totalPosts;
         totalEngagement := totalEngagement;
         engagementScore :=
           calculateEngagementScore totalPosts totalComments
                                    totalReactions totalReposts;
         topCategories := categoryStats |}.

(** The loop: each node's statistics are pushed in turn. *)
Fixpoint for_of {A B : Type} (body : A -> Async B) (l : list A)
    : Async (list B) :=
  match l with
  | [] => ret []
  | x :: l' =>
      y <- body x ;;
      ys <- for_of body l' ;;
      ret (y :: ys)
  end.

Inductive LocationType := cell | sector | district.

(** [(a, b) => b.engagementScore - a.engagementScore]. *)
Definition by_score_desc (a b : LocationStats) : comparison :=
  sign_of_number (fsub (engagementScore b) (engagementScore a)).

(** [getLocationStats]. *)
Definition getLocationStats (startDate endDate : Date)
    (locationType : LocationType) : Async (list LocationStats) :=
  let w := {| gte := startDate; lte := endDate |} in
  locationStats <-
    match locationType with
    | cell =>
        cells <- await_prisma (fun db => cell_findMany db w) ;;
        for_of locationStatsOf cells
    | sector =>
        sectors <- await_prisma (fun db => sector_findMany db w) ;;
        for_of locationStatsOf sectors
    | district =>
        districts <- await_prisma (fun db => district_findMany db w) ;;
        for_of locationStatsOf districts
    end ;;
  ret (sort by_score_desc locationStats).

(** [generateSummary]. *)
Definition generateSummary (startDate endDate : Date)
    : Async AnalyticsSummary :=
  let w := {| gte := startDate; lte := endDate |} in
  (* Fetch national-level data *)
  totalPosts <- await_prisma (fun db => post_count db w) ;;
  totalComments <- await_prisma (fun db => comment_count db w) ;;
  totalReactions <- await_prisma (fun db => reaction_count db w) ;;
  totalReposts <- await_prisma (fun db => repost_count db w) ;;
  let totalEngagement :=
    (totalPosts + totalComments + totalReactions + totalReposts)%N in
  (* Get category and hashtag stats *)
  topCategories <- getCategoryStats startDate endDate ;;
  topHashtags <- getHashtagStats startDate endDate ;;
  (* Get location-level stats *)
  cellStats <- getLocationStats startDate endDate cell ;;
  sectorStats <- getLocationStats startDate endDate sector ;;
  districtStats <- getLocationStats startDate endDate district ;;
  d <- new_Date ;;
  _ <- set_lastUpdated d ;;
  ret {| period := {| startDate := startDate; endDate := endDate |};
         national :=
           {| nationalPosts := totalPosts;
              nationalComments := totalComments;
              nationalReactions := totalReactions;
              nationalReposts := totalReposts;
              nationalEngagement := totalEngagement |};
         summaryCategories := topCategories;
         topHashtags := topHashtags;
         cellStats := cellStats;
         sectorStats := sectorStats;
         districtStats := districtStats;
         summaryUpdated := d |}.

(** [getLastUpdated]. *)
Definition getLastUpdated (this : AnalyticsEngine) : option Date :=
  lastUpdated this.

(** ** The singleton *)

(** The process: the engine objects allocated so far, by address, and the
    static field [AnalyticsEngine.instance], a reference or [null]. *)
Record Process := {
  heap : list AnalyticsEngine;
  instance : option nat
}.

(** [new AnalyticsEngine(prisma)]: the constructor stores the client;
    [lastUpdated] starts as [null]. *)
Definition new_AnalyticsEngine (prisma : PrismaClient) (p : Process)
    : nat * Process :=
  (List.length (heap p),
   {| heap := heap p ++ [ {| prisma := prisma; lastUpdated := None |} ];
      instance := instance p |}).

(** [getInstance]. *)
Definition getInstance (prisma : PrismaClient) (p : Process) : nat * Process :=
  match instance p with
  | None =>
      let '(a, p') := new_AnalyticsEngine prisma p in
      (a, {| heap := heap p'; instance := Some a |})
  | Some a => (a, p)
  end.

(** [resetInstance]. *)
Definition resetInstance (p : Process) : Process :=
  {| heap := heap p; instance := None |}.

(* ================================================================== *)
(** * Vocabulary of the properties *)
(* ================================================================== *)

(** ** Numbers *)

(** A number of a given sign: a zero, an infinity, or a finite number whose
    exponent is at least [emin]; never NaN. *)
Definition signed (s : bool) (x : number) : Prop :=
  match x with
  | S754_zero s' | S754_infinity s' => s' = s
  | S754_finite s' _ e => s' = s /\ SpecFloat.emin prec emax <= e
  | S754_nan => False
  end.

Definition nonzero (x : number) : Prop :=
  match x with
  | S754_zero _ => False
  | _ => True
  end.

(** The value of a finite number in units of [2^emin]; every binary64
    number is a whole multiple of that unit. *)
Definition ulps (x : number) : Z :=
  match x with
  | S754_finite s m e =>
      cond_Zopp s (Zpos m * 2 ^ (e - SpecFloat.emin prec emax))
  | _ => 0
  end.

Definition infinite_part (x : number) : Z :=
  match x with
  | S754_infinity s => cond_Zopp s 1
  | _ => 0
  end.

(** [number_le x y]: the value of [x] is at most the value of [y], for
    numbers that are not NaN. *)
Definition number_le (x y : number) : Prop :=
  infinite_part x < infinite_part y
  \/ (infinite_part x = infinite_part y /\ ulps x <= ulps y).


(** The largest length an array can have. *)
Definition max_array_length : N := 2 ^ 32 - 1.

(** ** Sorting *)

(** [precedes compareFn R a b]: [a] sorts strictly before [b], or they tie
    and [a] came first in the order [R] of the input. *)
Definition precedes {A : Type} (compareFn : A -> A -> comparison)
    (R : A -> A -> Prop) (a b : A) : Prop :=
  compareFn a b = Lt \/ (compareFn a b = Eq /\ R a b).

(** ** Counting *)

(** Keys are compared as the [Map] compares them. *)
Class MapKeyLaws (K : Type) `{MapKey K} :=
  key_eqb_spec : forall a b : K, reflect (a = b) (key_eqb a b).

Section Counting.
Context {K : Type} `{MapKey K}.

Definition keys (m : JsMap K) : list K := List.map fst m.

(** How many times [k] occurs in [l]. *)
Definition count_of (k : K) (l : list K) : N :=
  len (filter (fun x => key_eqb x k) l).

(** The distinct elements of [l], in the order of their first
    occurrence. *)
Fixpoint first_seen (l : list K) : list K :=
  match l with
  | [] => []
  | x :: l' => x :: filter (fun y => negb (key_eqb x y)) (first_seen l')
  end.

(** Position of the first occurrence of [k] in [l]. *)
Fixpoint first_index (k : K) (l : list K) : nat :=
  match l with
  | [] => 0
  | x :: l' => if key_eqb x k then 0 else S (first_index k l')
  end.

Definition mem (k : K) (l : list K) : bool := existsb (key_eqb k) l.
End Counting.

Definition sumN (l : list N) : N := fold_right N.add 0%N l.

(** ** The summary over a database *)

Definition window (startDate endDate : Date) : DateFilter :=
  {| gte := startDate; lte := endDate |}.

Definition posts_in_window (db : Database) (w : DateFilter) : list Post :=
  filter (fun p => in_window w (post_createdAt p)) (db_posts db).

(** Every client is connected to the database [db]; the clock reads [t]. *)
Definition env_of (db : Database) (t : Date) : Env :=
  {| reads := fun _ => prismaOf db; now := t |}.

(** The comments, reactions and reposts attached to a post, whenever they
    were created. *)
Definition comments_on (db : Database) (p : Post) : list Comment :=
  filter (fun c => String.eqb (comment_postId c) (post_id p)) (db_comments db).

Definition reactions_on (db : Database) (p : Post) : list Reaction :=
  filter (targets_post p) (db_reactions db).

Definition reposts_on (db : Database) (p : Post) : list Repost :=
  filter (fun r => String.eqb (repost_postId r) (post_id p)) (db_reposts db).

(** The statistics one iteration of the loop of [getLocationStats] pushes. *)
Definition node_stats (node : LocationWithPosts) : LocationStats :=
  let totalPosts := len (posts node) in
  let totalComments := sumN (List.map (fun p => len (comments p)) (posts node)) in
  let totalReactions := sumN (List.map (fun p => len (reactions p)) (posts node)) in
  let totalReposts := sumN (List.map (fun p => len (reposts p)) (posts node)) in
  {| name := location_name (location node);
     id := location_id (location node);
     totalPosts := totalPosts;
     totalEngagement :=
       (totalPosts + totalComments + totalReactions + totalReposts)%N;
     engagementScore :=
       calculateEngagementScore totalPosts totalComments
                                totalReactions totalReposts;
     topCategories :=
       slice0 5 (categoryStatsOf
                   (List.map (fun p => post_category (post p)) (posts node))) |}.

(** The entry of a category among [cats], before sorting. *)
Definition category_entry (cats : list ActivityCategory)
    (c : ActivityCategory) : CategoryStats :=
  {| category := c;
     count := count_of c cats;
     percentage := percent (count_of c cats) (or_one (len cats)) |}.

(** The statistics of one level, before and after sorting. *)
Definition level_nodes (db : Database) (fk : Post -> Id) (w : DateFilter)
    (nodes : list Location) : list LocationStats :=
  List.map node_stats (List.map (include_posts db fk w) nodes).

(** The summary the engine computes over the database [db] at instant [t]. *)
Definition summary_on (db : Database) (startDate endDate t : Date)
    : AnalyticsSummary :=
  let w := window startDate endDate in
  let totalPosts := len (posts_in_window db w) in
  let totalComments :=
    len (filter (fun c => in_window w (comment_createdAt c)) (db_comments db)) in
  let totalReactions :=
    len (filter (fun r => in_window w (reaction_createdAt r)) (db_reactions db)) in
  let totalReposts :=
    len (filter (fun r => in_window w (repost_createdAt r)) (db_reposts db)) in
  {| period := {| startDate := startDate; endDate := endDate |};
     national :=
       {| nationalPosts := totalPosts;
          nationalComments := totalComments;
          nationalReactions := totalReactions;
          nationalReposts := totalReposts;
          nationalEngagement :=
            (totalPosts + totalComments + totalReactions + totalReposts)%N |};
     summaryCategories :=
       categoryStatsOf (List.map post_category (posts_in_window db w));
     topHashtags :=
       hashtagStatsOf (List.map post_hashtags (posts_in_window db w));
     cellStats :=
       sort by_score_desc (level_nodes db post_cellId w (db_cells db));
     sectorStats :=
       sort by_score_desc (level_nodes db post_sectorId w (db_sectors db));
     districtStats :=
       sort by_score_desc (level_nodes db post_districtId w (db_districts db));
     summaryUpdated := t |}.

(** The ranking the spec describes for a list of categories: one entry per
    category present, its count, its share of the posts rounded to a whole
    percentage, sorted by decreasing count, ties in the order of first
    encounter. *)
Definition ranked_before (cats : list ActivityCategory)
    (a b : CategoryStats) : Prop :=
  (count b < count a)%N
  \/ (count a = count b
      /\ (first_index (category a) cats < first_index (category b) cats)%nat).

Definition is_ranking (cats : list ActivityCategory)
    (l : list CategoryStats) : Prop :=
  NoDup (List.map category l)
  /\ (forall c, In c (List.map category l) <-> In c cats)
  /\ (forall st, In st l ->
        count st = count_of (category st) cats
        /\ percentage st
           = Math_round
               (fmul (fdiv (of_N (count st)) (of_N (N.max (len cats) 1)))
                     (of_N 100)))
  /\ StronglySorted (ranked_before cats) l.

(** The summary with its timestamp blanked. *)
Definition without_lastUpdated (s : AnalyticsSummary) : AnalyticsSummary :=
  {| period := period s;
     national := national s;
     summaryCategories := summaryCategories s;
     topHashtags := topHashtags s;
     cellStats := cellStats s;
     sectorStats := sectorStats s;
     districtStats := districtStats s;
     summaryUpdated := 0 |}.

Definition result_map {A B : Type} (f : A -> B) (r : Result A) : Result B :=
  match r with
  | Ok a => Ok (f a)
  | Err e => Err e
  end.

Definition is_ok {A : Type} (r : Result A) : bool :=
  match r with
  | Ok _ => true
  | Err _ => false
  end.

(** The outcomes of the reads [generateSummary] awaits, in order. *)
Definition read_outcomes (r : PrismaReads) (w : DateFilter)
    : list (Result unit) :=
  [ result_map (fun _ => tt) (post_count r w);
    result_map (fun _ => tt) (comment_count r w);
    result_map (fun _ => tt) (reaction_count r w);
    result_map (fun _ => tt) (repost_count r w);
    result_map (fun _ => tt) (post_findMany_category r w);
    result_map (fun _ => tt) (post_findMany_hashtags r w);
    result_map (fun _ => tt) (cell_findMany r w);
    result_map (fun _ => tt) (sector_findMany r w);
    result_map (fun _ => tt) (district_findMany r w) ].

(** A call of [generateSummary] on an engine, and a run of calls. *)
Record Call := {
  call_env : Env;
  call_start : Date;
  call_end : Date
}.

Definition run_call (this : AnalyticsEngine) (c : Call)
    : Result AnalyticsSummary * AnalyticsEngine :=
  generateSummary (call_start c) (call_end c) (call_env c) this.

Definition run_calls (calls : list Call) (this : AnalyticsEngine)
    : AnalyticsEngine :=
  fold_left (fun e c => snd (run_call e c)) calls this.

(** The instant of the last call of a run that resolved, if any. *)
Definition last_success (calls : list Call) (this : AnalyticsEngine)
    : option Date :=
  fold_left
    (fun acc c =>
       if is_ok (fst (run_call this c)) then Some (now (call_env c)) else acc)
    calls (lastUpdated this).

(** Writing the fields of the object at an address. *)
Fixpoint heap_set (a : nat) (this : AnalyticsEngine)
    (h : list AnalyticsEngine) : list AnalyticsEngine :=
  match h, a with
  | [], _ => []
  | _ :: h', O => this :: h'
  | x :: h', S a' => x :: heap_set a' this h'
  end.

(** What a request handler does with the class: it asks for the instance,
    or calls [generateSummary] on a reference it holds. *)
Inductive Op :=
| GetInstance (client : PrismaClient)
| GenerateSummary (ref : nat) (env : Env) (startDate endDate : Date).

Definition run_op (op : Op) (p : Process) : option nat * Process :=
  match op with
  | GetInstance client =>
      let '(a, p') := getInstance client p in (Some a, p')
  | GenerateSummary a env startDate endDate =>
      match nth_error (heap p) a with
      | Some this =>
          (None,
           {| heap :=
                heap_set a (snd (generateSummary startDate endDate env this))
                         (heap p);
              instance := instance p |})
      | None => (None, p)
      end
  end.

Fixpoint run_ops (ops : list Op) (p : Process) : list (option nat) * Process :=
  match ops with
  | [] => ([], p)
  | op :: ops' =>
      let '(r, p') := run_op op p in
      let '(rs, p'') := run_ops ops' p' in
      (r :: rs, p'')
  end.

(** Successive calls of [getInstance], with the references they return. *)
Fixpoint getInstance_calls (clients : list PrismaClient) (p : Process)
    : list nat * Process :=
  match clients with
  | [] => ([], p)
  | c :: clients' =>
      let '(a, p') := getInstance c p in
      let '(refs, p'') := getInstance_calls clients' p' in
      (a :: refs, p'')
  end.

(** ** Properties of the per-level lists *)

(** A level's list is ranked: sorted by non-increasing score, one entry per
    node of the level with the number of its posts in the window, and a node
    without a post in the window scores [0] with no category. *)
Definition ranked_level (db : Database) (fk : Post -> Id) (w : DateFilter)
    (nodes : list Location) (stats : list LocationStats) : Prop :=
  StronglySorted
    (fun a b => number_le (engagementScore b) (engagementScore a)) stats
  /\ Permutation
       (List.map (fun st => (id st, name st, totalPosts st)) stats)
       (List.map (fun l => (location_id l, location_name l,
                            len (posts_of db fk w l))) nodes)
  /\ (forall st, In st stats -> totalPosts st = 0%N ->
        engagementScore st = of_N 0 /\ topCategories st = []).

(** The four counts of a node: its posts in the window, and everything
    attached to those posts. *)
Definition node_posts (db : Database) (fk : Post -> Id) (w : DateFilter)
    (l : Location) : N :=
  len (posts_of db fk w l).

Definition node_comments (db : Database) (fk : Post -> Id) (w : DateFilter)
    (l : Location) : N :=
  sumN (List.map (fun p => len (comments_on db p)) (posts_of db fk w l)).

Definition node_reactions (db : Database) (fk : Post -> Id) (w : DateFilter)
    (l : Location) : N :=
  sumN (List.map (fun p => len (reactions_on db p)) (posts_of db fk w l)).

Definition node_reposts (db : Database) (fk : Post -> Id) (w : DateFilter)
    (l : Location) : N :=
  sumN (List.map (fun p => len (reposts_on db p)) (posts_of db fk w l)).

Definition node_totals (db : Database) (fk : Post -> Id) (w : DateFilter)
    (nodes : list Location) (stats : list LocationStats) : Prop :=
  Permutation
    (List.map (fun st => (id st, name st, totalPosts st, totalEngagement st))
              stats)
    (List.map (fun l => (location_id l, location_name l,
                         node_posts db fk w l,
                         (node_posts db fk w l + node_comments db fk w l
                          + node_reactions db fk w l
                          + node_reposts db fk w l)%N))
              nodes).

(** Each entry of a level carries the first five ranks of the ranking of
    its node's posts. *)
Definition node_rankings (db : Database) (fk : Post -> Id) (w : DateFilter)
    (nodes : list Location) (stats : list LocationStats) : Prop :=
  forall st, In st stats ->
    exists l full,
      In l nodes /\ id st = location_id l /\ name st = location_name l
      /\ is_ranking (List.map post_category (posts_of db fk w l)) full
      /\ topCategories st = firstn 5 full
      /\ (List.length (topCategories st) <= 5)%nat.

(** Every entry of a level has an empty breakdown and no post. *)
Definition empty_level (stats : list LocationStats) : Prop :=
  forall st, In st stats ->
    totalPosts st = 0%N /\ totalEngagement st = 0%N /\ topCategories st = [].

(** ** Sample data *)

Open Scope string_scope.

Definition sample_post (i : Id) (c : ActivityCategory) (tags : list string)
    (t : Date) : Post :=
  {| post_id := i; post_category := c; post_hashtags := tags;
     post_createdAt := t;
     post_cellId := "cell-1"; post_sectorId := "sector-1";
     post_districtId := "district-1" |}.

(** Three posts in the window [0..100]: ["#a"] occurs three times and
    ["#b"] once. *)
Definition hashtag_db : Database :=
  {| db_posts :=
       [ sample_post "p1" CLEANING ["#a"; "#b"] 10;
         sample_post "p2" HEALTH ["#a"] 20;
         sample_post "p3" CLEANING ["#a"] 30 ];
     db_comments :=
       [ {| comment_id := "c1"; comment_postId := "p1";
            comment_createdAt := 500 |} ];
     db_reactions := [];
     db_reposts := [];
     db_cells :=
       [ {| location_id := "cell-1"; location_name := "Kacyiru" |};
         {| location_id := "cell-2"; location_name := "Remera" |} ];
     db_sectors := [ {| location_id := "sector-1"; location_name := "Gasabo" |} ];
     db_districts :=
       [ {| location_id := "district-1"; location_name := "Kigali" |} ] |}.

Close Scope string_scope.

Definition fresh_engine : AnalyticsEngine :=
  {| prisma := 0%nat; lastUpdated := None |}.

(** A store whose reads answer as over [hashtag_db], except that the
    [post.findMany] of [getHashtagStats] rejects. *)
Definition hashtags_read_down : PrismaReads :=
  let r := prismaOf hashtag_db in
  {| post_count := post_count r;
     comment_count := comment_count r;
     reaction_count := reaction_count r;
     repost_count := repost_count r;
     post_findMany_category := post_findMany_category r;
     post_findMany_hashtags := fun _ => Err "connection lost"%string;
     cell_findMany := cell_findMany r;
     sector_findMany := sector_findMany r;
     district_findMany := district_findMany r |}.

(* ================================================================== *)
(** * Further vocabulary for the engine *)
(* ================================================================== *)

(** The error of the first read that failed, if any. *)
Fixpoint first_error (outcomes : list (Result unit)) : option Error :=
  match outcomes with
  | [] => None
  | Ok _ :: rest => first_error rest
  | Err e :: _ => Some e
  end.

(** All the tags of the posts in the window, post after post. *)
Definition tags_in_window (db : Database) (w : DateFilter) : list string :=
  List.concat (List.map post_hashtags (posts_in_window db w)).

(** Every post in the window names a node of the level. *)
Definition posts_located (db : Database) (fk : Post -> Id) (w : DateFilter)
    (nodes : list Location) : Prop :=
  forall p, In p (posts_in_window db w) ->
    In (fk p) (List.map location_id nodes).

(* ================================================================== *)
(** * Strings *)
(* ================================================================== *)

(** A string is read as the sequence of its code units; the characters of
    [string] cover the code units below 256.  Among those,
    [String.prototype.trim] strips TAB, LF, VT, FF, CR, SPACE and NBSP. *)
Definition isWhiteSpace (c : ascii) : bool :=
  let n := nat_of_ascii c in
  ((9 <=? n)%nat && (n <=? 13)%nat) || (n =? 32)%nat || (n =? 160)%nat.

Fixpoint trimStart (s : string) : string :=
  match s with
  | EmptyString => EmptyString
  | String c s' => if isWhiteSpace c then trimStart s' else s
  end.

Fixpoint trimEnd (s : string) : string :=
  match s with
  | EmptyString => EmptyString
  | String c s' =>
      match trimEnd s' with
      | EmptyString => if isWhiteSpace c then EmptyString else String c EmptyString
      | t => String c t
      end
  end.

(** [s.trim()]. *)
Definition trim (s : string) : string := trimEnd (trimStart s).

(** [!s] on a string: only the empty string is falsy. *)
Definition falsy (s : string) : bool := String.eqb s EmptyString.

(** [s.startsWith(p)]. *)
Definition startsWith (s p : string) : bool := String.prefix p s.

(** The enum [PostStatus] of [@prisma/client]. *)
Inductive PostStatus := DRAFT | PUBLISHED | ARCHIVED.

(* ================================================================== *)
(** * [PostBuilder.ts] *)
(* ================================================================== *)

Declare Scope builder_scope.

Module PostBuilder.

Local Open Scope string_scope.

(** The interfaces [Image] and [Location]. *)
Record Image := {
  url : string;
  publicId : option string;
  caption : option string
}.

Record Location := {
  cellId : string;
  sectorId : string;
  districtId : string
}.

(** The class [Post]: the object [build] returns. *)
Module Post.
Record t := {
  id : string;
  content : string;
  authorId : string;
  location : Location;
  category : ActivityCategory;
  status : PostStatus;
  hashtags : list string;
  images : list Image;
  createdAt : Date;      (* metadata.createdAt *)
  updatedAt : Date       (* metadata.updatedAt *)
}.
End Post.

(** The private fields of a builder. *)
Record t := {
  id : string;
  content : string;
  authorId : string;
  location : option Location;
  category : option ActivityCategory;
  status : PostStatus;
  hashtags : list string;
  images : list Image;
  createdAt : Date
}.

(** [new PostBuilder()]: [uuid] is what [uuidv4()] returns and [now] what
    [new Date()] reads. *)
Definition new (uuid : string) (now : Date) : t :=
  {| id := uuid; content := ""; authorId := ""; location := None;
     category := None; status := PUBLISHED; hashtags := []; images := [];
     createdAt := now |}.

(** A method runs on the builder's fields; it returns or throws, and leaves
    the fields as the statements executed so far have set them. *)
Definition Method (A : Type) : Type := t -> Result A * t.

Definition ret {A : Type} (a : A) : Method A := fun b => (Ok a, b).

Definition throw {A : Type} (message : string) : Method A :=
  fun b => (Err message, b).

Definition bind {A B : Type} (c : Method A) (k : A -> Method B) : Method B :=
  fun b =>
    match c b with
    | (Ok a, b') => k a b'
    | (Err e, b') => (Err e, b')
    end.

Notation "x <- c ;; k" := (bind c (fun x => k))
  (at level 61, c at next level, right associativity) : builder_scope.
Notation "c ;; k" := (bind c (fun _ => k))
  (at level 61, right associativity) : builder_scope.
Local Open Scope builder_scope.

Definition get : Method t := fun b => (Ok b, b).
Definition put (b' : t) : Method unit := fun _ => (Ok tt, b').

(** [l.forEach(f)] with a callback that may throw. *)
Fixpoint forEach {A : Type} (f : A -> Method unit) (l : list A) : Method unit :=
  match l with
  | [] => ret tt
  | x :: l' => f x ;; forEach f l'
  end.

(** [setId]. *)
Definition setId (id' : string) : Method unit :=
  fun b => (Ok tt,
            {| id := id'; content := content b; authorId := authorId b;
               location := location b; category := category b;
               status := status b; hashtags := hashtags b;
               images := images b; createdAt := createdAt b |}).

(** [setContent]. *)
Definition setContent (content' : string) : Method unit :=
  fun b =>
    if falsy content' || (String.length (trim content') =? 0)%nat then
      (Err "Post content cannot be empty", b)
    else if (5000 <? String.length content')%nat then
      (Err "Post content exceeds maximum length (5000 characters)", b)
    else
      (Ok tt,
       {| id := id b; content := trim content'; authorId := authorId b;
          location := location b; category := category b;
          status := status b; hashtags := hashtags b;
          images := images b; createdAt := createdAt b |}).

(** [setAuthorId]. *)
Definition setAuthorId (authorId' : string) : Method unit :=
  fun b =>
    if falsy authorId' then (Err "Author ID is required", b)
    else
      (Ok tt,
       {| id := id b; content := content b; authorId := authorId';
          location := location b; category := category b;
          status := status b; hashtags := hashtags b;
          images := images b; createdAt := createdAt b |}).

(** [setLocation]. *)
Definition setLocation (cellId' sectorId' districtId' : string) : Method unit :=
  fun b =>
    if falsy cellId' || falsy sectorId' || falsy districtId' then
      (Err "Location must include cellId, sectorId, and districtId", b)
    else
      (Ok tt,
       {| id := id b; content := content b; authorId := authorId b;
          location := Some {| cellId := cellId'; sectorId := sectorId';
                              districtId := districtId' |};
          category := category b;
          status := status b; hashtags := hashtags b;
          images := images b; createdAt := createdAt b |}).

(** [setCategory]: a member of the enum is a non-empty string, so the
    guard [!category] never fires on a typed argument. *)
Definition setCategory (category' : ActivityCategory) : Method unit :=
  fun b =>
    (Ok tt,
     {| id := id b; content := content b; authorId := authorId b;
        location := location b; category := Some category';
        status := status b; hashtags := hashtags b;
        images := images b; createdAt := createdAt b |}).

(** [setStatus]. *)
Definition setStatus (status' : PostStatus) : Method unit :=
  fun b =>
    (Ok tt,
     {| id := id b; content := content b; authorId := authorId b;
        location := location b; category := category b;
        status := status'; hashtags := hashtags b;
        images := images b; createdAt := createdAt b |}).

Definition set_hashtags (hashtags' : list string) (b : t) : t :=
  {| id := id b; content := content b; authorId := authorId b;
     location := location b; category := category b; status := status b;
     hashtags := hashtags'; images := images b; createdAt := createdAt b |}.

Definition set_images (images' : list Image) (b : t) : t :=
  {| id := id b; content := content b; authorId := authorId b;
     location := location b; category := category b; status := status b;
     hashtags := hashtags b; images := images'; createdAt := createdAt b |}.

(** [hashtag.startsWith("#") ? hashtag : `#${hashtag}`]. *)
Definition cleanHashtag (hashtag : string) : string :=
  if startsWith hashtag "#" then hashtag else "#" ++ hashtag.

(** [l.includes(s)]. *)
Definition includes (l : list string) (s : string) : bool :=
  existsb (String.eqb s) l.

(** [addHashtag]. *)
Definition addHashtag (hashtag : string) : Method unit :=
  fun b =>
    let cleanedHashtag := cleanHashtag hashtag in
    if includes (hashtags b) cleanedHashtag then
      (Ok tt, b) (* Avoid duplicates *)
    else if (10 <=? List.length (hashtags b))%nat then
      (Err "Maximum 10 hashtags allowed per post", b)
    else
      (Ok tt, set_hashtags (hashtags b ++ [cleanedHashtag]) b).

(** [addHashtags]. *)
Definition addHashtags (hashtags' : list string) : Method unit :=
  forEach addHashtag hashtags'.

(** [addImage]. *)
Definition addImage (url' : string) (publicId' caption' : option string)
    : Method unit :=
  fun b =>
    if falsy url' then (Err "Image URL is required", b)
    else if (5 <=? List.length (images b))%nat then
      (Err "Maximum 5 images allowed per post", b)
    else
      (Ok tt,
       set_images (images b ++ [ {| url := url'; publicId := publicId';
                                    caption := caption' |} ]) b).

(** [addImages]. *)
Definition addImages (images' : list Image) : Method unit :=
  b <- get ;;
  (if (5 <? List.length (images b) + List.length images')%nat
   then throw "Maximum 5 images allowed per post" else ret tt) ;;
  forEach (fun img =>
             if falsy (url img) then throw "All images must have valid URLs"
             else ret tt)
          images' ;;
  b <- get ;;
  put (set_images (images b ++ images') b).

(** [setCreatedAt]. *)
Definition setCreatedAt (date : Date) : Method unit :=
  fun b =>
    (Ok tt,
     {| id := id b; content := content b; authorId := authorId b;
        location := location b; category := category b; status := status b;
        hashtags := hashtags b; images := images b; createdAt := date |}).

(** [validate]. *)
Definition validate : Method unit :=
  fun b =>
    if falsy (content b) then (Err "Post content is required", b)
    else if falsy (authorId b) then (Err "Author ID is required", b)
    else
      match location b with
      | None => (Err "Post location is required", b)
      | Some _ =>
          match category b with
          | None => (Err "Post category is required", b)
          | Some _ => (Ok tt, b)
          end
      end.

(** [build]; [now] is what [new Date()] reads for [updatedAt].  The result
    is the post as [build] returns it; its [hashtags] and [images] are the
    arrays the builder holds at that moment. *)
Definition build (now : Date) : Method Post.t :=
  validate ;;
  b <- get ;;
  match location b, category b with
  | Some location', Some category' =>
      ret {| Post.id := id b; Post.content := content b;
             Post.authorId := authorId b; Post.location := location';
             Post.category := category'; Post.status := status b;
             Post.hashtags := hashtags b; Post.images := images b;
             Post.createdAt := createdAt b; Post.updatedAt := now |}
  | _, _ => throw "Invalid post state"
  end.

(** [reset]. *)
Definition reset (uuid : string) (now : Date) : Method unit :=
  put (new uuid now).

(** The calls a client can make on a builder. *)
Inductive Call :=
| SetId (id' : string)
| SetContent (content' : string)
| SetAuthorId (authorId' : string)
| SetLocation (cellId' sectorId' districtId' : string)
| SetCategory (category' : ActivityCategory)
| SetStatus (status' : PostStatus)
| AddHashtag (hashtag : string)
| AddHashtags (hashtags' : list string)
| AddImage (url' : string) (publicId' caption' : option string)
| AddImages (images' : list Image)
| SetCreatedAt (date : Date)
| Build (now : Date)
| Reset (uuid : string) (now : Date).

(** The builder after a call, whether the call returned or threw. *)
Definition after (b : t) (c : Call) : t :=
  match c with
  | SetId i => snd (setId i b)
  | SetContent s => snd (setContent s b)
  | SetAuthorId a => snd (setAuthorId a b)
  | SetLocation c s d => snd (setLocation c s d b)
  | SetCategory c => snd (setCategory c b)
  | SetStatus s => snd (setStatus s b)
  | AddHashtag h => snd (addHashtag h b)
  | AddHashtags hs => snd (addHashtags hs b)
  | AddImage u p c => snd (addImage u p c b)
  | AddImages imgs => snd (addImages imgs b)
  | SetCreatedAt d => snd (setCreatedAt d b)
  | Build now => snd (build now b)
  | Reset uuid now => snd (reset uuid now b)
  end.

Definition after_all (calls : list Call) (b : t) : t :=
  fold_left after calls b.

(** What the builder keeps true of its fields. *)
Definition hashtags_ok (l : list string) : Prop :=
  NoDup l /\ (List.length l <= 10)%nat
  /\ Forall (fun h => startsWith h "#" = true) l.

Definition images_ok (l : list Image) : Prop :=
  (List.length l <= 5)%nat /\ Forall (fun img => url img <> "") l.

Definition content_ok (s : string) : Prop :=
  trim s = s /\ (String.length s <= 5000)%nat.

Definition location_ok (l : Location) : Prop :=
  cellId l <> "" /\ sectorId l <> "" /\ districtId l <> "".

Definition invariant (b : t) : Prop :=
  content_ok (content b)
  /\ hashtags_ok (hashtags b)
  /\ images_ok (images b)
  /\ (forall l, location b = Some l -> location_ok l).

(** A built post is well formed. *)
Definition well_formed (p : Post.t) : Prop :=
  Post.content p <> "" /\ content_ok (Post.content p)
  /\ Post.authorId p <> ""
  /\ location_ok (Post.location p)
  /\ hashtags_ok (Post.hashtags p)
  /\ images_ok (Post.images p).

End PostBuilder.

(* ================================================================== *)
(** * [PostFactory.ts] *)
(* ================================================================== *)

Module PostFactory.

Local Open Scope string_scope.

(** [IPostCreationArgs], with the [images] that [IImagePostCreationArgs]
    adds. *)
Module Args.
Record t := {
  content : string;
  authorId : string;
  cellId : string;
  sectorId : string;
  districtId : string;
  category : ActivityCategory;
  hashtags : option (list string);
  status : option PostStatus;
  images : option (list PostBuilder.Image)
}.
End Args.

(** [IPost], with the [images] that [IImagePost] adds. *)
Module IPost.
Record t := {
  id : option string;
  content : string;
  authorId : string;
  cellId : string;
  sectorId : string;
  districtId : string;
  category : ActivityCategory;
  status : PostStatus;
  hashtags : list string;
  createdAt : option Date;
  images : option (list PostBuilder.Image)
}.
End IPost.

(** [x || d] on an optional value whose present values are truthy (an enum
    member, an array). *)
Definition or_default {A : Type} (x : option A) (d : A) : A :=
  match x with
  | Some a => a
  | None => d
  end.

(** The abstract class [PostFactory]. *)
Record PostFactory := {
  createPost : Args.t -> Result IPost.t;
  getPostType : string
}.

(** [TextPostFactory]. *)
Definition TextPostFactory : PostFactory :=
  {| createPost args :=
       (* Validation *)
       if falsy (trim (Args.content args)) then
         Err "Post content cannot be empty"
       else if (5000 <? String.length (Args.content args))%nat then
         Err "Post content exceeds maximum length (5000 characters)"
       else
         Ok {| IPost.id := None;
               IPost.content := Args.content args;
               IPost.authorId := Args.authorId args;
               IPost.cellId := Args.cellId args;
               IPost.sectorId := Args.sectorId args;
               IPost.districtId := Args.districtId args;
               IPost.category := Args.category args;
               IPost.status := or_default (Args.status args) PUBLISHED;
               IPost.hashtags := or_default (Args.hashtags args) [];
               IPost.createdAt := None;
               IPost.images := None |};
     getPostType := "TEXT_POST" |}.

Definition MAX_IMAGES : nat := 5.
Definition MIN_IMAGES : nat := 1.

(** [ImagePostFactory]. *)
Definition ImagePostFactory : PostFactory :=
  {| createPost args :=
       (* Validation *)
       if falsy (trim (Args.content args)) then
         Err "Post content cannot be empty"
       else if (5000 <? String.length (Args.content args))%nat then
         Err "Post content exceeds maximum length (5000 characters)"
       else
         match Args.images args with
         | None => Err "Image post must have at least 1 image(s)"
         | Some images =>
             if (List.length images =? 0)%nat then
               Err "Image post must have at least 1 image(s)"
             else if (MAX_IMAGES <? List.length images)%nat then
               Err "Image post cannot exceed 5 images"
             else if negb (forallb (fun img =>
                                      negb (falsy (PostBuilder.url img)))
                                   images) then
               (* Validate all images have URLs *)
               Err "All images must have valid URLs"
             else
               Ok {| IPost.id := None;
                     IPost.content := Args.content args;
                     IPost.authorId := Args.authorId args;
                     IPost.cellId := Args.cellId args;
                     IPost.sectorId := Args.sectorId args;
                     IPost.districtId := Args.districtId args;
                     IPost.category := Args.category args;
                     IPost.status := or_default (Args.status args) PUBLISHED;
                     IPost.hashtags := or_default (Args.hashtags args) [];
                     IPost.createdAt := None;
                     IPost.images := Some images |}
         end;
     getPostType := "IMAGE_POST" |}.

(** The static [Map<string, PostFactory>] of [PostFactoryCreator], in
    insertion order. *)
Definition Factories := list (string * PostFactory).

Definition initial_factories : Factories :=
  [ ("text", TextPostFactory); ("image", ImagePostFactory) ].

Fixpoint factories_get (m : Factories) (k : string) : option PostFactory :=
  match m with
  | [] => None
  | (k', f) :: m' => if String.eqb k' k then Some f else factories_get m' k
  end.

Fixpoint factories_set (m : Factories) (k : string) (f : PostFactory)
    : Factories :=
  match m with
  | [] => [(k, f)]
  | (k', f') :: m' =>
      if String.eqb k' k then (k', f) :: m'
      else (k', f') :: factories_set m' k f
  end.

(** [PostFactoryCreator]; [toLowerCase] is the runtime's
    [String.prototype.toLowerCase]. *)
Section PostFactoryCreator.
Variable toLowerCase : string -> string.

(** [getFactory]. *)
Definition getFactory (factories : Factories) (postType : string)
    : Result PostFactory :=
  match factories_get factories (toLowerCase postType) with
  | Some factory => Ok factory
  | None => Err ("Unknown post type: " ++ postType)
  end.

(** [registerFactory]. *)
Definition registerFactory (factories : Factories) (postType : string)
    (factory : PostFactory) : Factories :=
  factories_set factories (toLowerCase postType) factory.
End PostFactoryCreator.

End PostFactory.

(* ================================================================== *)
(** * [PostService] *)
(* ================================================================== *)

Module PostService.

Import PostFactory.
Local Open Scope string_scope.
Local Notation "c ;; k" := (PostBuilder.bind c (fun _ => k))
  (at level 61, right associativity) : builder_scope.
Local Open Scope builder_scope.

(** Modelled from the spec: the Prisma schema is not among the sources.  A
    row of the post table carries the fields [PostService] writes, the id
    the database gives it and its creation instant. *)
Record PostRow := {
  id : string;
  content : string;
  authorId : string;
  cellId : string;
  sectorId : string;
  districtId : string;
  category : ActivityCategory;
  status : PostStatus;
  hashtags : list string;
  images : list PostBuilder.Image;
  createdAt : Date
}.

Definition Table := list PostRow.

(** The argument [data] of [prisma.post.create]. *)
Record CreateData := {
  data_content : string;
  data_authorId : string;
  data_cellId : string;
  data_sectorId : string;
  data_districtId : string;
  data_category : ActivityCategory;
  data_status : PostStatus;
  data_hashtags : list string;
  data_images : list PostBuilder.Image
}.

(** What a call reads from its surroundings: the uuid and the instant the
    builder takes, and the id the database gives a new row. *)
Record Env := {
  uuid : string;
  now : Date;
  new_id : string
}.

(** A method of the service runs against the table. *)
Definition Service (A : Type) : Type := Table -> Result A * Table.

(** [prisma.post.create({ data })]: the row is appended. *)
Definition post_create (env : Env) (data : CreateData) : Service PostRow :=
  fun table =>
    let row :=
      {| id := new_id env;
         content := data_content data;
         authorId := data_authorId data;
         cellId := data_cellId data;
         sectorId := data_sectorId data;
         districtId := data_districtId data;
         category := data_category data;
         status := data_status data;
         hashtags := data_hashtags data;
         images := data_images data;
         createdAt := now env |} in
    (Ok row, (table ++ [row])%list).

(** [prisma.post.findUnique({ where: { id } })]. *)
Definition post_findUnique (postId : string) (table : Table) : option PostRow :=
  find (fun r => String.eqb (id r) postId) table.

(** [prisma.post.delete({ where: { id } })]. *)
Definition post_delete (postId : string) (table : Table) : Table :=
  filter (fun r => negb (String.eqb (id r) postId)) table.

(** The input of [createTextPost] and [createImagePost]. *)
Record Input := {
  input_content : string;
  input_authorId : string;
  input_cellId : string;
  input_sectorId : string;
  input_districtId : string;
  input_category : ActivityCategory;
  input_images : option (list PostBuilder.Image);
  input_hashtags : option (list string)
}.

(** The input seen as creation arguments: it has no [status]. *)
Definition args_of (input : Input) : Args.t :=
  {| Args.content := input_content input;
     Args.authorId := input_authorId input;
     Args.cellId := input_cellId input;
     Args.sectorId := input_sectorId input;
     Args.districtId := input_districtId input;
     Args.category := input_category input;
     Args.hashtags := input_hashtags input;
     Args.status := None;
     Args.images := input_images input |}.

(** The [data] of [createTextPost]: it names no images, so the row gets
    none. *)
Definition text_data_of (postObject : PostBuilder.Post.t) : CreateData :=
  {| data_content := PostBuilder.Post.content postObject;
     data_authorId := PostBuilder.Post.authorId postObject;
     data_cellId :=
       PostBuilder.cellId (PostBuilder.Post.location postObject);
     data_sectorId :=
       PostBuilder.sectorId (PostBuilder.Post.location postObject);
     data_districtId :=
       PostBuilder.districtId (PostBuilder.Post.location postObject);
     data_category := PostBuilder.Post.category postObject;
     data_status := PostBuilder.Post.status postObject;
     data_hashtags := PostBuilder.Post.hashtags postObject;
     data_images := [] |}.

(** The [data] of [createImagePost], with [images: { create: ... }]. *)
Definition image_data_of (postObject : PostBuilder.Post.t) : CreateData :=
  {| data_content := PostBuilder.Post.content postObject;
     data_authorId := PostBuilder.Post.authorId postObject;
     data_cellId :=
       PostBuilder.cellId (PostBuilder.Post.location postObject);
     data_sectorId :=
       PostBuilder.sectorId (PostBuilder.Post.location postObject);
     data_districtId :=
       PostBuilder.districtId (PostBuilder.Post.location postObject);
     data_category := PostBuilder.Post.category postObject;
     data_status := PostBuilder.Post.status postObject;
     data_hashtags := PostBuilder.Post.hashtags postObject;
     data_images := PostBuilder.Post.images postObject |}.

Section Service.
Variable toLowerCase : string -> string.
Variable factories : Factories.

(** [createTextPost]. *)
Definition createTextPost (env : Env) (input : Input) : Service PostRow :=
  fun table =>
    (* Use Factory Method pattern to create appropriate post type *)
    match getFactory toLowerCase factories "text" with
    | Err e => (Err e, table)
    | Ok factory =>
        match createPost factory (args_of input) with
        | Err e => (Err e, table)
        | Ok textPost =>
            (* Use Builder pattern to construct the complete post object *)
            let builtPost :=
              PostBuilder.setContent (IPost.content textPost) ;;
              PostBuilder.setAuthorId (IPost.authorId textPost) ;;
              PostBuilder.setLocation (IPost.cellId textPost)
                (IPost.sectorId textPost) (IPost.districtId textPost) ;;
              PostBuilder.setCategory (IPost.category textPost) ;;
              PostBuilder.setStatus (IPost.status textPost) ;;
              match input_hashtags input with
              | Some hashtags' => PostBuilder.addHashtags hashtags'
              | None => PostBuilder.ret tt
              end ;;
              PostBuilder.build (now env) in
            match builtPost (PostBuilder.new (uuid env) (now env)) with
            | (Err e, _) => (Err e, table)
            | (Ok postObject, _) =>
                (* Save to database *)
                post_create env (text_data_of postObject) table
            end
        end
    end.

(** [createImagePost]. *)
Definition createImagePost (env : Env) (input : Input) : Service PostRow :=
  fun table =>
    match getFactory toLowerCase factories "image" with
    | Err e => (Err e, table)
    | Ok factory =>
        match createPost factory (args_of input) with
        | Err e => (Err e, table)
        | Ok imagePost =>
            let builtPost :=
              PostBuilder.setContent (IPost.content imagePost) ;;
              PostBuilder.setAuthorId (IPost.authorId imagePost) ;;
              PostBuilder.setLocation (IPost.cellId imagePost)
                (IPost.sectorId imagePost) (IPost.districtId imagePost) ;;
              PostBuilder.setCategory (IPost.category imagePost) ;;
              PostBuilder.setStatus (IPost.status imagePost) ;;
              match IPost.images imagePost with
              | Some images' => PostBuilder.addImages images'
              | None =>
                  (* [images.length] on [undefined] *)
                  PostBuilder.throw
                    "Cannot read properties of undefined (reading 'length')"
              end ;;
              match input_hashtags input with
              | Some hashtags' => PostBuilder.addHashtags hashtags'
              | None => PostBuilder.ret tt
              end ;;
              PostBuilder.build (now env) in
            match builtPost (PostBuilder.new (uuid env) (now env)) with
            | (Err e, _) => (Err e, table)
            | (Ok postObject, _) =>
                (* Save to database with images *)
                post_create env (image_data_of postObject) table
            end
        end
    end.
End Service.

(** [deletePost]. *)
Definition deletePost (postId userId : string) : Service PostRow :=
  fun table =>
    match post_findUnique postId table with
    | None => (Err "Post not found", table)
    | Some post =>
        if negb (String.eqb (authorId post) userId) then
          (Err "Unauthorized", table)
        else (Ok post, post_delete postId table)
    end.

(** What the service writes is well formed. *)
Definition row_ok (r : PostRow) : Prop :=
  content r <> "" /\ PostBuilder.content_ok (content r)
  /\ authorId r <> ""
  /\ cellId r <> "" /\ sectorId r <> "" /\ districtId r <> ""
  /\ PostBuilder.hashtags_ok (hashtags r)
  /\ PostBuilder.images_ok (images r).

(** Sample values. *)
Definition sample_env : Env :=
  {| uuid := "id-1"; now := 5; new_id := "row-3" |}.

Definition sample_image : PostBuilder.Image :=
  {| PostBuilder.url := "https://img/1.jpg"; PostBuilder.publicId := None;
     PostBuilder.caption := Some "before" |}.

Definition sample_input : Input :=
  {| input_content := " Road repair "; input_authorId := "u1";
     input_cellId := "c1"; input_sectorId := "s1"; input_districtId := "d1";
     input_category := CLEANING; input_images := Some [sample_image];
     input_hashtags := Some ["road"; "#road"] |}.

Definition sample_row (id' authorId' : string) : PostRow :=
  {| id := id'; content := "Tree planting"; authorId := authorId';
     cellId := "c1"; sectorId := "s1"; districtId := "d1";
     category := CLEANING; status := PUBLISHED; hashtags := [];
     images := []; createdAt := 1 |}.

Definition sample_table : Table :=
  [ sample_row "row-1" "u1"; sample_row "row-2" "u2" ].

End PostService.

(* ================================================================== *)
(** * [api-response.ts] and the analytics route *)
(* ================================================================== *)

Module AnalyticsRoute.

Local Open Scope string_scope.

(** [ApiResponse<T>]; [timestamp] is the instant whose ISO string the
    response carries. *)
Record ApiError := {
  code : string;
  message : string
}.

Record ApiResponse (T : Type) := {
  success : bool;
  data : option T;
  error : option ApiError;
  timestamp : Date
}.
Arguments success {T} _.
Arguments data {T} _.
Arguments error {T} _.
Arguments timestamp {T} _.

(** [apiSuccess]; [now] is what [new Date()] reads. *)
Definition apiSuccess {T : Type} (now : Date) (data' : T) : ApiResponse T :=
  {| success := true; data := Some data'; error := None; timestamp := now |}.

(** [apiError]. *)
Definition apiError {T : Type} (now : Date) (code' message' : string)
    : ApiResponse T :=
  {| success := false; data := None;
     error := Some {| code := code'; message := message' |};
     timestamp := now |}.

(** [HTTP_STATUS]. *)
Definition OK : nat := 200.
Definition CREATED : nat := 201.
Definition BAD_REQUEST : nat := 400.
Definition UNAUTHORIZED : nat := 401.
Definition FORBIDDEN : nat := 403.
Definition NOT_FOUND : nat := 404.
Definition CONFLICT : nat := 409.
Definition INTERNAL_SERVER_ERROR : nat := 500.

(** [NextResponse.json(body, { status })]; the status is 200 when none is
    given. *)
Record Response := {
  status : nat;
  body : ApiResponse AnalyticsSummary
}.

(** What one request meets: the outcome of [await auth()], reduced to
    [session?.user?.id]; the window the runtime computes from the [days]
    parameter ([endDate] is the first [new Date()], [startDate] the second
    moved back by [setDate]); the store and clock of the engine's call; the
    instant the response is stamped. *)
Record Request := {
  session_user_id : Result (option string);
  window_start : Date;
  window_end : Date;
  engine_env : Env;
  responded_at : Date
}.

(** [engine.generateSummary(...)] on the object a reference points to. *)
Definition call_generateSummary (a : nat) (env : Env)
    (startDate endDate : Date) (p : Process)
    : Result AnalyticsSummary * Process :=
  match nth_error (heap p) a with
  | Some this =>
      let '(r, this') := generateSummary startDate endDate env this in
      (r, {| heap := heap_set a this' (heap p); instance := instance p |})
  | None => (Err "Cannot read properties of undefined", p)
  end.

(** The handler [GET]; [prisma] is the client of [@/lib/prisma]. *)
Definition GET (prisma : PrismaClient) (request : Request) (p : Process)
    : Response * Process :=
  let failed :=
    {| status := INTERNAL_SERVER_ERROR;
       body := apiError (responded_at request) "INTERNAL_ERROR"
                        "Failed to generate analytics" |} in
  (* Check authentication *)
  match session_user_id request with
  | Err _ => (failed, p)
  | Ok user_id =>
      if match user_id with
         | Some i => falsy i
         | None => true
         end
      then
        ({| status := UNAUTHORIZED;
            body := apiError (responded_at request) "UNAUTHORIZED"
                             "User not authenticated" |}, p)
      else
        (* Get analytics using Singleton Analytics Engine *)
        let '(analyticsEngine, p1) := getInstance prisma p in
        match call_generateSummary analyticsEngine (engine_env request)
                (window_start request) (window_end request) p1 with
        | (Ok summary, p2) =>
            ({| status := OK;
                body := apiSuccess (responded_at request) summary |}, p2)
        | (Err _, p2) => (failed, p2)
        end
  end.

(** The static field, when set, points into the heap. *)
Definition process_ok (p : Process) : Prop :=
  match instance p with
  | Some a => (a < List.length (heap p))%nat
  | None => True
  end.

(** Sample values. *)
Definition sample_request : Request :=
  {| session_user_id := Ok (Some "u1");
     window_start := 0; window_end := 100;
     engine_env := env_of hashtag_db 200;
     responded_at := 201 |}.

Definition empty_process : Process := {| heap := []; instance := None |}.

End AnalyticsRoute.

(* ================================================================== *)
(** * Facts about numbers *)
(* ================================================================== *)

(** ** Binary digits and shifts *)

Lemma digits2_pos_bounds (m : positive) :
  2 ^ (Zpos (digits2_pos m) - 1) <= Zpos m < 2 ^ Zpos (digits2_pos m).
Proof.
  induction m as [m IH | m IH | ]; simpl digits2_pos.
  - rewrite Pos2Z.inj_succ.
    replace (Z.succ (Zpos (digits2_pos m)) - 1) with (Z.succ (Zpos (digits2_pos m) - 1)) by lia.
    rewrite !Z.pow_succ_r by lia. lia.
  - rewrite Pos2Z.inj_succ.
    replace (Z.succ (Zpos (digits2_pos m)) - 1) with (Z.succ (Zpos (digits2_pos m) - 1)) by lia.
    rewrite !Z.pow_succ_r by lia. lia.
  - simpl. lia.
Qed.

Lemma iter_xO_shift (m d : positive) :
  Zpos (Pos.iter xO m d) = Zpos m * 2 ^ Zpos d.
Proof.
  induction d as [|d IH] using Pos.peano_ind.
  - simpl. lia.
  - rewrite Pos.iter_succ, Pos2Z.inj_succ, Z.pow_succ_r by lia.
    rewrite Pos2Z.inj_xO, IH. lia.
Qed.

Lemma digits2_pos_iter_xO (m d : positive) :
  digits2_pos (Pos.iter xO m d) = (digits2_pos m + d)%positive.
Proof.
  induction d as [|d IH] using Pos.peano_ind.
  - simpl. lia.
  - rewrite Pos.iter_succ. simpl. rewrite IH. lia.
Qed.

Lemma shr_m_of_loc (m : Z) (l : SpecFloat.location) : shr_m (shr_record_of_loc m l) = m.
Proof. destruct l as [|[]]; reflexivity. Qed.

Lemma shr_1_div2 (mrs : shr_record) :
  0 <= shr_m mrs -> shr_m (shr_1 mrs) = Z.div2 (shr_m mrs).
Proof.
  destruct mrs as [m r s]. simpl. destruct m as [|[p|p|]|p]; simpl; try reflexivity; lia.
Qed.

Lemma iter_shr_1 (p : positive) (mrs : shr_record) :
  0 <= shr_m mrs ->
  shr_m (iter_pos shr_1 p mrs) = Z.shiftr (shr_m mrs) (Zpos p).
Proof.
  assert (step : forall mrs, 0 <= shr_m mrs ->
            shr_m (shr_1 mrs) = Z.shiftr (shr_m mrs) 1).
  { intros r Hr. rewrite shr_1_div2 by assumption. now rewrite Z.div2_spec. }
  revert mrs.
  induction p as [p IH | p IH | ]; intros mrs Hm; simpl iter_pos.
  - assert (H1 : 0 <= shr_m (shr_1 mrs))
      by (rewrite step by assumption; now apply Z.shiftr_nonneg).
    assert (H2 : 0 <= shr_m (iter_pos shr_1 p (shr_1 mrs)))
      by (rewrite IH by assumption; now apply Z.shiftr_nonneg).
    rewrite (IH _ H2), (IH _ H1), (step _ Hm).
    rewrite !Z.shiftr_shiftr by lia. f_equal. lia.
  - assert (H2 : 0 <= shr_m (iter_pos shr_1 p mrs))
      by (rewrite IH by assumption; now apply Z.shiftr_nonneg).
    rewrite (IH _ H2), (IH _ Hm).
    rewrite !Z.shiftr_shiftr by lia. f_equal. lia.
  - now apply step.
Qed.

(** ** Shape of rounded results *)

Local Abbreviation emin := (SpecFloat.emin prec emax).
Local Abbreviation fexp := (SpecFloat.fexp prec emax).


Lemma emin_value : emin = -1074.
Proof. reflexivity. Qed.

Lemma fexp_ge_emin (e : Z) : emin <= fexp e.
Proof. unfold SpecFloat.fexp. apply Z.le_max_r. Qed.

(** Shifting to the canonical exponent keeps a mantissa non-negative and
    lands on an exponent that is at least [emin]; a positive mantissa whose
    exponent is already at least [emin] stays positive. *)
Lemma shr_fexp_shape (m e : Z) (l : SpecFloat.location) :
  0 <= m ->
  let '(mrs, e') := shr_fexp prec emax m e l in
  0 <= shr_m mrs /\ emin <= e' /\ (0 < m -> emin <= e -> 0 < shr_m mrs).
Proof.
  intros Hm. unfold shr_fexp, shr.
  destruct (fexp (Zdigits2 m + e) - e) as [|p|p] eqn:En;
    rewrite ?shr_m_of_loc.
  - pose proof (fexp_ge_emin (Zdigits2 m + e)). repeat split; lia.
  - rewrite iter_shr_1 by (rewrite shr_m_of_loc; exact Hm).
    rewrite shr_m_of_loc.
    pose proof (fexp_ge_emin (Zdigits2 m + e)).
    split; [now apply Z.shiftr_nonneg|]. split; [lia|].
    intros Hpos He.
    destruct m as [|q|q]; try lia.
    simpl Zdigits2 in *.
    pose proof (digits2_pos_bounds q) as [Hlo _].
    unfold SpecFloat.fexp in En. rewrite emin_value in *. unfold prec in En.
    rewrite Z.shiftr_div_pow2 by lia.
    apply Z.div_str_pos. split; [apply Z.pow_pos_nonneg; lia|].
    eapply Z.le_trans; [|exact Hlo].
    apply Z.pow_le_mono_r; lia.
  - pose proof (fexp_ge_emin (Zdigits2 m + e)). repeat split; lia.
Qed.

Lemma round_nearest_even_shape (m : Z) (l : SpecFloat.location) :
  0 <= m -> m <= round_nearest_even m l.
Proof.
  intros Hm. destruct l as [|[]]; simpl; try lia.
  destruct (Z.even m); lia.
Qed.

Lemma binary_round_aux_shape (s : bool) (m e : Z) (l : SpecFloat.location) :
  0 <= m ->
  signed s (binary_round_aux prec emax s m e l)
  /\ (0 < m -> emin <= e -> nonzero (binary_round_aux prec emax s m e l)).
Proof.
  intros Hm. unfold binary_round_aux.
  pose proof (shr_fexp_shape m e l Hm) as H1.
  destruct (shr_fexp prec emax m e l) as [mrs' e'].
  destruct H1 as (Hm' & He' & Hpos').
  pose proof (round_nearest_even_shape (shr_m mrs') (loc_of_shr_record mrs') Hm')
    as Hr.
  set (m1 := round_nearest_even (shr_m mrs') (loc_of_shr_record mrs')) in *.
  assert (Hm1 : 0 <= m1) by lia.
  pose proof (shr_fexp_shape m1 e' loc_Exact Hm1) as H2.
  destruct (shr_fexp prec emax m1 e' loc_Exact) as [mrs'' e''].
  destruct H2 as (Hm'' & He'' & Hpos'').
  destruct (shr_m mrs'') as [|q|q] eqn:Eq; try lia.
  - split; [reflexivity|]. intros Hp He. specialize (Hpos' Hp He). lia.
  - destruct (e'' <=? emax - prec); simpl; auto.
Qed.

Lemma shl_align_exponent (m : positive) (e t : Z) :
  snd (shl_align m e t) = Z.min e t.
Proof.
  unfold shl_align. destruct (t - e) eqn:E; simpl; lia.
Qed.

Lemma shl_align_mantissa (m : positive) (e t : Z) :
  t <= e -> Zpos (fst (shl_align m e t)) = Zpos m * 2 ^ (e - t).
Proof.
  intros Ht. unfold shl_align. destruct (t - e) as [|d|d] eqn:E; simpl.
  - replace (e - t) with 0 by lia. simpl. lia.
  - exfalso. pose proof (Pos2Z.is_pos d). lia.
  - rewrite iter_xO_shift.
    replace (e - t) with (Zpos d) by (pose proof (Pos2Z.opp_pos d); lia).
    reflexivity.
Qed.

Lemma binary_round_shape (s : bool) (m : positive) (e : Z) :
  emin <= e ->
  signed s (binary_round prec emax s m e)
  /\ nonzero (binary_round prec emax s m e).
Proof.
  intros He. unfold binary_round.
  pose proof (shl_align_exponent m e (fexp (Zpos (digits2_pos m) + e))) as Hs.
  destruct (shl_align m e (fexp (Zpos (digits2_pos m) + e))) as [mz ez].
  cbn [snd] in Hs.
  pose proof (fexp_ge_emin (Zpos (digits2_pos m) + e)).
  destruct (binary_round_aux_shape s (Zpos mz) ez loc_Exact) as [H1 H2];
    [apply Pos2Z.is_nonneg|].
  split; [exact H1|]. apply H2; [reflexivity|]. lia.
Qed.

Lemma binary_normalize_shape (n e : Z) (sz : bool) :
  emin <= e ->
  match Z.compare n 0 with
  | Eq => binary_normalize prec emax n e sz = S754_zero sz
  | Gt => signed false (binary_normalize prec emax n e sz)
          /\ nonzero (binary_normalize prec emax n e sz)
  | Lt => signed true (binary_normalize prec emax n e sz)
          /\ nonzero (binary_normalize prec emax n e sz)
  end.
Proof.
  intros He. destruct n as [|p|p]; simpl Z.compare; cbv iota.
  - reflexivity.
  - now apply binary_round_shape.
  - now apply binary_round_shape.
Qed.

Lemma of_N_signed (n : N) : signed false (of_N n).
Proof.
  unfold of_N, of_Z.
  pose proof (binary_normalize_shape (Z.of_N n) 0 false) as H.
  destruct n as [|p]; [reflexivity|].
  simpl Z.of_N in *. simpl Z.compare in H. apply H. rewrite emin_value. lia.
Qed.

(** Below 2^53 a positive count is a finite number. *)
Lemma of_N_finite (n : N) :
  (0 < n < 2 ^ 53)%N ->
  exists m e, of_N n = S754_finite false m e /\ emin <= e.
Proof.
  intros [Hpos Hlt]. destruct n as [|p]; [lia|].
  unfold of_N, of_Z. simpl Z.of_N. unfold binary_normalize, binary_round.
  pose proof (digits2_pos_bounds p) as [Hlo _].
  assert (Hd : Zpos (digits2_pos p) <= 53).
  { destruct (Z_le_gt_dec (Zpos (digits2_pos p)) 53) as [|Hgt]; [assumption|].
    exfalso.
    assert (2 ^ 53 <= 2 ^ (Zpos (digits2_pos p) - 1))
      by (apply Z.pow_le_mono_r; lia).
    assert (Z.of_N (N.pos p) < Z.of_N (2 ^ 53)) by lia.
    change (Z.of_N (2 ^ 53)) with (2 ^ 53) in *. simpl Z.of_N in *. lia. }
  assert (Hf : fexp (Zpos (digits2_pos p) + 0) = Zpos (digits2_pos p) - 53).
  { unfold SpecFloat.fexp. rewrite emin_value. unfold prec. lia. }
  rewrite Hf.
  set (d := Zpos (digits2_pos p)) in *.
  assert (Hal : exists mz, shl_align p 0 (d - 53) = (mz, d - 53)
                           /\ Zpos (digits2_pos mz) = 53).
  { unfold shl_align. destruct (d - 53 - 0) as [|k|k] eqn:E.
    - exists p. split; [f_equal; lia|]. fold d. lia.
    - lia.
    - eexists. split; [reflexivity|].
      rewrite digits2_pos_iter_xO, Pos2Z.inj_add. fold d. lia. }
  destruct Hal as (mz & -> & Hmz).
  unfold binary_round_aux, shr_fexp. simpl Zdigits2. rewrite Hmz.
  assert (Hf2 : fexp (53 + (d - 53)) - (d - 53) = 0).
  { unfold SpecFloat.fexp. rewrite emin_value. unfold prec. lia. }
  rewrite Hf2.
  cbn [shr shr_record_of_loc shr_m loc_of_shr_record round_nearest_even Zdigits2].
  rewrite Hmz, Hf2. cbn [shr shr_m].
  assert (Hle : (d - 53 <=? emax - prec) = true)
    by (apply Z.leb_le; unfold emax, prec; lia).
  rewrite Hle. eexists _, _. split; [reflexivity|]. rewrite emin_value. lia.
Qed.

Lemma fdiv_signed (x y : number) :
  signed false x ->
  (exists m e, y = S754_finite false m e) ->
  signed false (fdiv x y).
Proof.
  intros Hx (my & ey & ->).
  destruct x as [s|s| |s mx ex]; simpl in Hx; try contradiction;
    try (subst s; reflexivity).
  destruct Hx as [-> _]. unfold fdiv, SFdiv, SFdiv_core_binary.
  cbn [xorb].
  match goal with
  | |- context [Z.div_eucl ?a (Zpos my)] => set (m' := a)
  end.
  assert (Ha : 0 <= m').
  { subst m'.
    match goal with
    | |- 0 <= match ?d with _ => _ end => destruct d
    end; [apply Pos2Z.is_nonneg | apply Z.shiftl_nonneg; lia | lia]. }
  pose proof (Z.div_pos m' (Zpos my) Ha (Pos2Z.is_pos my)) as Hq.
  unfold Z.div in Hq.
  destruct (Z.div_eucl m' (Zpos my)) as [q r].
  now apply binary_round_aux_shape.
Qed.

Lemma fmul_signed (x y : number) :
  signed false x ->
  (exists m e, y = S754_finite false m e) ->
  signed false (fmul x y).
Proof.
  intros Hx (my & ey & ->).
  destruct x as [s|s| |s mx ex]; simpl in Hx; try contradiction;
    try (subst s; reflexivity).
  destruct Hx as [-> _]. unfold fmul, SFmul. simpl xorb.
  apply binary_round_aux_shape. lia.
Qed.

Lemma Math_round_signed (x : number) :
  signed false x -> signed false (Math_round x).
Proof.
  intros Hx.
  destruct x as [s|s| |s m e]; simpl in Hx; try contradiction;
    try (subst s; reflexivity).
  destruct Hx as [-> He]. unfold Math_round.
  destruct (0 <=? e) eqn:E0; [simpl; auto|].
  apply Z.leb_gt in E0. simpl cond_Zopp.
  set (n := Z.shiftr _ _).
  assert (Hn : 0 <= n).
  { apply Z.shiftr_nonneg.
    assert (0 < 2 ^ (- e)) by (apply Z.pow_pos_nonneg; lia). lia. }
  pose proof (binary_normalize_shape n 0 false) as H.
  destruct (Z.compare_spec n 0) as [E|E|E].
  - rewrite H by (rewrite emin_value; lia). reflexivity.
  - lia.
  - apply H. rewrite emin_value. lia.
Qed.

Lemma hundred_finite : exists m e, hundred = S754_finite false m e.
Proof. eexists _, _. vm_compute. reflexivity. Qed.

(** The score of a node whose posts fit in an array is a non-negative
    number, never NaN. *)
Lemma calculateEngagementScore_signed (p c r rp : N) :
  (p < 2 ^ 53)%N ->
  signed false (calculateEngagementScore p c r rp).
Proof.
  intros Hp. unfold calculateEngagementScore.
  apply fdiv_signed; [|apply hundred_finite].
  apply Math_round_signed.
  apply fmul_signed; [|apply hundred_finite].
  apply fdiv_signed; [apply of_N_signed|].
  destruct (of_N_finite (or_one p)) as (m & e & -> & _); [|eauto].
  unfold or_one. destruct (N.eqb_spec p 0); lia.
Qed.

(** ** Order on non-negative numbers *)

Lemma number_le_trans (x y z : number) :
  number_le x y -> number_le y z -> number_le x z.
Proof. unfold number_le. lia. Qed.

Lemma number_le_total (x y : number) : number_le x y \/ number_le y x.
Proof. unfold number_le. lia. Qed.

(** The sign of a difference of non-negative numbers is the order of their
    values: the subtraction never rounds a non-zero difference to zero. *)
Ltac sign_cases :=
  split; split; intros ?H;
  first [ reflexivity | discriminate | lia | exfalso; lia
        | nia | exfalso; nia ].

Lemma fsub_sign (x y : number) :
  signed false x -> signed false y ->
  (sign_of_number (fsub y x) = Gt <-> ~ number_le y x)
  /\ (sign_of_number (fsub y x) = Lt <-> ~ number_le x y).
Proof.
  intros Hx Hy. unfold number_le.
  destruct x as [sx|sx| |sx mx ex], y as [sy|sy| |sy my ey];
    simpl in Hx, Hy; try contradiction;
    repeat match goal with
           | H : _ /\ _ |- _ => destruct H
           | H : _ = false |- _ => subst
           end;
    try (cbn [fsub SFsub sign_of_number negb infinite_part ulps cond_Zopp];
         sign_cases; fail).
  all: try (cbn [fsub SFsub sign_of_number negb infinite_part ulps cond_Zopp];
            match goal with
            | H : emin <= ?e |- _ =>
                assert (0 < 2 ^ (e - emin)) by (apply Z.pow_pos_nonneg; lia)
            end;
            sign_cases; fail).
  (* finite - finite *)
  - unfold fsub, SFsub. cbn [cond_Zopp infinite_part ulps].
    set (ez := Z.min ey ex).
    rewrite !shl_align_mantissa by (subst ez; lia).
    set (D := Zpos my * 2 ^ (ey - ez) - Zpos mx * 2 ^ (ex - ez)).
    assert (Hez : emin <= ez) by (subst ez; lia).
    pose proof (binary_normalize_shape D ez false Hez) as HD.
    assert (Hu : Zpos my * 2 ^ (ey - emin) - Zpos mx * 2 ^ (ex - emin)
                 = D * 2 ^ (ez - emin)).
    { subst D. rewrite Z.mul_sub_distr_r, <- !Z.mul_assoc, <- !Z.pow_add_r
        by (subst ez; lia).
      f_equal; f_equal; f_equal; lia. }
    assert (Hp : 0 < 2 ^ (ez - emin)) by (apply Z.pow_pos_nonneg; lia).
    destruct (Z.compare_spec D 0) as [E|E|E].
    + rewrite HD. cbn [sign_of_number]. sign_cases.
    + destruct HD as [Hs Hn].
      destruct (binary_normalize prec emax D ez false) as [s|s| |s m e];
        simpl in Hs, Hn; try contradiction;
        repeat match goal with
               | H : _ /\ _ |- _ => destruct H
               | H : _ = true |- _ => subst
               end; cbn [sign_of_number]; sign_cases.
    + destruct HD as [Hs Hn].
      destruct (binary_normalize prec emax D ez false) as [s|s| |s m e];
        simpl in Hs, Hn; try contradiction;
        repeat match goal with
               | H : _ /\ _ |- _ => destruct H
               | H : _ = false |- _ => subst
               end; cbn [sign_of_number]; sign_cases.
Qed.

(** ** The model at work *)

(** [Math.round] rounds ties towards +infinity: 2.5 to 3, -2.5 to -2, and
    0.25 to 0. *)
Example Math_round_ties :
  Math_round (fdiv (of_Z 5) (of_Z 2)) = of_Z 3
  /\ Math_round (fdiv (of_Z (-5)) (of_Z 2)) = of_Z (-2)
  /\ Math_round (fdiv (of_Z 1) (of_Z 4)) = of_Z 0.
Proof. repeat split; vm_compute; reflexivity. Qed.

(** The quotient is a binary64 number before it is scaled: 201/200 is
    stored just under 1.005, its product with 100 just under 100.5, and the
    score of 200 posts with one reaction is 1, not 1.01. *)
Example calculateEngagementScore_binary64 :
  calculateEngagementScore 200 0 1 0 = of_N 1.
Proof. vm_compute. reflexivity. Qed.

Example number_le_examples :
  number_le (of_N 0) (of_N 1)
  /\ number_le (fdiv (of_Z 167) hundred) (of_N 5)
  /\ ~ number_le (of_N 5) (fdiv (of_Z 167) hundred).
Proof.
  unfold number_le. vm_compute.
  repeat split; try (right; split; [reflexivity|discriminate]).
  intros [H|[_ H]]; [discriminate H|apply H; reflexivity].
Qed.

(* ================================================================== *)
(** * Facts about [sort] and [slice] *)
(* ================================================================== *)

Section SortFacts.
Context {A : Type}.
Variable compareFn : A -> A -> comparison.

Lemma insert_sorted_perm (x : A) (l : list A) :
  Permutation (insert_sorted compareFn x l) (x :: l).
Proof.
  induction l as [|y l IH]; simpl; [reflexivity|].
  destruct (compareFn x y); try reflexivity.
  rewrite IH. apply perm_swap.
Qed.

Lemma sort_perm (l : list A) : Permutation (sort compareFn l) l.
Proof.
  induction l as [|x l IH]; simpl; [reflexivity|].
  rewrite insert_sorted_perm. now constructor.
Qed.

Lemma sort_length (l : list A) : List.length (sort compareFn l) = List.length l.
Proof. apply Permutation_length, sort_perm. Qed.

Lemma sort_In (x : A) (l : list A) : In x (sort compareFn l) <-> In x l.
Proof.
  split; apply Permutation_in; [|symmetry]; apply sort_perm.
Qed.

(** On elements where the comparator is a consistent ordering, the
    output is sorted, and elements that tie keep the order [R] in which
    the input had them. *)
Variable P : A -> Prop.
Variable R : A -> A -> Prop.
Hypothesis compareFn_antisym :
  forall a b, P a -> P b -> compareFn a b = Gt -> compareFn b a = Lt.
Hypothesis compareFn_trans :
  forall a b c, P a -> P b -> P c ->
    compareFn a b <> Gt -> compareFn b c <> Gt -> compareFn a c <> Gt.

Lemma precedes_not_Gt (a b : A) :
  precedes compareFn R a b -> compareFn a b <> Gt.
Proof. intros [H|[H _]]; congruence. Qed.

Lemma not_Gt_precedes (a b : A) :
  compareFn a b <> Gt -> R a b -> precedes compareFn R a b.
Proof.
  unfold precedes. intros H HR. destruct (compareFn a b); auto. congruence.
Qed.

Lemma insert_sorted_ordered (x : A) (l : list A) :
  P x -> Forall P l -> Forall (R x) l ->
  StronglySorted (precedes compareFn R) l ->
  StronglySorted (precedes compareFn R) (insert_sorted compareFn x l).
Proof.
  intros Px. induction l as [|y l IH]; intros HP HR Hs; simpl.
  - repeat constructor.
  - inversion HP as [|? ? Py HPl]; subst.
    inversion HR as [|? ? Rxy HRl]; subst.
    inversion Hs as [|? ? Hsl Hy]; subst.
    destruct (compareFn x y) eqn:E.
    + constructor; [assumption|]. constructor.
      * apply not_Gt_precedes; [congruence|assumption].
      * rewrite Forall_forall in *. intros z Hz.
        apply not_Gt_precedes; [|auto].
        apply (compareFn_trans x y z); auto; try congruence.
        apply precedes_not_Gt; auto.
    + constructor; [assumption|]. constructor.
      * left; assumption.
      * rewrite Forall_forall in *. intros z Hz.
        apply not_Gt_precedes; [|auto].
        apply (compareFn_trans x y z); auto; try congruence.
        apply precedes_not_Gt; auto.
    + constructor; [now apply IH|].
      rewrite Forall_forall in *. intros z Hz.
      apply (Permutation_in _ (insert_sorted_perm x l)) in Hz.
      destruct Hz as [<-|Hz]; [|auto].
      left. now apply compareFn_antisym.
Qed.

Lemma sort_ordered (l : list A) :
  Forall P l -> StronglySorted R l ->
  StronglySorted (precedes compareFn R) (sort compareFn l).
Proof.
  induction l as [|x l IH]; intros HP HR; simpl; [constructor|].
  inversion HP; subst. inversion HR; subst.
  apply insert_sorted_ordered; auto.
  - eapply Permutation_Forall; [symmetry; apply sort_perm|assumption].
  - eapply Permutation_Forall; [symmetry; apply sort_perm|assumption].
Qed.
End SortFacts.

Lemma In_firstn {A : Type} (n : nat) (l : list A) (x : A) :
  In x (firstn n l) -> In x l.
Proof.
  intros H. rewrite <- (firstn_skipn n l). apply in_or_app. now left.
Qed.

Lemma StronglySorted_firstn {A : Type} (R : A -> A -> Prop) (n : nat)
    (l : list A) :
  StronglySorted R l -> StronglySorted R (firstn n l).
Proof.
  revert n. induction l as [|x l IH]; intros [|n] Hs; simpl; try constructor.
  - inversion Hs; subst. auto.
  - inversion Hs as [|? ? _ Hx]; subst.
    rewrite Forall_forall in *. intros y Hy. apply Hx.
    now apply In_firstn in Hy.
Qed.

Lemma StronglySorted_weaken {A : Type} (R R' : A -> A -> Prop) (l : list A) :
  (forall a b, In a l -> In b l -> R a b -> R' a b) ->
  StronglySorted R l -> StronglySorted R' l.
Proof.
  induction l as [|x l IH]; intros Himp Hs; [constructor|].
  inversion Hs as [|? ? Hsl Hx]; subst. constructor.
  - apply IH; [|assumption]. intros a b Ha Hb. apply Himp; now right.
  - rewrite Forall_forall in *. intros y Hy.
    apply Himp; [now left|now right|auto].
Qed.

Lemma StronglySorted_map {A B : Type} (f : A -> B) (R : B -> B -> Prop)
    (l : list A) :
  StronglySorted (fun a b => R (f a) (f b)) l ->
  StronglySorted R (List.map f l).
Proof.
  induction 1 as [|x l Hs IH Hx]; simpl; constructor; [assumption|].
  rewrite Forall_forall in *. intros y Hy.
  apply in_map_iff in Hy as (a & <- & Ha). auto.
Qed.

Lemma StronglySorted_filter {A : Type} (R : A -> A -> Prop) (f : A -> bool)
    (l : list A) :
  StronglySorted R l -> StronglySorted R (filter f l).
Proof.
  induction 1 as [|x l Hs IH Hx]; simpl; [constructor|].
  destruct (f x); [|assumption]. constructor; [assumption|].
  rewrite Forall_forall in *. intros y Hy.
  apply filter_In in Hy as [Hy _]. auto.
Qed.

(** ** The comparator on counts *)

Lemma by_count_desc_Gt {A : Type} (cnt : A -> N) (a b : A) :
  by_count_desc cnt a b = Gt <-> (cnt a < cnt b)%N.
Proof.
  unfold by_count_desc, sign_of_Z. rewrite Z.compare_gt_iff. lia.
Qed.

Lemma by_count_desc_Lt {A : Type} (cnt : A -> N) (a b : A) :
  by_count_desc cnt a b = Lt <-> (cnt b < cnt a)%N.
Proof.
  unfold by_count_desc, sign_of_Z. rewrite Z.compare_lt_iff. lia.
Qed.

Lemma by_count_desc_Eq {A : Type} (cnt : A -> N) (a b : A) :
  by_count_desc cnt a b = Eq <-> cnt a = cnt b.
Proof.
  unfold by_count_desc, sign_of_Z. rewrite Z.compare_eq_iff. lia.
Qed.

(** Sorting by decreasing count: the output is sorted, and ties keep the
    order of the input. *)
Lemma sort_by_count {A : Type} (cnt : A -> N) (R : A -> A -> Prop)
    (l : list A) :
  StronglySorted R l ->
  StronglySorted
    (fun a b => (cnt b < cnt a)%N \/ (cnt a = cnt b /\ R a b))
    (sort (by_count_desc cnt) l).
Proof.
  intros HR.
  apply StronglySorted_weaken with (R := precedes (by_count_desc cnt) R).
  - intros a b _ _ [H|[H HR']].
    + left. now apply by_count_desc_Lt.
    + right. split; [now apply by_count_desc_Eq|assumption].
  - apply sort_ordered with (P := fun _ => True); auto.
    + intros a b _ _ H. apply by_count_desc_Lt. now apply by_count_desc_Gt in H.
    + intros a b c _ _ _ H1 H2 H3.
      rewrite by_count_desc_Gt in *. lia.
    + apply Forall_forall. auto.
Qed.

(* ================================================================== *)
(** * Facts about counting with a [Map] *)
(* ================================================================== *)

#[export] Instance MapKeyLaws_string : MapKeyLaws string := String.eqb_spec.

#[export] Instance MapKeyLaws_ActivityCategory : MapKeyLaws ActivityCategory.
Proof. intros a b; destruct a, b; constructor; congruence. Qed.

Lemma len_cons {A : Type} (x : A) (l : list A) : len (x :: l) = (len l + 1)%N.
Proof. unfold len. simpl List.length. lia. Qed.

Lemma len_app {A : Type} (l l' : list A) : len (l ++ l') = (len l + len l')%N.
Proof. unfold len. rewrite length_app. lia. Qed.

Lemma len_zero {A : Type} (l : list A) : len l = 0%N -> l = [].
Proof. destruct l; [reflexivity|]. rewrite len_cons. lia. Qed.

Lemma or_one_max (n : N) : or_one n = N.max n 1.
Proof. unfold or_one. destruct (N.eqb_spec n 0); lia. Qed.

Section MapFacts.
Context {K : Type} `{MapKeyLaws K}.

Lemma key_eqb_refl (k : K) : key_eqb k k = true.
Proof. destruct (key_eqb_spec k k); congruence. Qed.

Lemma key_eqb_neq (a b : K) : a <> b -> key_eqb a b = false.
Proof. destruct (key_eqb_spec a b); congruence. Qed.

Lemma mem_In (k : K) (l : list K) : mem k l = true <-> In k l.
Proof.
  unfold mem. rewrite existsb_exists. split.
  - intros (x & Hx & E). destruct (key_eqb_spec k x); congruence.
  - intros Hk. exists k. split; [assumption|apply key_eqb_refl].
Qed.

Lemma mem_false (k : K) (l : list K) : mem k l = false <-> ~ In k l.
Proof.
  rewrite <- mem_In. destruct (mem k l); split; congruence.
Qed.

Lemma get_or_zero_set (m : JsMap K) (k k' : K) (v : N) :
  get_or_zero (map_set m k v) k'
  = if key_eqb k k' then v else get_or_zero m k'.
Proof.
  unfold get_or_zero.
  induction m as [|[k0 v0] m IH]; simpl.
  - destruct (key_eqb k k'); reflexivity.
  - destruct (key_eqb_spec k0 k) as [->|Hne]; simpl.
    + destruct (key_eqb k k'); reflexivity.
    + destruct (key_eqb_spec k0 k') as [->|Hne'].
      * now rewrite key_eqb_neq by congruence.
      * exact IH.
Qed.

Lemma keys_set (m : JsMap K) (k : K) (v : N) :
  keys (map_set m k v) = if mem k (keys m) then keys m else keys m ++ [k].
Proof.
  unfold keys, mem. induction m as [|[k0 v0] m IH]; simpl; [reflexivity|].
  destruct (key_eqb_spec k0 k) as [->|Hne]; simpl.
  - now rewrite key_eqb_refl.
  - rewrite key_eqb_neq by congruence. simpl. rewrite IH.
    now destruct (existsb (key_eqb k) (List.map fst m)).
Qed.

Lemma values_set (m : JsMap K) (k : K) (v : N) :
  (sumN (map_values (map_set m k v)) + get_or_zero m k
   = sumN (map_values m) + v)%N.
Proof.
  unfold map_values, get_or_zero.
  induction m as [|[k0 v0] m IH]; simpl; [lia|].
  destruct (key_eqb_spec k0 k) as [->|Hne]; simpl; lia.
Qed.

Lemma count_of_cons (k x : K) (l : list K) :
  count_of k (x :: l)
  = ((if key_eqb x k then 1 else 0) + count_of k l)%N.
Proof.
  unfold count_of. simpl. destruct (key_eqb x k); [rewrite len_cons|]; lia.
Qed.

Lemma get_or_zero_fold (l : list K) (m : JsMap K) (k : K) :
  get_or_zero (fold_left increment l m) k
  = (get_or_zero m k + count_of k l)%N.
Proof.
  revert m. induction l as [|x l IH]; intros m; simpl.
  - unfold count_of, len. simpl. lia.
  - rewrite IH, count_of_cons. unfold increment. rewrite get_or_zero_set.
    destruct (key_eqb_spec x k) as [->|Hne]; lia.
Qed.

Lemma values_fold (l : list K) (m : JsMap K) :
  sumN (map_values (fold_left increment l m))
  = (sumN (map_values m) + len l)%N.
Proof.
  revert m. induction l as [|x l IH]; intros m; simpl.
  - unfold len. simpl. lia.
  - rewrite IH, len_cons. unfold increment.
    pose proof (values_set m x (get_or_zero m x + 1)). lia.
Qed.

Lemma filter_filter {A : Type} (f g : A -> bool) (l : list A) :
  filter f (filter g l) = filter (fun x => g x && f x) l.
Proof.
  induction l as [|x l IH]; simpl; [reflexivity|].
  destruct (g x); simpl; [destruct (f x)|]; now rewrite IH.
Qed.

Lemma keys_fold (l : list K) (m : JsMap K) :
  keys (fold_left increment l m)
  = keys m ++ filter (fun y => negb (mem y (keys m))) (first_seen l).
Proof.
  revert m. induction l as [|x l IH]; intros m; simpl.
  - now rewrite app_nil_r.
  - rewrite IH. unfold increment at 1 2. rewrite keys_set.
    rewrite filter_filter.
    destruct (mem x (keys m)) eqn:E; simpl.
    + f_equal. apply filter_ext. intros y.
      destruct (key_eqb_spec x y) as [<-|Hne]; simpl; [now rewrite E|reflexivity].
    + rewrite <- app_assoc. simpl. do 2 f_equal.
      apply filter_ext. intros y. unfold mem.
      rewrite existsb_app. simpl. rewrite orb_false_r, negb_orb.
      destruct (key_eqb_spec x y) as [<-|Hne].
      * rewrite key_eqb_refl. simpl. now rewrite andb_false_r.
      * rewrite (key_eqb_neq y x) by congruence. simpl.
        now rewrite andb_true_r.
Qed.

Lemma In_first_seen (k : K) (l : list K) : In k (first_seen l) <-> In k l.
Proof.
  induction l as [|x l IH]; simpl; [tauto|].
  rewrite filter_In, IH.
  destruct (key_eqb_spec x k) as [->|Hne]; simpl; [tauto|].
  intuition congruence.
Qed.

Lemma NoDup_first_seen (l : list K) : NoDup (first_seen l).
Proof.
  induction l as [|x l IH]; simpl; constructor.
  - rewrite filter_In, key_eqb_refl. simpl. intuition discriminate.
  - now apply NoDup_filter.
Qed.

Lemma entries_by_keys (m : JsMap K) :
  NoDup (keys m) ->
  map_entries m = List.map (fun k => (k, get_or_zero m k)) (keys m).
Proof.
  unfold map_entries, keys, get_or_zero.
  induction m as [|[k v] m IH]; simpl; intros Hnd; [reflexivity|].
  inversion Hnd as [|? ? Hk Hnd']; subst.
  rewrite key_eqb_refl. f_equal.
  rewrite IH at 1 by assumption.
  apply map_ext_in. intros k' Hk'.
  rewrite key_eqb_neq; [reflexivity|]. intros ->. contradiction.
Qed.

(** Counting the elements of a list in a fresh [Map] lists every distinct
    element once, in the order of first occurrence, with its number of
    occurrences. *)
Lemma counted_entries (l : list K) :
  map_entries (fold_left increment l new_Map)
  = List.map (fun k => (k, count_of k l)) (first_seen l).
Proof.
  assert (Hk : keys (fold_left increment l new_Map) = first_seen l).
  { rewrite keys_fold. simpl.
    induction (first_seen l) as [|x s IH]; simpl; congruence. }
  rewrite entries_by_keys by (rewrite Hk; apply NoDup_first_seen).
  rewrite Hk. apply map_ext. intros k. now rewrite get_or_zero_fold.
Qed.

Lemma first_seen_first_index (l : list K) :
  StronglySorted (fun a b => (first_index a l < first_index b l)%nat)
                 (first_seen l).
Proof.
  induction l as [|x l IH]; simpl; constructor.
  - eapply StronglySorted_weaken;
      [|apply StronglySorted_filter; exact IH].
    intros a b Ha Hb Hab. simpl.
    apply filter_In in Ha as [_ Ha]. apply filter_In in Hb as [_ Hb].
    simpl in Hab.
    destruct (key_eqb x a), (key_eqb x b); try discriminate. lia.
  - apply Forall_forall. intros y Hy. apply filter_In in Hy as [_ Hy].
    rewrite key_eqb_refl.
    destruct (key_eqb x y); [discriminate|lia].
Qed.

Lemma count_of_pos (k : K) (l : list K) : In k l <-> (0 < count_of k l)%N.
Proof.
  induction l as [|x l IH]; simpl.
  - unfold count_of, len. simpl. split; [tauto|lia].
  - rewrite count_of_cons.
    destruct (key_eqb_spec x k) as [->|Hne]; [intuition lia|].
    rewrite N.add_0_l, <- IH. intuition congruence.
Qed.

(** A guarded [forEach] over each post's tags counts the tags of all the
    posts in turn. *)
Lemma nested_fold (ls : list (list K)) (m : JsMap K) :
  fold_left
    (fun m tags => if (0 <? len tags)%N then fold_left increment tags m else m)
    ls m
  = fold_left increment (List.concat ls) m.
Proof.
  revert m. induction ls as [|tags ls IH]; intros m; simpl; [reflexivity|].
  rewrite fold_left_app, IH.
  destruct tags as [|t tags]; [reflexivity|].
  rewrite len_cons.
  replace (0 <? len tags + 1)%N with true
    by (symmetry; apply N.ltb_lt; lia).
  reflexivity.
Qed.
End MapFacts.

Lemma reduce_add (init : N) (l : list N) :
  reduce (fun a b => (a + b)%N) init l = (init + sumN l)%N.
Proof.
  unfold reduce. revert init. induction l as [|x l IH]; intros init; simpl.
  - lia.
  - rewrite IH. lia.
Qed.

Lemma reduce_len {A B : Type} (f : A -> list B) (l : list A) :
  reduce (fun acc p => (acc + len (f p))%N) 0%N l
  = sumN (List.map (fun p => len (f p)) l).
Proof.
  unfold reduce.
  assert (G : forall init,
            fold_left (fun acc p => (acc + len (f p))%N) l init
            = (init + sumN (List.map (fun p => len (f p)) l))%N).
  { induction l as [|x l IH]; intros init; simpl; [lia|]. rewrite IH. lia. }
  rewrite G. lia.
Qed.

(* ================================================================== *)
(** * Facts about the engine *)
(* ================================================================== *)

(** ** Category and hashtag statistics *)

Lemma categoryStatsOf_sorted_entries (cats : list ActivityCategory) :
  categoryStatsOf cats
  = sort (by_count_desc count)
         (List.map (category_entry cats) (first_seen cats)).
Proof.
  unfold categoryStatsOf. rewrite counted_entries, map_map. reflexivity.
Qed.

Lemma categoryStatsOf_is_ranking (cats : list ActivityCategory) :
  is_ranking cats (categoryStatsOf cats).
Proof.
  rewrite categoryStatsOf_sorted_entries.
  set (entries := List.map (category_entry cats) (first_seen cats)).
  assert (Hperm : Permutation (sort (by_count_desc count) entries) entries)
    by apply sort_perm.
  assert (Hcat : List.map category entries = first_seen cats).
  { subst entries. rewrite map_map. simpl. apply map_id. }
  assert (Hpc : Permutation
                  (List.map category (sort (by_count_desc count) entries))
                  (first_seen cats)).
  { rewrite <- Hcat. now apply Permutation_map. }
  repeat split.
  - eapply Permutation_NoDup; [symmetry; exact Hpc|apply NoDup_first_seen].
  - intros Hc. apply In_first_seen. eapply Permutation_in; eauto.
  - intros Hc. apply In_first_seen in Hc.
    eapply Permutation_in; [symmetry; exact Hpc|assumption].
  - apply (Permutation_in _ Hperm) in H.
    apply in_map_iff in H as (c & <- & _). reflexivity.
  - apply (Permutation_in _ Hperm) in H.
    apply in_map_iff in H as (c & <- & _). simpl. now rewrite or_one_max.
  - apply (sort_by_count count
             (fun a b => (first_index (category a) cats
                          < first_index (category b) cats)%nat)).
    apply StronglySorted_map with (R := fun a b =>
      (first_index (category a) cats < first_index (category b) cats)%nat).
    simpl. apply first_seen_first_index.
Qed.

Lemma is_ranking_nil (l : list CategoryStats) : is_ranking [] l -> l = [].
Proof.
  intros (_ & Hin & _). destruct l as [|st l]; [reflexivity|].
  exfalso. apply (Hin (category st)). now left.
Qed.

Lemma hashtagStatsOf_sorted_entries (hashtags : list (list string)) :
  let tags := List.concat hashtags in
  hashtagStatsOf hashtags
  = slice0 10
      (sort (by_count_desc hcount)
         (List.map (fun t => {| hashtag := t;
                                hcount := count_of t tags;
                                hpercentage :=
                                  percent (count_of t tags) (len tags + 1) |})
                   (first_seen tags))).
Proof.
  intros tags. unfold hashtagStatsOf.
  rewrite nested_fold, reduce_add, values_fold, counted_entries, map_map.
  fold tags. simpl sumN. rewrite N.add_0_l, N.add_comm. reflexivity.
Qed.

(** ** The loop of [getLocationStats] *)

Lemma getCategoryStatsForLocation_run (cats : list ActivityCategory) :
  getCategoryStatsForLocation cats = ret (slice0 5 (categoryStatsOf cats)).
Proof. reflexivity. Qed.

Lemma locationStatsOf_run (node : LocationWithPosts) (env : Env)
    (this : AnalyticsEngine) :
  locationStatsOf node env this = (Ok (node_stats node), this).
Proof.
  unfold locationStatsOf, node_stats, bind, ret. simpl.
  now rewrite !reduce_len.
Qed.

Lemma for_of_run (nodes : list LocationWithPosts) (env : Env)
    (this : AnalyticsEngine) :
  for_of locationStatsOf nodes env this = (Ok (List.map node_stats nodes), this).
Proof.
  induction nodes as [|n nodes IH]; simpl; [reflexivity|].
  unfold bind. now rewrite locationStatsOf_run, IH.
Qed.

(** ** Sorting by score *)

Lemma sort_by_score (l : list LocationStats) :
  Forall (fun st => signed false (engagementScore st)) l ->
  StronglySorted
    (fun a b => number_le (engagementScore b) (engagementScore a))
    (sort by_score_desc l).
Proof.
  intros Hl.
  set (P := fun st => signed false (engagementScore st)) in *.
  assert (Hs : Forall P (sort by_score_desc l)).
  { eapply Permutation_Forall; [symmetry; apply sort_perm|assumption]. }
  rewrite Forall_forall in Hs.
  apply StronglySorted_weaken
    with (R := precedes by_score_desc (fun _ _ => True)).
  - intros a b Ha Hb Hp.
    assert (Hne : by_score_desc a b <> Gt) by (destruct Hp as [H|[H _]]; congruence).
    destruct (fsub_sign (engagementScore a) (engagementScore b)
                (Hs a Ha) (Hs b Hb)) as [Hgt _].
    unfold by_score_desc in Hne. rewrite Hgt in Hne.
    unfold number_le in *. lia.
  - apply sort_ordered with (P := P).
    + intros a b Pa Pb H.
      destruct (fsub_sign (engagementScore a) (engagementScore b) Pa Pb)
        as [Hgt _].
      destruct (fsub_sign (engagementScore b) (engagementScore a) Pb Pa)
        as [_ Hlt].
      unfold by_score_desc in *. apply Hlt. now apply Hgt.
    + intros a b c Pa Pb Pc H1 H2.
      destruct (fsub_sign (engagementScore a) (engagementScore b) Pa Pb)
        as [Hab _].
      destruct (fsub_sign (engagementScore b) (engagementScore c) Pb Pc)
        as [Hbc _].
      destruct (fsub_sign (engagementScore a) (engagementScore c) Pa Pc)
        as [Hac _].
      unfold by_score_desc in *. rewrite Hab in H1. rewrite Hbc in H2.
      rewrite Hac. unfold number_le in *. lia.
    + assumption.
    + clear. induction l; constructor; auto. apply Forall_forall. auto.
Qed.

(** ** The summary over a database *)

Lemma generateSummary_env_of (db : Database) (t startDate endDate : Date)
    (this : AnalyticsEngine) :
  generateSummary startDate endDate (env_of db t) this
  = (Ok (summary_on db startDate endDate t),
     {| prisma := prisma this; lastUpdated := Some t |}).
Proof.
  unfold generateSummary, getCategoryStats, getHashtagStats, getLocationStats,
    bind, ret, await_prisma, new_Date, set_lastUpdated.
  simpl. rewrite !for_of_run. reflexivity.
Qed.

Lemma in_window_inverted (startDate endDate d : Date) :
  endDate < startDate -> in_window (window startDate endDate) d = false.
Proof.
  intros H. unfold in_window, window. simpl.
  destruct (Z.leb_spec startDate d), (Z.leb_spec d endDate); simpl; lia.
Qed.

Lemma filter_none {A : Type} (f : A -> bool) (l : list A) :
  (forall x, f x = false) -> filter f l = [].
Proof.
  intros Hf. induction l as [|x l IH]; simpl; [reflexivity|].
  now rewrite Hf.
Qed.

Lemma level_nodes_In (db : Database) (fk : Post -> Id) (w : DateFilter)
    (nodes : list Location) (st : LocationStats) :
  In st (sort by_score_desc (level_nodes db fk w nodes)) <->
  exists l, In l nodes /\ st = node_stats (include_posts db fk w l).
Proof.
  rewrite sort_In. unfold level_nodes. rewrite map_map, in_map_iff.
  split; intros (l & H1 & H2); exists l; auto.
Qed.

Lemma posts_of_in_window (db : Database) (fk : Post -> Id) (w : DateFilter)
    (l : Location) :
  (len (posts_of db fk w l) <= len (posts_in_window db w))%N.
Proof.
  unfold posts_of, posts_in_window, len.
  induction (db_posts db) as [|p ps IH]; simpl; [lia|].
  destruct (in_window w (post_createdAt p)); rewrite ?andb_true_r, ?andb_false_r;
    [destruct (String.eqb _ _)|]; simpl List.length; lia.
Qed.

(** ** Outcome of [generateSummary] over any store *)

Ltac run_reads :=
  unfold generateSummary, getCategoryStats, getHashtagStats, getLocationStats,
    bind, ret, await_prisma, new_Date, set_lastUpdated;
  cbn [fst snd prisma];
  repeat match goal with
         | H : ?q = _ |- context [?q] => rewrite H
         | |- context [match ?q ?r ?w with Ok _ => _ | Err _ => _ end] =>
             let E := fresh "E" in
             destruct (q r w) eqn:E;
             cbn [fst snd prisma result_map]; rewrite ?for_of_run
         end.

Lemma generateSummary_outcome (env : Env) (this : AnalyticsEngine)
    (startDate endDate : Date) :
  let outcomes :=
    read_outcomes (reads env (prisma this)) (window startDate endDate) in
  match generateSummary startDate endDate env this with
  | (Ok sm, this') =>
      forallb is_ok outcomes = true
      /\ this' = {| prisma := prisma this; lastUpdated := Some (now env) |}
      /\ summaryUpdated sm = now env
  | (Err er, this') =>
      forallb is_ok outcomes = false
      /\ In (Err er) outcomes
      /\ this' = this
  end.
Proof.
  unfold read_outcomes, window. run_reads; cbn; auto 12.
Qed.

Lemma generateSummary_is_ok (env : Env) (this : AnalyticsEngine)
    (startDate endDate : Date) :
  is_ok (fst (generateSummary startDate endDate env this))
  = forallb is_ok
      (read_outcomes (reads env (prisma this)) (window startDate endDate)).
Proof.
  pose proof (generateSummary_outcome env this startDate endDate) as H.
  destruct (generateSummary startDate endDate env this) as [[sm|er] this'];
    simpl in *; symmetry; apply H.
Qed.

Lemma generateSummary_prisma (env : Env) (this : AnalyticsEngine)
    (startDate endDate : Date) :
  prisma (snd (generateSummary startDate endDate env this)) = prisma this.
Proof.
  pose proof (generateSummary_outcome env this startDate endDate) as H.
  destruct (generateSummary startDate endDate env this) as [[sm|er] this'];
    simpl in *.
  - destruct H as (_ & -> & _). reflexivity.
  - destruct H as (_ & _ & ->). reflexivity.
Qed.

Lemma generateSummary_lastUpdated (env : Env) (this : AnalyticsEngine)
    (startDate endDate : Date) :
  lastUpdated (snd (generateSummary startDate endDate env this))
  = if is_ok (fst (generateSummary startDate endDate env this))
    then Some (now env) else lastUpdated this.
Proof.
  pose proof (generateSummary_outcome env this startDate endDate) as H.
  destruct (generateSummary startDate endDate env this) as [[sm|er] this'];
    simpl in *.
  - destruct H as (_ & -> & _). reflexivity.
  - destruct H as (_ & _ & ->). reflexivity.
Qed.

(** The summary, timestamp apart, depends on the answers of the store
    only. *)
Lemma generateSummary_reads (env1 env2 : Env) (this1 this2 : AnalyticsEngine)
    (startDate endDate : Date) :
  reads env1 (prisma this1) = reads env2 (prisma this2) ->
  result_map without_lastUpdated
    (fst (generateSummary startDate endDate env1 this1))
  = result_map without_lastUpdated
      (fst (generateSummary startDate endDate env2 this2)).
Proof.
  intros Hr.
  unfold generateSummary, getCategoryStats, getHashtagStats, getLocationStats,
    bind, ret, await_prisma, new_Date, set_lastUpdated.
  cbn [fst snd prisma]. rewrite Hr.
  run_reads; reflexivity.
Qed.

(** ** Runs of calls *)

Lemma run_calls_prisma (calls : list Call) (this : AnalyticsEngine) :
  prisma (run_calls calls this) = prisma this.
Proof.
  unfold run_calls. revert this.
  induction calls as [|c calls IH]; intros this; simpl; [reflexivity|].
  rewrite IH. apply generateSummary_prisma.
Qed.

Lemma run_calls_lastUpdated (calls : list Call) (this : AnalyticsEngine) :
  lastUpdated (run_calls calls this) = last_success calls this.
Proof.
  unfold run_calls, last_success.
  assert (G : forall calls this0 this,
            prisma this0 = prisma this ->
            lastUpdated (fold_left (fun e c => snd (run_call e c)) calls this)
            = fold_left
                (fun acc c =>
                   if is_ok (fst (run_call this0 c))
                   then Some (now (call_env c)) else acc)
                calls (lastUpdated this)).
  { clear. induction calls as [|c cs IH]; intros this0 this E; simpl;
      [reflexivity|].
    rewrite (IH this0) by (unfold run_call; now rewrite generateSummary_prisma).
    f_equal. unfold run_call.
    rewrite generateSummary_lastUpdated, !generateSummary_is_ok, E.
    reflexivity. }
  now apply G.
Qed.

(** ** The singleton *)

Lemma getInstance_calls_set (clients : list PrismaClient) (p : Process)
    (a : nat) :
  instance p = Some a ->
  getInstance_calls clients p = (repeat a (List.length clients), p).
Proof.
  intros Hp. induction clients as [|c clients IH]; simpl; [reflexivity|].
  unfold getInstance. rewrite Hp, IH. reflexivity.
Qed.

Lemma heap_set_same (a : nat) (this : AnalyticsEngine)
    (h : list AnalyticsEngine) :
  (a < List.length h)%nat -> nth_error (heap_set a this h) a = Some this.
Proof.
  revert a. induction h as [|x h IH]; intros [|a] Ha; simpl in *; try lia.
  - reflexivity.
  - apply IH. lia.
Qed.

Lemma heap_set_other (a b : nat) (this : AnalyticsEngine)
    (h : list AnalyticsEngine) :
  a <> b -> nth_error (heap_set a this h) b = nth_error h b.
Proof.
  revert a b. induction h as [|x h IH]; intros [|a] [|b] Hab; simpl;
    try reflexivity; try lia.
  apply IH. lia.
Qed.

(** Once the instance exists, no operation replaces it or changes the
    client it holds. *)
Lemma run_ops_instance (ops : list Op) (p : Process) (a : nat)
    (this : AnalyticsEngine) :
  instance p = Some a ->
  nth_error (heap p) a = Some this ->
  let '(refs, p') := run_ops ops p in
  (forall r, In (Some r) refs -> r = a)
  /\ instance p' = Some a
  /\ exists this', nth_error (heap p') a = Some this'
                   /\ prisma this' = prisma this.
Proof.
  revert p this. induction ops as [|op ops IH]; intros p this Hi Ha; simpl.
  - split; [intros r []|]. split; [assumption|]. now exists this.
  - destruct op as [client|b env s e]; simpl.
    + unfold getInstance. rewrite Hi.
      specialize (IH p this Hi Ha).
      destruct (run_ops ops p) as [refs p'].
      destruct IH as (Hr & Hi' & Hh). split; [|auto].
      intros r [E|Hin]; [congruence|auto].
    + destruct (nth_error (heap p) b) as [that|] eqn:Hb.
      * destruct (Nat.eq_dec b a) as [->|Hne].
        -- assert (that = this) by congruence. subst that.
           set (this1 := snd (generateSummary s e env this)).
           specialize (IH {| heap := heap_set a this1 (heap p);
                             instance := instance p |} this1 Hi).
           cbn [heap] in IH.
           rewrite heap_set_same in IH
             by (apply nth_error_Some; congruence).
           specialize (IH eq_refl).
           destruct (run_ops ops _) as [refs p'].
           destruct IH as (Hr & Hi' & this' & Hh & Hp).
           split; [intros r [E|Hin]; [discriminate|auto]|].
           split; [assumption|]. exists this'. split; [assumption|].
           rewrite Hp. apply generateSummary_prisma.
        -- specialize (IH {| heap := heap_set b
                                       (snd (generateSummary s e env that))
                                       (heap p);
                             instance := instance p |} this Hi).
           cbn [heap] in IH. rewrite heap_set_other in IH by assumption.
           specialize (IH Ha).
           destruct (run_ops ops _) as [refs p'].
           destruct IH as (Hr & Hi' & Hh).
           split; [intros r [E|Hin]; [discriminate|auto]|]. auto.
      * specialize (IH p this Hi Ha).
        destruct (run_ops ops p) as [refs p'].
        destruct IH as (Hr & Hi' & Hh).
        split; [intros r [E|Hin]; [discriminate|auto]|]. auto.
Qed.

(* ================================================================== *)
(** * Further facts about the engine *)
(* ================================================================== *)

Lemma sumN_app (l l' : list N) : sumN (l ++ l') = (sumN l + sumN l')%N.
Proof. induction l as [|x l IH]; simpl; lia. Qed.

Lemma sumN_perm (l l' : list N) : Permutation l l' -> sumN l = sumN l'.
Proof. induction 1; simpl; lia. Qed.

Lemma sumN_firstn (n : nat) (l : list N) : (sumN (firstn n l) <= sumN l)%N.
Proof.
  rewrite <- (firstn_skipn n l) at 2. rewrite sumN_app. lia.
Qed.

(** The counts of a ranking add up to the number of elements ranked. *)
Lemma categoryStatsOf_counts (cats : list ActivityCategory) :
  sumN (List.map count (categoryStatsOf cats)) = len cats.
Proof.
  unfold categoryStatsOf.
  rewrite (sumN_perm _ _ (Permutation_map count (sort_perm _ _))).
  rewrite map_map.
  rewrite (map_ext _ snd) by (intros [c n]; reflexivity).
  change (List.map snd (map_entries ?m)) with (map_values m).
  rewrite values_fold. reflexivity.
Qed.

Lemma StronglySorted_app_inv {A : Type} (R : A -> A -> Prop)
    (l1 l2 : list A) :
  StronglySorted R (l1 ++ l2) ->
  forall a b, In a l1 -> In b l2 -> R a b.
Proof.
  induction l1 as [|x l1 IH]; simpl; intros Hs a b Ha Hb; [contradiction|].
  inversion Hs as [|? ? Hs' Hx]; subst.
  destruct Ha as [<-|Ha].
  - rewrite Forall_forall in Hx. apply Hx, in_or_app. now right.
  - now apply IH.
Qed.

(** ** Dividing a number by itself *)

Lemma fdiv_self (m : positive) (e : Z) :
  fdiv (S754_finite false m e) (S754_finite false m e) = of_N 1.
Proof.
  unfold fdiv, SFdiv, SFdiv_core_binary. cbn [xorb].
  rewrite !Z.sub_diag.
  change (IntDef.Z.min (SpecFloat.fexp prec emax 0) 0) with (-53).
  change (0 - -53) with 53.
  cbv iota beta.
  assert (E : Z.div_eucl (Z.shiftl (Zpos m) 53) (Zpos m) = (2 ^ 53, 0)).
  { pose proof (Z.div_mul (2 ^ 53) (Zpos m)) as Hq.
    pose proof (Z.mod_mul (2 ^ 53) (Zpos m)) as Hr.
    rewrite Z.shiftl_mul_pow2, Z.mul_comm by lia.
    unfold Z.div, Z.modulo in Hq, Hr.
    destruct (Z.div_eucl (2 ^ 53 * Zpos m) (Zpos m)) as [q r].
    rewrite Hq, Hr by lia. reflexivity. }
  change (IntDef.Z.shiftl (Zpos m) 53) with (Z.shiftl (Zpos m) 53).
  rewrite E.
  assert (L : new_location (Zpos m) 0 = loc_Exact).
  { unfold new_location, new_location_even, new_location_odd.
    destruct (Z.even (Zpos m)); reflexivity. }
  rewrite L. vm_compute. reflexivity.
Qed.

(** ** Posts of the nodes of a level *)

Lemma sumN_map_add {A : Type} (f g : A -> N) (l : list A) :
  sumN (List.map (fun x => (f x + g x)%N) l)
  = (sumN (List.map f l) + sumN (List.map g l))%N.
Proof. induction l as [|x l IH]; simpl; lia. Qed.

(** How many nodes of the level a post in the window is counted under. *)
Lemma level_posts_sum (fk : Post -> Id) (w : DateFilter)
    (nodes : list Location) (ps : list Post) :
  sumN (List.map
          (fun l => len (filter (fun p => String.eqb (fk p) (location_id l)
                                          && in_window w (post_createdAt p))
                                ps))
          nodes)
  = sumN (List.map
            (fun p => len (filter (fun l => String.eqb (fk p) (location_id l))
                                  nodes))
            (filter (fun p => in_window w (post_createdAt p)) ps)).
Proof.
  induction ps as [|p ps IH]; simpl.
  - induction nodes as [|l nodes IHn]; simpl; [reflexivity|].
    rewrite IHn. reflexivity.
  - rewrite (map_ext _
      (fun l =>
         ((if String.eqb (fk p) (location_id l)
              && in_window w (post_createdAt p) then 1 else 0)
          + len (filter (fun p0 => String.eqb (fk p0) (location_id l)
                                   && in_window w (post_createdAt p0)) ps))%N)).
    2:{ intros l. destruct (_ && _); [rewrite len_cons|]; lia. }
    rewrite sumN_map_add, IH.
    destruct (in_window w (post_createdAt p)); simpl.
    + f_equal. clear. induction nodes as [|l nodes IHn]; simpl; [reflexivity|].
      rewrite andb_true_r.
      destruct (String.eqb (fk p) (location_id l));
        [rewrite len_cons|]; rewrite IHn; lia.
    + replace (sumN _) with 0%N; [lia|].
      clear. induction nodes as [|l nodes IHn]; simpl; [reflexivity|].
      rewrite andb_false_r. rewrite <- IHn. reflexivity.
Qed.

Lemma count_id_NoDup (i : Id) (nodes : list Location) :
  NoDup (List.map location_id nodes) ->
  len (filter (fun l => String.eqb i (location_id l)) nodes)
  = if mem i (List.map location_id nodes) then 1%N else 0%N.
Proof.
  induction nodes as [|l nodes IH]; simpl; intros Hnd; [reflexivity|].
  inversion Hnd as [|? ? Hnot Hnd']; subst.
  unfold mem in *. simpl. unfold key_eqb, MapKey_string.
  destruct (String.eqb_spec i (location_id l)) as [->|Hne]; simpl.
  - rewrite len_cons, IH by assumption.
    apply (mem_false (location_id l)) in Hnot. unfold mem in Hnot.
    rewrite Hnot. reflexivity.
  - now apply IH.
Qed.

Lemma sumN_le_len {A : Type} (f : A -> N) (l : list A) :
  (forall x, In x l -> (f x <= 1)%N) ->
  (sumN (List.map f l) <= len l)%N.
Proof.
  induction l as [|x l IH]; intros Hf; simpl; [unfold len; simpl; lia|].
  rewrite len_cons. specialize (Hf x (or_introl eq_refl)) as Hx.
  assert (sumN (List.map f l) <= len l)%N by (apply IH; intros; apply Hf; now right).
  lia.
Qed.

Lemma sumN_eq_len {A : Type} (f : A -> N) (l : list A) :
  (forall x, In x l -> f x = 1%N) ->
  sumN (List.map f l) = len l.
Proof.
  induction l as [|x l IH]; intros Hf; simpl; [reflexivity|].
  rewrite len_cons, (Hf x (or_introl eq_refl)), IH by (intros; apply Hf; now right).
  lia.
Qed.

Lemma level_posts_total (db : Database) (fk : Post -> Id) (w : DateFilter)
    (nodes : list Location) :
  NoDup (List.map location_id nodes) ->
  (sumN (List.map totalPosts
           (sort by_score_desc (level_nodes db fk w nodes)))
   <= len (posts_in_window db w))%N
  /\ (posts_located db fk w nodes ->
      sumN (List.map totalPosts
              (sort by_score_desc (level_nodes db fk w nodes)))
      = len (posts_in_window db w)).
Proof.
  intros Hnd.
  rewrite (sumN_perm _ _ (Permutation_map totalPosts (sort_perm _ _))).
  unfold level_nodes. rewrite !map_map.
  rewrite (map_ext _ (fun l => len (posts_of db fk w l))).
  2:{ intros l. cbn [totalPosts node_stats].
      unfold include_posts, len. cbn [posts]. now rewrite length_map. }
  unfold posts_of. rewrite level_posts_sum. fold (posts_in_window db w).
  split.
  - apply sumN_le_len. intros p _. rewrite count_id_NoDup by assumption.
    destruct (mem _ _); lia.
  - intros Hloc. apply sumN_eq_len. intros p Hp.
    rewrite count_id_NoDup by assumption.
    specialize (Hloc p Hp). apply mem_In in Hloc. now rewrite Hloc.
Qed.

(* ================================================================== *)
(** * Facts about strings *)
(* ================================================================== *)

Lemma falsy_true (s : string) : falsy s = true <-> s = EmptyString.
Proof. unfold falsy. apply String.eqb_eq. Qed.

Lemma falsy_false (s : string) : falsy s = false <-> s <> EmptyString.
Proof. unfold falsy. apply String.eqb_neq. Qed.

Lemma length_zero_empty (s : string) :
  (String.length s =? 0)%nat = falsy s.
Proof. destruct s; reflexivity. Qed.

Lemma trimStart_head (s : string) :
  trimStart s = EmptyString
  \/ exists c s', trimStart s = String c s' /\ isWhiteSpace c = false.
Proof.
  induction s as [|c s IH]; simpl; [now left|].
  destruct (isWhiteSpace c) eqn:E; [exact IH|]. right. eauto.
Qed.

Lemma trimEnd_cons (c : ascii) (s : string) :
  isWhiteSpace c = false -> trimEnd (String c s) = String c (trimEnd s).
Proof.
  intros E. simpl. destruct (trimEnd s); [now rewrite E|reflexivity].
Qed.

Lemma trimEnd_idem (s : string) : trimEnd (trimEnd s) = trimEnd s.
Proof.
  induction s as [|c s IH]; simpl; [reflexivity|].
  destruct (trimEnd s) as [|d t] eqn:E.
  - destruct (isWhiteSpace c) eqn:W; simpl; [reflexivity|]. now rewrite W.
  - change (trimEnd (String c (String d t))) with
      (match trimEnd (String d t) with
       | EmptyString =>
           if isWhiteSpace c then EmptyString else String c EmptyString
       | u => String c u
       end).
    rewrite IH. reflexivity.
Qed.

Lemma trim_head (s : string) :
  trim s = EmptyString
  \/ exists c s', trim s = String c s' /\ isWhiteSpace c = false.
Proof.
  unfold trim. destruct (trimStart_head s) as [->|(c & s' & -> & W)].
  - now left.
  - right. rewrite trimEnd_cons by assumption. eauto.
Qed.

(** Trimming twice is trimming once. *)
Lemma trim_idem (s : string) : trim (trim s) = trim s.
Proof.
  destruct (trim_head s) as [E|(c & s' & E & W)].
  - rewrite E. reflexivity.
  - unfold trim at 1. rewrite E. simpl trimStart. rewrite W.
    rewrite <- E. unfold trim. apply trimEnd_idem.
Qed.

Lemma trimStart_length (s : string) :
  (String.length (trimStart s) <= String.length s)%nat.
Proof.
  induction s as [|c s IH]; simpl; [lia|].
  destruct (isWhiteSpace c); simpl; lia.
Qed.

Lemma trimEnd_length (s : string) :
  (String.length (trimEnd s) <= String.length s)%nat.
Proof.
  induction s as [|c s IH]; simpl; [lia|].
  destruct (trimEnd s); [destruct (isWhiteSpace c)|]; simpl in *; lia.
Qed.

Lemma trim_length (s : string) :
  (String.length (trim s) <= String.length s)%nat.
Proof.
  unfold trim. pose proof (trimEnd_length (trimStart s)).
  pose proof (trimStart_length s). lia.
Qed.

(* ================================================================== *)
(** * Facts about the builder *)
(* ================================================================== *)

Module PostBuilderFacts.
Import PostBuilder.

Lemma includes_In (l : list string) (s : string) :
  includes l s = true <-> In s l.
Proof.
  unfold includes. rewrite existsb_exists. split.
  - intros (x & Hx & E). apply String.eqb_eq in E. now subst.
  - intros H. exists s. split; [assumption|apply String.eqb_refl].
Qed.

Lemma includes_mem (l : list string) (s : string) : includes l s = mem s l.
Proof. reflexivity. Qed.

Lemma cleanHashtag_startsWith (h : string) :
  startsWith (cleanHashtag h) "#" = true.
Proof.
  unfold cleanHashtag. destruct (startsWith h "#") eqn:E; [exact E|].
  unfold startsWith. simpl. destruct (ascii_dec "#" "#"); [|congruence].
  destruct h; reflexivity.
Qed.

Lemma cleanHashtag_idem (h : string) :
  cleanHashtag (cleanHashtag h) = cleanHashtag h.
Proof.
  unfold cleanHashtag at 1. now rewrite cleanHashtag_startsWith.
Qed.

Lemma hashtags_ok_nil : hashtags_ok [].
Proof. repeat split; simpl; [constructor|lia|constructor]. Qed.

Lemma addHashtag_hashtags_ok (h : string) (b : t) :
  hashtags_ok (hashtags b) -> hashtags_ok (hashtags (snd (addHashtag h b))).
Proof.
  intros (Hnd & Hlen & Hall). unfold addHashtag.
  destruct (includes (hashtags b) (cleanHashtag h)) eqn:Hin;
    [repeat split; assumption|].
  destruct (10 <=? List.length (hashtags b))%nat eqn:Hfull;
    [repeat split; assumption|].
  apply Nat.leb_gt in Hfull. cbn [snd hashtags set_hashtags].
  repeat split.
  - apply NoDup_app; [assumption|repeat constructor; intros []|].
    intros x Hx [<-|[]].
    apply (proj2 (includes_In _ _)) in Hx. congruence.
  - rewrite length_app. simpl. lia.
  - apply Forall_app. split; [assumption|].
    repeat constructor. apply cleanHashtag_startsWith.
Qed.

(** The other fields are left alone by [addHashtag]. *)
Lemma addHashtag_frame (h : string) (b : t) :
  let b' := snd (addHashtag h b) in
  content b' = content b /\ authorId b' = authorId b
  /\ location b' = location b /\ category b' = category b
  /\ status b' = status b /\ images b' = images b
  /\ id b' = id b /\ createdAt b' = createdAt b.
Proof.
  unfold addHashtag.
  destruct (includes _ _); [repeat split|].
  destruct (10 <=? _)%nat; repeat split.
Qed.

Lemma forEach_addHashtag (hs : list string) (b : t) :
  let b' := snd (addHashtags hs b) in
  (hashtags_ok (hashtags b) -> hashtags_ok (hashtags b'))
  /\ content b' = content b /\ authorId b' = authorId b
  /\ location b' = location b /\ category b' = category b
  /\ status b' = status b /\ images b' = images b
  /\ id b' = id b /\ createdAt b' = createdAt b.
Proof.
  unfold addHashtags. revert b.
  induction hs as [|h hs IH]; intros b; simpl.
  - unfold ret. simpl. split; [auto|repeat split].
  - unfold bind.
    pose proof (addHashtag_hashtags_ok h b) as Hok.
    pose proof (addHashtag_frame h b) as Hfr.
    destruct (addHashtag h b) as [[[]|e] b1]; cbn [snd] in *.
    + specialize (IH b1). cbn zeta in IH.
      destruct IH as (I0 & I1 & I2 & I3 & I4 & I5 & I6 & I7 & I8).
      destruct Hfr as (F1 & F2 & F3 & F4 & F5 & F6 & F7 & F8).
      split; [auto|]. repeat split; congruence.
    + destruct Hfr as (F1 & F2 & F3 & F4 & F5 & F6 & F7 & F8).
      split; [auto|]. repeat split; assumption.
Qed.

Lemma images_ok_nil : images_ok [].
Proof. split; simpl; [lia|constructor]. Qed.

Lemma forEach_check_urls (imgs : list Image) (b : t) :
  forEach (fun img =>
             if falsy (url img) then throw "All images must have valid URLs"
             else ret tt) imgs b
  = if forallb (fun img => negb (falsy (url img))) imgs
    then (Ok tt, b) else (Err "All images must have valid URLs"%string, b).
Proof.
  induction imgs as [|img imgs IH]; simpl; [reflexivity|].
  unfold bind. destruct (falsy (url img)); simpl; [reflexivity|].
  unfold ret at 1. exact IH.
Qed.

(** [addImages] adds all the images or none. *)
Lemma addImages_outcome (imgs : list Image) (b : t) :
  addImages imgs b
  = if (5 <? List.length (images b) + List.length imgs)%nat then
      (Err "Maximum 5 images allowed per post"%string, b)
    else if forallb (fun img => negb (falsy (url img))) imgs then
      (Ok tt, set_images (images b ++ imgs) b)
    else (Err "All images must have valid URLs"%string, b).
Proof.
  unfold addImages, bind, get, put, throw, ret.
  destruct (5 <? _)%nat; [reflexivity|].
  rewrite forEach_check_urls.
  destruct (forallb _ imgs); reflexivity.
Qed.

Lemma forallb_urls (imgs : list Image) :
  forallb (fun img => negb (falsy (url img))) imgs = true
  <-> Forall (fun img => url img <> ""%string) imgs.
Proof.
  rewrite forallb_forall, Forall_forall.
  split; intros H x Hx; specialize (H x Hx).
  - apply negb_true_iff in H. now apply falsy_false.
  - apply negb_true_iff. now apply falsy_false.
Qed.

Lemma validate_outcome (b : t) : snd (validate b) = b.
Proof.
  unfold validate. destruct (falsy (content b)); [reflexivity|].
  destruct (falsy (authorId b)); [reflexivity|].
  destruct (location b); [|reflexivity].
  destruct (category b); reflexivity.
Qed.

Lemma build_state (now : Date) (b : t) : snd (build now b) = b.
Proof.
  destruct b as [i c a l cat st hs imgs cr].
  unfold build, bind, get, validate, throw, ret, falsy. cbn.
  destruct (String.eqb c ""); [reflexivity|].
  destruct (String.eqb a ""); [reflexivity|].
  destruct l; [|reflexivity].
  destruct cat; reflexivity.
Qed.

Lemma invariant_new (uuid : string) (now : Date) : invariant (new uuid now).
Proof.
  unfold invariant, content_ok, hashtags_ok, images_ok. simpl.
  repeat split; try lia; try constructor. all: try discriminate.
Qed.

Lemma setContent_content_ok (s : string) (b : t) :
  content_ok (content b) -> content_ok (content (snd (setContent s b))).
Proof.
  intros Hok. unfold setContent.
  destruct (falsy s || _); [exact Hok|].
  destruct (5000 <? String.length s)%nat eqn:E; [exact Hok|].
  apply Nat.ltb_ge in E. cbn [snd content]. split; [apply trim_idem|].
  pose proof (trim_length s). lia.
Qed.

Ltac kept :=
  cbn [snd]; unfold invariant;
  cbn [content hashtags images location set_hashtags set_images]; auto.

(** Every call keeps the invariant, whether it returns or throws. *)
Lemma after_invariant (b : t) (c : Call) : invariant b -> invariant (after b c).
Proof.
  intros (Hc & Hh & Hi & Hl).
  destruct c as [i|s|a|c s d|c|s|h|hs|u pi ca|imgs|d|now|uuid now];
    cbn [after].
  - unfold setId. kept.
  - pose proof (setContent_content_ok s b Hc) as Hc'. unfold setContent in *.
    destruct (falsy s || _); [kept|].
    destruct (5000 <? _)%nat; [kept|].
    cbn [snd content] in *. kept.
  - unfold setAuthorId. destruct (falsy a); kept.
  - unfold setLocation.
    destruct (falsy c) eqn:E1; [kept|].
    destruct (falsy s) eqn:E2; [kept|].
    destruct (falsy d) eqn:E3; [kept|].
    cbn [orb]. kept. repeat (split; [assumption|]).
    intros l [= <-].
    apply falsy_false in E1, E2, E3. repeat split; assumption.
  - unfold setCategory. kept.
  - unfold setStatus. kept.
  - pose proof (addHashtag_hashtags_ok h b Hh).
    destruct (addHashtag_frame h b) as (F1 & F2 & F3 & F4 & F5 & F6 & F7 & F8).
    unfold invariant. rewrite F1, F3, F6. auto.
  - destruct (forEach_addHashtag hs b)
      as (I0 & F1 & F2 & F3 & F4 & F5 & F6 & F7 & F8).
    unfold invariant. rewrite F1, F3, F6. auto.
  - unfold addImage. destruct (falsy u) eqn:E; [kept|].
    destruct (5 <=? _)%nat eqn:E5; [kept|].
    apply Nat.leb_gt in E5. apply falsy_false in E.
    kept. repeat (split; [assumption|]). split; [|assumption].
    destruct Hi as [Hlen Hall]. split.
    + rewrite length_app. simpl. lia.
    + apply Forall_app. split; [assumption|]. repeat constructor. exact E.
  - rewrite addImages_outcome.
    destruct (5 <? _)%nat eqn:E5; [kept|].
    destruct (forallb _ imgs) eqn:Eu; [|kept].
    apply Nat.ltb_ge in E5. apply forallb_urls in Eu.
    kept. repeat (split; [assumption|]). split; [|assumption].
    destruct Hi as [Hlen Hall]. split.
    + rewrite length_app. lia.
    + apply Forall_app. split; assumption.
  - unfold setCreatedAt. kept.
  - rewrite build_state. kept.
  - apply invariant_new.
Qed.

Lemma after_all_invariant (calls : list Call) (b : t) :
  invariant b -> invariant (after_all calls b).
Proof.
  unfold after_all. revert b.
  induction calls as [|c calls IH]; intros b Hb; simpl; [assumption|].
  apply IH. now apply after_invariant.
Qed.

(** ** The tags a builder holds after [addHashtags] *)

Lemma filter_all {A : Type} (f : A -> bool) (l : list A) :
  (forall x, In x l -> f x = true) -> filter f l = l.
Proof.
  induction l as [|x l IH]; intros Hf; simpl; [reflexivity|].
  rewrite (Hf x (or_introl eq_refl)), IH; [reflexivity|].
  intros y Hy. apply Hf. now right.
Qed.

Lemma first_seen_app_NoDup (held l : list string) :
  NoDup held ->
  first_seen (held ++ l)
  = held ++ filter (fun y => negb (mem y held)) (first_seen l).
Proof.
  induction held as [|x held IH]; intros Hnd; simpl.
  - symmetry. apply filter_all. reflexivity.
  - inversion Hnd as [|? ? Hx Hnd']; subst.
    rewrite IH by assumption. rewrite filter_app. f_equal. f_equal.
    + apply filter_all. intros y Hy. apply negb_true_iff.
      apply key_eqb_neq. intros ->. contradiction.
    + rewrite filter_filter. apply filter_ext. intros y.
      unfold mem. simpl. unfold key_eqb, MapKey_string.
      rewrite (String.eqb_sym y x), negb_orb. apply andb_comm.
Qed.

Lemma first_seen_NoDup (l : list string) : NoDup l -> first_seen l = l.
Proof.
  intros Hnd. pose proof (first_seen_app_NoDup l [] Hnd) as H.
  rewrite app_nil_r in H. rewrite H. simpl. apply app_nil_r.
Qed.

(** After [addHashtags] the builder holds the first ten distinct tags of
    those it held followed by the cleaned new ones; the call returns when
    there are at most ten of them. *)
Lemma addHashtags_outcome (hs : list string) (b : t) :
  hashtags_ok (hashtags b) ->
  let all := first_seen (hashtags b ++ List.map cleanHashtag hs) in
  hashtags (snd (addHashtags hs b)) = firstn 10 all
  /\ (is_ok (fst (addHashtags hs b)) = true <-> (List.length all <= 10)%nat).
Proof.
  unfold addHashtags. revert b.
  induction hs as [|h hs IH]; intros b Hok; cbn zeta.
  - cbn [forEach List.map]. unfold ret. cbn [fst snd is_ok].
    rewrite app_nil_r.
    destruct Hok as (Hnd & Hlen & _).
    rewrite first_seen_NoDup by assumption.
    split; [symmetry; now apply firstn_all2|]. tauto.
  - pose proof (addHashtag_hashtags_ok h b Hok) as Hok1.
    destruct Hok as (Hnd & Hlen & Hall).
    cbn [forEach]. unfold bind.
    rewrite first_seen_app_NoDup by assumption.
    cbn [List.map first_seen filter].
    unfold addHashtag in Hok1 |- *.
    destruct (includes (hashtags b) (cleanHashtag h)) eqn:Hin.
    + (* already held *)
      cbn [fst snd] in *. specialize (IH b Hok1). cbn zeta in IH.
      rewrite first_seen_app_NoDup in IH by assumption.
      rewrite includes_mem in Hin. rewrite Hin. cbn [negb].
      rewrite filter_filter.
      rewrite (filter_ext _ (fun y => negb (mem y (hashtags b)))); [exact IH|].
      intros y. unfold key_eqb, MapKey_string in *.
      destruct (String.eqb_spec (cleanHashtag h) y) as [E|Hne];
        [rewrite <- E; rewrite Hin|]; reflexivity.
    + rewrite includes_mem in Hin. rewrite ?Hin. cbn [negb].
      destruct (10 <=? List.length (hashtags b))%nat eqn:Hfull.
      * (* the builder is full *)
        apply Nat.leb_le in Hfull. cbn [fst snd is_ok].
        assert (Hten : List.length (hashtags b) = 10%nat) by lia.
        split.
        -- rewrite firstn_app, Hten, Nat.sub_diag, firstn_0, app_nil_r.
           symmetry. apply firstn_all2. lia.
        -- rewrite length_app. cbn [List.length].
           split; [discriminate|lia].
      * apply Nat.leb_gt in Hfull. cbn [fst snd] in *.
        specialize (IH _ Hok1). cbn zeta in IH.
        cbn [hashtags set_hashtags] in IH.
        rewrite first_seen_app_NoDup in IH by (apply Hok1).
        rewrite <- app_assoc in IH. cbn [app] in IH.
        rewrite filter_filter.
        rewrite (filter_ext _
                   (fun y => negb (mem y (hashtags b ++ [cleanHashtag h]))));
          [exact IH|].
        intros y. unfold mem. rewrite existsb_app. cbn [existsb].
        unfold key_eqb, MapKey_string.
        rewrite orb_false_r, negb_orb, (String.eqb_sym y (cleanHashtag h)).
        apply andb_comm.
Qed.

(** What [build] returns when it returns. *)
Lemma build_outcome (now : Date) (b : t) :
  match fst (build now b) with
  | Ok p =>
      content b <> ""%string /\ authorId b <> ""%string
      /\ location b = Some (Post.location p)
      /\ category b = Some (Post.category p)
      /\ Post.id p = id b /\ Post.content p = content b
      /\ Post.authorId p = authorId b /\ Post.status p = status b
      /\ Post.hashtags p = hashtags b /\ Post.images p = images b
      /\ Post.createdAt p = createdAt b /\ Post.updatedAt p = now
  | Err e =>
      (content b = ""%string /\ e = "Post content is required"%string)
      \/ (content b <> ""%string /\ authorId b = ""%string
          /\ e = "Author ID is required"%string)
      \/ (content b <> ""%string /\ authorId b <> ""%string
          /\ location b = None /\ e = "Post location is required"%string)
      \/ (content b <> ""%string /\ authorId b <> ""%string
          /\ location b <> None /\ category b = None
          /\ e = "Post category is required"%string)
  end.
Proof.
  destruct b as [i c a l cat st hs imgs cr].
  unfold build, bind, get, validate, throw, ret, falsy. cbn.
  destruct (String.eqb_spec c "") as [E1|E1]; [simpl; auto|].
  destruct (String.eqb_spec a "") as [E2|E2]; [simpl; auto|].
  destruct l as [l|]; [|simpl; auto 10].
  destruct cat as [cat|]; simpl.
  - repeat split; auto.
  - right. right. right. repeat split; auto. discriminate.
Qed.
End PostBuilderFacts.

(* ================================================================== *)
(** * Facts about the factories and the service *)
(* ================================================================== *)

Module PostServiceFacts.
Import PostBuilder PostBuilderFacts.

Lemma hashtags_ok_first_seen (hs : list string) :
  (List.length (first_seen (List.map cleanHashtag hs)) <= 10)%nat ->
  hashtags_ok (first_seen (List.map cleanHashtag hs)).
Proof.
  intros Hlen. split; [apply NoDup_first_seen|]. split; [assumption|].
  apply Forall_forall. intros x Hx.
  apply (proj1 (In_first_seen _ _)) in Hx.
  apply in_map_iff in Hx as (h & <- & _). apply cleanHashtag_startsWith.
Qed.

(** The optional [addHashtags] of the service, on a builder without
    tags. *)
Lemma optional_hashtags_outcome (hashtags' : option (list string)) (b : t) :
  hashtags b = [] ->
  let hs := match hashtags' with Some l => l | None => [] end in
  let step := match hashtags' with
              | Some l => addHashtags l
              | None => ret tt
              end in
  let all := first_seen (List.map cleanHashtag hs) in
  (is_ok (fst (step b)) = true <-> (List.length all <= 10)%nat)
  /\ (is_ok (fst (step b)) = true ->
      snd (step b) = set_hashtags all b).
Proof.
  intros Hnil. destruct b as [i c a l cat st hs0 imgs cr].
  cbn [hashtags] in Hnil. subst hs0.
  destruct hashtags' as [l'|]; cbn zeta.
  - pose proof (addHashtags_outcome l'
                  {| id := i; content := c; authorId := a; location := l;
                     category := cat; status := st; hashtags := [];
                     images := imgs; createdAt := cr |} hashtags_ok_nil)
      as [Hh Hok].
    pose proof (forEach_addHashtag l'
                  {| id := i; content := c; authorId := a; location := l;
                     category := cat; status := st; hashtags := [];
                     images := imgs; createdAt := cr |})
      as (_ & F1 & F2 & F3 & F4 & F5 & F6 & F7 & F8).
    cbn [hashtags app] in *. split; [exact Hok|].
    intros Hyes. apply Hok in Hyes.
    rewrite firstn_all2 in Hh by assumption.
    destruct (snd (addHashtags l' _)) as [i' c' a' l1 cat' st' hs' imgs' cr'].
    cbn in *. unfold set_hashtags. cbn. congruence.
  - unfold ret. cbn. split; [split; [lia|reflexivity]|reflexivity].
Qed.

(** The text chain of the service on a new builder. *)
Lemma text_chain_outcome (uuid : string) (now : Date)
    (c a ce se di : string) (cat : ActivityCategory) (st : PostStatus)
    (hashtags' : option (list string)) :
  let hs := match hashtags' with Some l => l | None => [] end in
  let all := first_seen (List.map cleanHashtag hs) in
  let chain :=
    bind (setContent c) (fun _ =>
    bind (setAuthorId a) (fun _ =>
    bind (setLocation ce se di) (fun _ =>
    bind (setCategory cat) (fun _ =>
    bind (setStatus st) (fun _ =>
    bind (match hashtags' with
          | Some l => addHashtags l
          | None => ret tt
          end) (fun _ =>
    build now)))))) in
  let accepted :=
    trim c <> ""%string /\ (String.length c <= 5000)%nat
    /\ a <> ""%string /\ ce <> ""%string /\ se <> ""%string
    /\ di <> ""%string /\ (List.length all <= 10)%nat in
  match fst (chain (new uuid now)) with
  | Ok p =>
      accepted
      /\ p = {| Post.id := uuid; Post.content := trim c; Post.authorId := a;
                Post.location := {| cellId := ce; sectorId := se;
                                    districtId := di |};
                Post.category := cat; Post.status := st;
                Post.hashtags := all; Post.images := [];
                Post.createdAt := now; Post.updatedAt := now |}
  | Err _ => ~ accepted
  end.
Proof.
  cbn zeta. unfold bind at 1. unfold setContent. cbn [content new].
  rewrite length_zero_empty.
  destruct (falsy c) eqn:Ec.
  { cbn. apply falsy_true in Ec. subst c. intros (H & _). now apply H. }
  cbn [orb].
  destruct (falsy (trim c)) eqn:Et.
  { cbn. apply falsy_true in Et. intros (H & _). now apply H. }
  apply falsy_false in Et.
  destruct (5000 <? String.length c)%nat eqn:El.
  { cbn. apply Nat.ltb_lt in El. intros (_ & H & _). lia. }
  apply Nat.ltb_ge in El.
  unfold bind at 1. unfold setAuthorId.
  destruct (falsy a) eqn:Ea.
  { cbn. apply falsy_true in Ea. intros (_ & _ & H & _). now apply H. }
  apply falsy_false in Ea.
  unfold bind at 1. unfold setLocation.
  destruct (falsy ce) eqn:E1.
  { cbn. apply falsy_true in E1. intros (_ & _ & _ & H & _). now apply H. }
  destruct (falsy se) eqn:E2.
  { cbn. apply falsy_true in E2. intros (_ & _ & _ & _ & H & _).
    now apply H. }
  destruct (falsy di) eqn:E3.
  { cbn. apply falsy_true in E3. intros (_ & _ & _ & _ & _ & H & _).
    now apply H. }
  apply falsy_false in E1, E2, E3. cbn [orb].
  unfold bind at 1. unfold setCategory.
  unfold bind at 1. unfold setStatus.
  cbn [id content authorId location category status hashtags images
       createdAt fst snd].
  match goal with
  | |- context [bind ?s _ ?b] =>
      pose proof (optional_hashtags_outcome hashtags' b eq_refl) as [Hiff Hst];
      cbn zeta in Hiff, Hst
  end.
  unfold bind at 1.
  match goal with
  | |- context [match ?s ?b with _ => _ end] =>
      destruct (s b) as [[[]|e] b'] eqn:Es
  end; cbn [fst snd is_ok] in *.
  - specialize (Hst eq_refl). subst b'.
    unfold build, bind, validate, get, ret, throw, falsy.
    cbn [content authorId location category set_hashtags fst snd].
    destruct (String.eqb_spec (trim c) "") as [|_]; [contradiction|].
    destruct (String.eqb_spec a "") as [|_]; [contradiction|].
    cbn. split; [|reflexivity].
    repeat split; try assumption. now apply Hiff.
  - intros (_ & _ & _ & _ & _ & _ & H). apply Hiff in H. discriminate.
Qed.

(** The image chain of the service on a new builder. *)
Lemma image_chain_outcome (uuid : string) (now : Date)
    (c a ce se di : string) (cat : ActivityCategory) (st : PostStatus)
    (images' : option (list Image)) (hashtags' : option (list string)) :
  let hs := match hashtags' with Some l => l | None => [] end in
  let all := first_seen (List.map cleanHashtag hs) in
  let chain :=
    bind (setContent c) (fun _ =>
    bind (setAuthorId a) (fun _ =>
    bind (setLocation ce se di) (fun _ =>
    bind (setCategory cat) (fun _ =>
    bind (setStatus st) (fun _ =>
    bind (match images' with
          | Some l => addImages l
          | None =>
              throw "Cannot read properties of undefined (reading 'length')"
          end) (fun _ =>
    bind (match hashtags' with
          | Some l => addHashtags l
          | None => ret tt
          end) (fun _ =>
    build now))))))) in
  let accepted (imgs : list Image) :=
    trim c <> ""%string /\ (String.length c <= 5000)%nat
    /\ a <> ""%string /\ ce <> ""%string /\ se <> ""%string
    /\ di <> ""%string /\ (List.length imgs <= 5)%nat
    /\ Forall (fun img => url img <> ""%string) imgs
    /\ (List.length all <= 10)%nat in
  match fst (chain (new uuid now)) with
  | Ok p =>
      exists imgs, images' = Some imgs /\ accepted imgs
      /\ p = {| Post.id := uuid; Post.content := trim c; Post.authorId := a;
                Post.location := {| cellId := ce; sectorId := se;
                                    districtId := di |};
                Post.category := cat; Post.status := st;
                Post.hashtags := all; Post.images := imgs;
                Post.createdAt := now; Post.updatedAt := now |}
  | Err _ => forall imgs, images' = Some imgs -> ~ accepted imgs
  end.
Proof.
  cbn zeta. unfold bind at 1. unfold setContent. cbn [content new].
  rewrite length_zero_empty.
  destruct (falsy c) eqn:Ec.
  { cbn. apply falsy_true in Ec. subst c. intros ? _ (H & _). now apply H. }
  cbn [orb].
  destruct (falsy (trim c)) eqn:Et.
  { cbn. apply falsy_true in Et. intros ? _ (H & _). now apply H. }
  apply falsy_false in Et.
  destruct (5000 <? String.length c)%nat eqn:El.
  { cbn. apply Nat.ltb_lt in El. intros ? _ (_ & H & _). lia. }
  apply Nat.ltb_ge in El.
  unfold bind at 1. unfold setAuthorId.
  destruct (falsy a) eqn:Ea.
  { cbn. apply falsy_true in Ea. intros ? _ (_ & _ & H & _). now apply H. }
  apply falsy_false in Ea.
  unfold bind at 1. unfold setLocation.
  destruct (falsy ce) eqn:E1.
  { cbn. apply falsy_true in E1. intros ? _ (_ & _ & _ & H & _).
    now apply H. }
  destruct (falsy se) eqn:E2.
  { cbn. apply falsy_true in E2. intros ? _ (_ & _ & _ & _ & H & _).
    now apply H. }
  destruct (falsy di) eqn:E3.
  { cbn. apply falsy_true in E3. intros ? _ (_ & _ & _ & _ & _ & H & _).
    now apply H. }
  apply falsy_false in E1, E2, E3. cbn [orb].
  unfold bind at 1. unfold setCategory.
  unfold bind at 1. unfold setStatus.
  cbn [id content authorId location category status hashtags images
       createdAt fst snd].
  unfold bind at 1.
  destruct images' as [imgs|]; [|cbn; intros; discriminate].
  rewrite addImages_outcome.
  match goal with
  | |- context [(5 <? ?n)%nat] =>
      change n with (List.length imgs);
      destruct (5 <? List.length imgs)%nat eqn:E5
  end.
  { cbn. apply Nat.ltb_lt in E5. intros ? [= <-]. intros (_&_&_&_&_&_& H & _). lia. }
  apply Nat.ltb_ge in E5.
  destruct (forallb _ imgs) eqn:Eu.
  2:{ cbn. intros ? [= <-]. intros (_&_&_&_&_&_&_& H & _).
      apply forallb_urls in H. congruence. }
  apply forallb_urls in Eu.
  cbn [new images app set_images id content authorId location category
       status hashtags createdAt].
  match goal with
  | |- context [bind ?s _ ?b] =>
      pose proof (optional_hashtags_outcome hashtags' b eq_refl) as [Hiff Hst];
      cbn zeta in Hiff, Hst
  end.
  unfold bind at 1.
  match goal with
  | |- context [match ?s ?b with _ => _ end] =>
      destruct (s b) as [[[]|e] b'] eqn:Es
  end; cbn [fst snd is_ok] in *.
  - specialize (Hst eq_refl). subst b'.
    unfold build, bind, validate, get, ret, throw, falsy.
    cbn [new images app set_images set_hashtags id content authorId
         location category status hashtags createdAt fst snd].
    destruct (String.eqb_spec (trim c) "") as [|_]; [contradiction|].
    destruct (String.eqb_spec a "") as [|_]; [contradiction|].
    cbn. exists imgs. split; [reflexivity|]. split; [|reflexivity].
    repeat split; try assumption. now apply Hiff.
  - intros ? [= <-]. intros (_&_&_&_&_&_&_&_& H). apply Hiff in H. discriminate.
Qed.

(** ** The factories accept no more than the builder *)
Import PostFactory.

Lemma TextPostFactory_outcome (args : Args.t) :
  createPost TextPostFactory args
  = if falsy (trim (Args.content args)) then
      Err "Post content cannot be empty"%string
    else if (5000 <? String.length (Args.content args))%nat then
      Err "Post content exceeds maximum length (5000 characters)"%string
    else
      Ok {| IPost.id := None;
            IPost.content := Args.content args;
            IPost.authorId := Args.authorId args;
            IPost.cellId := Args.cellId args;
            IPost.sectorId := Args.sectorId args;
            IPost.districtId := Args.districtId args;
            IPost.category := Args.category args;
            IPost.status := or_default (Args.status args) PUBLISHED;
            IPost.hashtags := or_default (Args.hashtags args) [];
            IPost.createdAt := None;
            IPost.images := None |}.
Proof. reflexivity. Qed.

(** ** The registry *)
Lemma factories_get_set (m : Factories) (k k' : string) (f : PostFactory) :
  factories_get (factories_set m k f) k'
  = if String.eqb k k' then Some f else factories_get m k'.
Proof.
  induction m as [|[k0 f0] m IH]; simpl.
  - reflexivity.
  - destruct (String.eqb_spec k0 k) as [->|Hne]; simpl.
    + destruct (String.eqb k k'); reflexivity.
    + rewrite IH. destruct (String.eqb_spec k0 k') as [->|Hne'].
      * destruct (String.eqb_spec k k') as [->|_]; [contradiction|reflexivity].
      * reflexivity.
Qed.

Lemma factories_set_keys (m : Factories) (k : string) (f : PostFactory) :
  List.map fst (factories_set m k f)
  = if existsb (String.eqb k) (List.map fst m) then List.map fst m
    else (List.map fst m ++ [k])%list.
Proof.
  induction m as [|[k0 f0] m IH]; simpl; [reflexivity|].
  rewrite (String.eqb_sym k k0).
  destruct (String.eqb k0 k); simpl; [reflexivity|].
  rewrite IH. destruct (existsb _ _); reflexivity.
Qed.

(** ** The table *)
Import PostService.

Lemma post_findUnique_In (postId : string) (table : Table) (r : PostRow) :
  post_findUnique postId table = Some r ->
  In r table /\ PostService.id r = postId.
Proof.
  unfold post_findUnique. intros H. apply find_some in H as [Hin He].
  split; [assumption|]. now apply String.eqb_eq.
Qed.

Lemma post_findUnique_None (postId : string) (table : Table) :
  post_findUnique postId table = None ->
  ~ In postId (List.map PostService.id table).
Proof.
  unfold post_findUnique. intros H Hin.
  apply in_map_iff in Hin as (r & Hr & Hin).
  pose proof (find_none _ _ H r Hin) as Hf. cbn in Hf.
  rewrite Hr, String.eqb_refl in Hf. discriminate.
Qed.

Lemma post_delete_In (postId : string) (table : Table) (r : PostRow) :
  In r (post_delete postId table)
  <-> In r table /\ PostService.id r <> postId.
Proof.
  unfold post_delete. rewrite filter_In.
  destruct (String.eqb_spec (PostService.id r) postId) as [E|E]; cbn;
    intuition congruence.
Qed.

Lemma post_delete_absent (postId : string) (table : Table) :
  ~ In postId (List.map PostService.id table) ->
  post_delete postId table = table.
Proof.
  unfold post_delete. induction table as [|r table IH]; intros H; simpl.
  - reflexivity.
  - destruct (String.eqb_spec (PostService.id r) postId) as [E|E]; cbn.
    + exfalso. apply H. now left.
    + rewrite IH; [reflexivity|]. intros Hin. apply H. now right.
Qed.

(** With ids that are keys, deleting takes out exactly the row found. *)
Lemma post_delete_split (postId : string) (table : Table) (r : PostRow) :
  NoDup (List.map PostService.id table) ->
  post_findUnique postId table = Some r ->
  exists before after',
    table = (before ++ r :: after')%list
    /\ post_delete postId table = (before ++ after')%list.
Proof.
  unfold post_findUnique, post_delete.
  induction table as [|x table IH]; intros Hnd H; simpl in *; [discriminate|].
  inversion Hnd as [|? ? Hx Hnd']; subst.
  destruct (String.eqb_spec (PostService.id x) postId) as [E|E]; cbn.
  - injection H as <-. exists [], table. split; [reflexivity|].
    cbn. apply post_delete_absent. now rewrite <- E.
  - destruct (IH Hnd' H) as (bf & af & -> & Hd).
    exists (x :: bf), af. split; [reflexivity|]. cbn. now rewrite Hd.
Qed.

End PostServiceFacts.

(* ================================================================== *)
(** * Facts about the analytics route *)
(* ================================================================== *)

Module AnalyticsRouteFacts.
Import AnalyticsRoute.

Lemma heap_set_length (a : nat) (this : AnalyticsEngine)
    (h : list AnalyticsEngine) :
  List.length (heap_set a this h) = List.length h.
Proof.
  revert a. induction h as [|x h IH]; intros [|a]; simpl; try reflexivity.
  now rewrite IH.
Qed.

(** The handler on a request with a user id: the engine it serves from,
    where that engine lives, and what the call leaves. *)
Lemma GET_authenticated (client : PrismaClient) (request : Request)
    (p : Process) (u : string) :
  session_user_id request = Ok (Some u) -> u <> ""%string ->
  process_ok p ->
  let a := match instance p with
           | Some a => a
           | None => List.length (heap p)
           end in
  let this := match instance p with
              | Some a =>
                  nth a (heap p) {| prisma := client; lastUpdated := None |}
              | None => {| prisma := client; lastUpdated := None |}
              end in
  let h := match instance p with
           | Some _ => heap p
           | None => (heap p ++ [this])%list
           end in
  GET client request p
  = (let '(r, this') :=
       generateSummary (window_start request) (window_end request)
         (engine_env request) this in
     (match r with
     | Ok summary =>
         {| status := OK; body := apiSuccess (responded_at request) summary |}
     | Err _ =>
         {| status := INTERNAL_SERVER_ERROR;
            body := apiError (responded_at request) "INTERNAL_ERROR"
                             "Failed to generate analytics" |}
      end,
      {| heap := heap_set a this' h; instance := Some a |}))
  /\ nth_error h a = Some this /\ (a < List.length h)%nat.
Proof.
  intros Hs Hu Hp. cbv zeta. unfold GET. rewrite Hs.
  apply falsy_false in Hu. rewrite Hu.
  unfold getInstance, process_ok in *.
  destruct (instance p) as [a|] eqn:Ei.
  - unfold call_generateSummary.
    rewrite (nth_error_nth' (heap p)
               {| prisma := client; lastUpdated := None |} Hp).
    rewrite Ei.
    destruct (generateSummary _ _ _ _) as [[sm|e] this'];
      (split; [reflexivity|]); split; auto.
  - unfold new_AnalyticsEngine, call_generateSummary. cbn [heap instance].
    rewrite nth_error_app2, Nat.sub_diag by lia. cbn [nth_error].
    rewrite length_app. cbn [List.length].
    destruct (generateSummary _ _ _ _) as [[sm|e] this'];
      (split; [reflexivity|]); split; try reflexivity; lia.
Qed.

End AnalyticsRouteFacts.

(* ================================================================== *)
(** * Properties of the summary *)
(* ================================================================== *)

(** ** Hashtag percentages *)

(** C1, as the code has it: every entry of [topHashtags] has its percentage
    computed against the number of tag occurrences in the window plus one
    (the [reduce] starts from [1]), not against that number floored at 1.
    For a window where ["#a"] occurs three times and ["#b"] once the
    percentages are 60 and 20, where the denominator [max 4 1] would give 75
    and 25. *)
Theorem C1_topHashtags_denominator :
  (forall db t startDate endDate this,
     exists r this',
       generateSummary startDate endDate (env_of db t) this = (Ok r, this')
       /\ forall st, In st (topHashtags r) ->
            hpercentage st
            = percent (hcount st)
                (len (List.concat
                        (List.map post_hashtags
                           (posts_in_window db (window startDate endDate))))
                 + 1))
  /\ (exists r this',
        generateSummary 0 100 (env_of hashtag_db 200) fresh_engine
        = (Ok r, this')
        /\ topHashtags r
           = [ {| hashtag := "#a"; hcount := 3; hpercentage := of_N 60 |};
               {| hashtag := "#b"; hcount := 1; hpercentage := of_N 20 |} ]
        /\ topHashtags r
           <> [ {| hashtag := "#a"; hcount := 3; hpercentage := of_N 75 |};
                {| hashtag := "#b"; hcount := 1; hpercentage := of_N 25 |} ])
  /\ percent 3 (N.max 4 1) = of_N 75
  /\ percent 1 (N.max 4 1) = of_N 25.
Proof.
  split; [|split; [|split]].
  - intros db t s e this. eexists _, _.
    split; [apply generateSummary_env_of|].
    intros st Hst. cbn [topHashtags summary_on] in Hst.
    rewrite hashtagStatsOf_sorted_entries in Hst.
    apply In_firstn, sort_In, in_map_iff in Hst.
    destruct Hst as (tag & <- & _). reflexivity.
  - eexists _, _. split; [apply generateSummary_env_of|].
    split; [vm_compute; reflexivity|].
    vm_compute. discriminate.
  - vm_compute. reflexivity.
  - vm_compute. reflexivity.
Qed.

(** ** Engagement score *)


(** ** Inverted range *)

(** C3: when [startDate > endDate] the call resolves; the national totals
    are all zero, the category and hashtag breakdowns are empty, and every
    entry of the three per-level lists has no post, no engagement and an
    empty category breakdown. *)
Theorem C3_inverted_range (db : Database) (t startDate endDate : Date)
    (this : AnalyticsEngine) :
  startDate > endDate ->
  exists r this',
    generateSummary startDate endDate (env_of db t) this = (Ok r, this')
    /\ national r
       = {| nationalPosts := 0; nationalComments := 0;
            nationalReactions := 0; nationalReposts := 0;
            nationalEngagement := 0 |}
    /\ summaryCategories r = []
    /\ topHashtags r = []
    /\ empty_level (cellStats r)
    /\ empty_level (sectorStats r)
    /\ empty_level (districtStats r).
Proof.
  intros Hinv. eexists _, _. split; [apply generateSummary_env_of|].
  assert (Hw : forall d, in_window (window startDate endDate) d = false)
    by (intros d; apply in_window_inverted; lia).
  assert (Hposts : posts_in_window db (window startDate endDate) = [])
    by (apply filter_none; intros p; apply Hw).
  assert (Hlevel : forall fk nodes,
            empty_level
              (sort by_score_desc
                 (level_nodes db fk (window startDate endDate) nodes))).
  { intros fk nodes st Hst. apply level_nodes_In in Hst as (l & _ & ->).
    unfold include_posts, posts_of.
    rewrite (filter_none _ (db_posts db))
      by (intros p; rewrite Hw; apply andb_false_r).
    repeat split. }
  unfold summary_on. cbn [national summaryCategories topHashtags cellStats
                          sectorStats districtStats].
  rewrite Hposts, !filter_none by (intros x; apply Hw).
  split; [reflexivity|]. split; [reflexivity|]. split; [reflexivity|].
  split; [apply Hlevel|]. split; apply Hlevel.
Qed.

Lemma C3_inverted_range_witness :
  100 > 0
  /\ exists r this',
       generateSummary 100 0 (env_of hashtag_db 200) fresh_engine
       = (Ok r, this')
       /\ national r
          = {| nationalPosts := 0; nationalComments := 0;
               nationalReactions := 0; nationalReposts := 0;
               nationalEngagement := 0 |}
       /\ summaryCategories r = []
       /\ topHashtags r = []
       /\ empty_level (cellStats r)
       /\ empty_level (sectorStats r)
       /\ empty_level (districtStats r).
Proof.
  split; [lia|].
  apply (C3_inverted_range hashtag_db 200 100 0 fresh_engine). lia.
Defined.

(** ** Per-level lists *)

Lemma node_posts_len (db : Database) (fk : Post -> Id) (w : DateFilter)
    (l : Location) :
  len (posts (include_posts db fk w l)) = len (posts_of db fk w l).
Proof. unfold include_posts, len. simpl. now rewrite length_map. Qed.

Lemma level_ranked (db : Database) (fk : Post -> Id) (w : DateFilter)
    (nodes : list Location) :
  (len (posts_in_window db w) <= max_array_length)%N ->
  ranked_level db fk w nodes (sort by_score_desc (level_nodes db fk w nodes)).
Proof.
  intros Hlen. split; [|split].
  - apply sort_by_score. unfold level_nodes. rewrite map_map.
    apply Forall_forall. intros st Hst.
    apply in_map_iff in Hst as (l & <- & _).
    cbn [engagementScore node_stats].
    apply calculateEngagementScore_signed.
    rewrite node_posts_len.
    pose proof (posts_of_in_window db fk w l).
    unfold max_array_length in Hlen.
    assert (2 ^ 32 - 1 < 2 ^ 53)%N by (vm_compute; reflexivity). lia.
  - rewrite (Permutation_map _ (sort_perm by_score_desc _)).
    unfold level_nodes. rewrite !map_map.
    erewrite map_ext; [reflexivity|].
    intros l. cbn [id name totalPosts node_stats].
    now rewrite node_posts_len.
  - intros st Hst Hzero. apply level_nodes_In in Hst as (l & _ & ->).
    cbn [totalPosts node_stats] in Hzero. apply len_zero in Hzero.
    unfold node_stats. rewrite Hzero. split; vm_compute; reflexivity.
Qed.

(** C4: the three per-level lists are sorted by non-increasing engagement
    score and hold one entry per location node of the level, whatever the
    number of its posts in the window; an entry without a post in the window
    has score [0] and no category.  The posts of the window fit in one
    array, as the read of [getCategoryStats] needs. *)
Theorem C4_levels_ranked (db : Database) (t startDate endDate : Date)
    (this : AnalyticsEngine) :
  (len (posts_in_window db (window startDate endDate))
   <= max_array_length)%N ->
  exists r this',
    generateSummary startDate endDate (env_of db t) this = (Ok r, this')
    /\ ranked_level db post_cellId (window startDate endDate)
         (db_cells db) (cellStats r)
    /\ ranked_level db post_sectorId (window startDate endDate)
         (db_sectors db) (sectorStats r)
    /\ ranked_level db post_districtId (window startDate endDate)
         (db_districts db) (districtStats r).
Proof.
  intros Hlen. eexists _, _. split; [apply generateSummary_env_of|].
  cbn [cellStats sectorStats districtStats summary_on].
  split; [|split]; apply level_ranked; assumption.
Qed.

Lemma C4_levels_ranked_witness :
  (len (posts_in_window hashtag_db (window 0%Z 100%Z)) <= max_array_length)%N
  /\ exists r this',
       generateSummary 0 100 (env_of hashtag_db 200) fresh_engine
       = (Ok r, this')
       /\ ranked_level hashtag_db post_cellId (window 0 100)
            (db_cells hashtag_db) (cellStats r)
       /\ ranked_level hashtag_db post_sectorId (window 0 100)
            (db_sectors hashtag_db) (sectorStats r)
       /\ ranked_level hashtag_db post_districtId (window 0 100)
            (db_districts hashtag_db) (districtStats r).
Proof.
  assert (H : (len (posts_in_window hashtag_db (window 0%Z 100%Z))
               <= max_array_length)%N) by (vm_compute; discriminate).
  split; [exact H|].
  exact (C4_levels_ranked hashtag_db 200 0 100 fresh_engine H).
Defined.

(** ** Totals *)

Lemma level_totals (db : Database) (fk : Post -> Id) (w : DateFilter)
    (nodes : list Location) :
  node_totals db fk w nodes (sort by_score_desc (level_nodes db fk w nodes)).
Proof.
  unfold node_totals.
  rewrite (Permutation_map _ (sort_perm by_score_desc _)).
  unfold level_nodes. rewrite !map_map.
  erewrite map_ext; [reflexivity|].
  intros l. cbn [id name totalPosts totalEngagement node_stats].
  rewrite node_posts_len.
  unfold node_posts, node_comments, node_reactions, node_reposts.
  unfold include_posts. cbn [posts]. rewrite !map_map. reflexivity.
Qed.

(** C5: the national engagement is the sum of the four national counts,
    each entity counted by its own [createdAt] in the window; for every
    location node the engagement is the sum of its posts in the window and
    of all the comments, reactions and reposts attached to those posts,
    whatever their own [createdAt]. *)
Theorem C5_total_engagement (db : Database) (t startDate endDate : Date)
    (this : AnalyticsEngine) :
  let w := window startDate endDate in
  exists r this',
    generateSummary startDate endDate (env_of db t) this = (Ok r, this')
    /\ nationalPosts (national r) = len (posts_in_window db w)
    /\ nationalComments (national r)
       = len (filter (fun c => in_window w (comment_createdAt c))
                     (db_comments db))
    /\ nationalReactions (national r)
       = len (filter (fun x => in_window w (reaction_createdAt x))
                     (db_reactions db))
    /\ nationalReposts (national r)
       = len (filter (fun x => in_window w (repost_createdAt x))
                     (db_reposts db))
    /\ nationalEngagement (national r)
       = (nationalPosts (national r) + nationalComments (national r)
          + nationalReactions (national r) + nationalReposts (national r))%N
    /\ node_totals db post_cellId w (db_cells db) (cellStats r)
    /\ node_totals db post_sectorId w (db_sectors db) (sectorStats r)
    /\ node_totals db post_districtId w (db_districts db) (districtStats r).
Proof.
  intros w. eexists _, _. split; [apply generateSummary_env_of|].
  cbn [national nationalPosts nationalComments nationalReactions
       nationalReposts nationalEngagement cellStats sectorStats districtStats
       summary_on].
  do 5 (split; [reflexivity|]).
  split; [|split]; apply level_totals.
Qed.

(** ** Category rankings *)

Lemma level_rankings (db : Database) (fk : Post -> Id) (w : DateFilter)
    (nodes : list Location) :
  node_rankings db fk w nodes
    (sort by_score_desc (level_nodes db fk w nodes)).
Proof.
  intros st Hst. apply level_nodes_In in Hst as (l & Hl & ->).
  exists l, (categoryStatsOf (List.map post_category (posts_of db fk w l))).
  split; [assumption|]. split; [reflexivity|]. split; [reflexivity|].
  split; [apply categoryStatsOf_is_ranking|].
  assert (E : topCategories (node_stats (include_posts db fk w l))
              = firstn 5 (categoryStatsOf
                            (List.map post_category (posts_of db fk w l)))).
  { cbn [topCategories node_stats include_posts posts]. rewrite map_map.
    reflexivity. }
  split; [exact E|]. rewrite E. apply firstn_le_length.
Qed.

(** C6: [topCategories] of the summary is the ranking of the categories of
    the posts in the window: exactly the categories with at least one such
    post, each with its count and the percentage
    [round (count / max n 1 * 100)] over the [n] posts of the window, sorted
    by decreasing count, ties in the order of first encounter; the
    [topCategories] of each location node are the first five ranks of the
    same ranking over that node's posts in the window.  With two CLEANING
    posts and one HEALTH post in the window, all in one cell, the
    percentages are 67 and 33, nationally and for that cell, and a cell
    without posts has an empty list. *)
Theorem C6_category_rankings :
  (forall (db : Database) (t startDate endDate : Date)
          (this : AnalyticsEngine),
     let w := window startDate endDate in
     exists r this',
       generateSummary startDate endDate (env_of db t) this = (Ok r, this')
       /\ is_ranking (List.map post_category (posts_in_window db w))
                     (summaryCategories r)
       /\ (forall c, In c (List.map category (summaryCategories r)) <->
                     exists p, In p (posts_in_window db w)
                               /\ post_category p = c)
       /\ node_rankings db post_cellId w (db_cells db) (cellStats r)
       /\ node_rankings db post_sectorId w (db_sectors db) (sectorStats r)
       /\ node_rankings db post_districtId w (db_districts db)
            (districtStats r))
  /\ (exists r this',
        generateSummary 0 100 (env_of hashtag_db 200) fresh_engine
        = (Ok r, this')
        /\ summaryCategories r
           = [ {| category := CLEANING; count := 2; percentage := of_N 67 |};
               {| category := HEALTH; count := 1; percentage := of_N 33 |} ]
        /\ List.map topCategories (cellStats r)
           = [ [ {| category := CLEANING; count := 2;
                    percentage := of_N 67 |};
                 {| category := HEALTH; count := 1;
                    percentage := of_N 33 |} ];
               [] ]).
Proof.
  split.
  - intros db t startDate endDate this w.
    eexists _, _. split; [apply generateSummary_env_of|].
    cbn [summaryCategories cellStats sectorStats districtStats summary_on].
    fold w.
    pose proof (categoryStatsOf_is_ranking
                  (List.map post_category (posts_in_window db w))) as Hr.
    split; [exact Hr|]. split.
    + intros c. destruct Hr as (_ & Hin & _). rewrite Hin, in_map_iff.
      split; intros (p & H1 & H2); exists p; auto.
    + split; [|split]; apply level_rankings.
  - eexists _, _. split; [apply generateSummary_env_of|].
    split; vm_compute; reflexivity.
Qed.

(** ** Top hashtags *)

(** C7: [topHashtags] has at most 10 entries, sorted by non-increasing
    count. *)
Theorem C7_topHashtags_top10 (db : Database) (t startDate endDate : Date)
    (this : AnalyticsEngine) :
  exists r this',
    generateSummary startDate endDate (env_of db t) this = (Ok r, this')
    /\ (List.length (topHashtags r) <= 10)%nat
    /\ StronglySorted (fun a b => (hcount b <= hcount a)%N) (topHashtags r).
Proof.
  eexists _, _. split; [apply generateSummary_env_of|].
  cbn [topHashtags summary_on]. rewrite hashtagStatsOf_sorted_entries.
  split; [apply firstn_le_length|].
  apply StronglySorted_firstn.
  eapply StronglySorted_weaken;
    [|apply (sort_by_count hcount (fun _ _ => True))].
  - intros a b _ _ [H|[H _]]; lia.
  - match goal with
    | |- StronglySorted _ ?l => induction l; constructor; auto
    end.
    apply Forall_forall. auto.
Qed.

(** ** Repeated calls *)

(** C8: two calls with the same arguments against the same store, one after
    the other, give the same outcome in every field but [lastUpdated],
    whatever the instants of the two calls and whatever the engine's state
    before the first. *)
Theorem C8_same_arguments_same_summary (env : Env) (this : AnalyticsEngine)
    (startDate endDate t' : Date) :
  let first := generateSummary startDate endDate env this in
  let second :=
    generateSummary startDate endDate {| reads := reads env; now := t' |}
                    (snd first) in
  result_map without_lastUpdated (fst first)
  = result_map without_lastUpdated (fst second).
Proof.
  intros first second. subst first second.
  apply generateSummary_reads. cbn [reads].
  now rewrite generateSummary_prisma.
Qed.

(** ** Failures and the last-updated instant *)

(** C9: a call in which a read of the store fails rejects with the error of
    that read and leaves [lastUpdated] as it was; a call whose reads all
    succeed resolves and sets [lastUpdated] to its instant, the one its
    summary carries.  The reads are the nine the call awaits: four counts,
    the two [post.findMany] queries and the three per-level queries; whichever
    of them fails, alone or not, there is no summary and the engine is as it
    was, as when only the [post.findMany] of the hashtags rejects.  So on a
    new engine [getLastUpdated] is [null], and after any run
    of calls it is the instant of the last call that resolved, [null] while
    none has. *)
Theorem C9_failure_propagates :
  (forall env this startDate endDate,
     let outcomes :=
       read_outcomes (reads env (prisma this)) (window startDate endDate) in
     match generateSummary startDate endDate env this with
     | (Ok sm, this') =>
         forallb is_ok outcomes = true
         /\ this' = {| prisma := prisma this; lastUpdated := Some (now env) |}
         /\ summaryUpdated sm = now env
     | (Err er, this') =>
         forallb is_ok outcomes = false
         /\ In (Err er) outcomes
         /\ this' = this
     end)
  /\ (forall env this startDate endDate,
        let r := reads env (prisma this) in
        let w := window startDate endDate in
        forall failed,
          In failed
             [ result_map (fun _ => tt) (post_count r w);
               result_map (fun _ => tt) (comment_count r w);
               result_map (fun _ => tt) (reaction_count r w);
               result_map (fun _ => tt) (repost_count r w);
               result_map (fun _ => tt) (post_findMany_category r w);
               result_map (fun _ => tt) (post_findMany_hashtags r w);
               result_map (fun _ => tt) (cell_findMany r w);
               result_map (fun _ => tt) (sector_findMany r w);
               result_map (fun _ => tt) (district_findMany r w) ] ->
          is_ok failed = false ->
          exists er,
            generateSummary startDate endDate env this = (Err er, this))
  /\ generateSummary 0 100
       {| reads := fun _ => hashtags_read_down; now := 200 |} fresh_engine
     = (Err "connection lost"%string, fresh_engine)
  /\ (forall client,
        getLastUpdated {| prisma := client; lastUpdated := None |} = None)
  /\ (forall calls this,
        getLastUpdated (run_calls calls this) = last_success calls this).
Proof.
  split; [exact generateSummary_outcome|].
  split; [|split; [vm_compute; reflexivity|split; [reflexivity|]]].
  - intros env this startDate endDate r w failed Hin Hfailed.
    pose proof (generateSummary_outcome env this startDate endDate) as H.
    cbv zeta in H. fold r w in H.
    destruct (generateSummary startDate endDate env this) as [[sm|er] this'].
    + destruct H as (Hall & _). rewrite forallb_forall in Hall.
      rewrite (Hall failed Hin) in Hfailed. discriminate.
    + destruct H as (_ & _ & ->). now exists er.
  - exact run_calls_lastUpdated.
Qed.

(** ** The singleton *)

(** C10: in a run of calls of [getInstance] every call returns the same
    reference.  When no instance exists the first call allocates it with
    the client it was given, and the later calls leave the process as it is,
    whatever client they pass; when one exists no call changes anything.
    Calls of [generateSummary] in between change neither the instance nor
    the client it holds. *)
Theorem C10_single_instance :
  (forall (p : Process) (client : PrismaClient) (clients : list PrismaClient),
     let '(refs, p') := getInstance_calls (client :: clients) p in
     exists a,
       refs = repeat a (S (List.length clients))
       /\ instance p' = Some a
       /\ match instance p with
          | None =>
              a = List.length (heap p)
              /\ heap p'
                 = heap p ++ [ {| prisma := client; lastUpdated := None |} ]
              /\ nth_error (heap p') a
                 = Some {| prisma := client; lastUpdated := None |}
          | Some a0 => a = a0 /\ p' = p
          end)
  /\ (forall (p : Process) (client : PrismaClient) (ops : list Op),
        let '(refs, p') :=
          run_ops (GetInstance client :: ops) (resetInstance p) in
        let a := List.length (heap p) in
        (forall r, In (Some r) refs -> r = a)
        /\ instance p' = Some a
        /\ exists this, nth_error (heap p') a = Some this
                        /\ prisma this = client).
Proof.
  split.
  - intros p client clients.
    cbn [getInstance_calls]. unfold getInstance, new_AnalyticsEngine.
    destruct (instance p) as [a0|] eqn:Hp.
    + rewrite (getInstance_calls_set clients p a0 Hp).
      exists a0. repeat split; assumption.
    + cbn [heap].
      rewrite (getInstance_calls_set clients _ (List.length (heap p)))
        by reflexivity.
      exists (List.length (heap p)). cbn [instance heap].
      repeat split.
      rewrite nth_error_app2, Nat.sub_diag by lia. reflexivity.
  - intros p client ops. cbn [run_ops run_op].
    unfold getInstance, new_AnalyticsEngine, resetInstance.
    cbn [instance heap].
    set (a := List.length (heap p)).
    set (p1 := {| heap := heap p ++ [ {| prisma := client;
                                          lastUpdated := None |} ];
                  instance := Some a |}).
    pose proof (run_ops_instance ops p1 a
                  {| prisma := client; lastUpdated := None |} eq_refl) as H.
    cbn [heap p1] in H. subst a.
    rewrite nth_error_app2, Nat.sub_diag in H by lia.
    specialize (H eq_refl).
    destruct (run_ops ops p1) as [refs p'].
    destruct H as (Hr & Hi & Hh).
    split; [|auto].
    intros r [E|Hin]; [congruence|auto].
Qed.

(* ================================================================== *)
(** * Further properties of the engine *)
(* ================================================================== *)

(** X1: the counts of [topCategories] add up to the national number of
    posts: every post of the window is counted under exactly one
    category. *)
Theorem X1_category_counts_total (db : Database) (t startDate endDate : Date)
    (this : AnalyticsEngine) :
  exists r this',
    generateSummary startDate endDate (env_of db t) this = (Ok r, this')
    /\ sumN (List.map count (summaryCategories r))
       = nationalPosts (national r).
Proof.
  eexists _, _. split; [apply generateSummary_env_of|].
  cbn [summaryCategories national nationalPosts summary_on].
  rewrite categoryStatsOf_counts. unfold len. now rewrite length_map.
Qed.

(** X2: in every entry of the per-level lists the counts of the listed
    categories add up to at most the entry's [totalPosts], and to exactly
    [totalPosts] when fewer than five categories are listed (nothing was cut
    by the top-5 limit). *)
Theorem X2_node_category_counts (db : Database) (t startDate endDate : Date)
    (this : AnalyticsEngine) :
  exists r this',
    generateSummary startDate endDate (env_of db t) this = (Ok r, this')
    /\ forall st,
         In st (cellStats r ++ sectorStats r ++ districtStats r) ->
         (sumN (List.map count (topCategories st)) <= totalPosts st)%N
         /\ ((List.length (topCategories st) < 5)%nat ->
             sumN (List.map count (topCategories st)) = totalPosts st).
Proof.
  eexists _, _. split; [apply generateSummary_env_of|].
  cbn [cellStats sectorStats districtStats summary_on].
  assert (G : forall node,
            let st := node_stats node in
            (sumN (List.map count (topCategories st)) <= totalPosts st)%N
            /\ ((List.length (topCategories st) < 5)%nat ->
                sumN (List.map count (topCategories st)) = totalPosts st)).
  { intros node. cbn [topCategories totalPosts node_stats].
    set (cats := List.map (fun p => post_category (post p)) (posts node)).
    assert (Hlen : len (posts node) = len cats)
      by (unfold cats, len; now rewrite length_map).
    rewrite Hlen, <- (categoryStatsOf_counts cats). unfold slice0.
    split.
    - rewrite <- firstn_map. apply sumN_firstn.
    - intros Hlt. rewrite firstn_all2; [reflexivity|].
      rewrite length_firstn in Hlt. lia. }
  intros st Hst.
  rewrite !in_app_iff in Hst.
  destruct Hst as [Hst|[Hst|Hst]];
    apply level_nodes_In in Hst as (l & _ & ->); apply G.
Qed.

(** X3: [topHashtags] lists distinct tags, each with the number of its
    occurrences in the posts of the window, and they are the most frequent
    ones: a tag of the window that is not listed occurs at most as often as
    every listed tag, and no tag is left out while fewer than ten are
    listed. *)
Theorem X3_topHashtags_most_frequent (db : Database)
    (t startDate endDate : Date) (this : AnalyticsEngine) :
  let tags := tags_in_window db (window startDate endDate) in
  exists r this',
    generateSummary startDate endDate (env_of db t) this = (Ok r, this')
    /\ NoDup (List.map hashtag (topHashtags r))
    /\ (forall st, In st (topHashtags r) ->
          hcount st = count_of (hashtag st) tags /\ In (hashtag st) tags)
    /\ (forall tag, In tag tags ->
          In tag (List.map hashtag (topHashtags r))
          \/ ((List.length (topHashtags r) = 10)%nat
              /\ forall st, In st (topHashtags r) ->
                   (count_of tag tags <= hcount st)%N)).
Proof.
  intros tags. eexists _, _. split; [apply generateSummary_env_of|].
  cbn [topHashtags summary_on]. rewrite hashtagStatsOf_sorted_entries.
  fold (tags_in_window db (window startDate endDate)). fold tags.
  set (entry := fun tg => {| hashtag := tg; hcount := count_of tg tags;
                             hpercentage :=
                               percent (count_of tg tags) (len tags + 1) |}).
  set (full := sort (by_count_desc hcount) (List.map entry (first_seen tags))).
  assert (Hperm : Permutation full (List.map entry (first_seen tags)))
    by apply sort_perm.
  assert (Hnd : NoDup (List.map hashtag full)).
  { eapply Permutation_NoDup;
      [apply Permutation_map; symmetry; exact Hperm|].
    rewrite map_map. simpl. rewrite map_id. apply NoDup_first_seen. }
  assert (Hin : forall st, In st full ->
                  hcount st = count_of (hashtag st) tags
                  /\ In (hashtag st) tags).
  { intros st Hst. apply (Permutation_in _ Hperm) in Hst.
    apply in_map_iff in Hst as (tg & <- & Htg).
    split; [reflexivity|]. exact (proj1 (In_first_seen _ _) Htg). }
  assert (Hsorted : StronglySorted
                      (fun a b => (hcount b <= hcount a)%N) full).
  { eapply StronglySorted_weaken;
      [|apply (sort_by_count hcount (fun _ _ => True))].
    - intros a b _ _ [H|[H _]]; lia.
    - clear. induction (List.map entry (first_seen tags)); constructor; auto.
      apply Forall_forall. auto. }
  unfold slice0. split; [|split].
  - rewrite <- firstn_map.
    rewrite <- (firstn_skipn 10 (List.map hashtag full)) in Hnd.
    now apply NoDup_app_remove_r in Hnd.
  - intros st Hst. apply Hin. now apply In_firstn in Hst.
  - intros tag Htag.
    assert (Hfull : In (entry tag) full).
    { eapply Permutation_in; [symmetry; exact Hperm|].
      apply in_map. exact (proj2 (In_first_seen _ _) Htag). }
    rewrite <- (firstn_skipn 10 full) in Hfull, Hsorted.
    apply in_app_or in Hfull as [Hfull|Hfull].
    + left. change tag with (hashtag (entry tag)). now apply in_map.
    + right. split.
      * rewrite length_firstn. apply Nat.min_l.
        destruct (Nat.le_gt_cases 10 (List.length full)) as [|Hlt];
          [assumption|].
        rewrite skipn_all2 in Hfull by lia. contradiction.
      * intros st Hst.
        apply (StronglySorted_app_inv _ _ _ Hsorted st (entry tag) Hst Hfull).
Qed.

(** X4: [generateSummary] rejects with the error of the first read that
    fails, in the order the nine reads are awaited (the four counts, the
    [post.findMany] of the categories, the [post.findMany] of the hashtags,
    then cells, sectors and districts), and resolves exactly when none
    fails. *)
Theorem X4_first_failure_propagates (env : Env) (this : AnalyticsEngine)
    (startDate endDate : Date) :
  let r := reads env (prisma this) in
  let w := window startDate endDate in
  let outcomes :=
    [ result_map (fun _ => tt) (post_count r w);
      result_map (fun _ => tt) (comment_count r w);
      result_map (fun _ => tt) (reaction_count r w);
      result_map (fun _ => tt) (repost_count r w);
      result_map (fun _ => tt) (post_findMany_category r w);
      result_map (fun _ => tt) (post_findMany_hashtags r w);
      result_map (fun _ => tt) (cell_findMany r w);
      result_map (fun _ => tt) (sector_findMany r w);
      result_map (fun _ => tt) (district_findMany r w) ] in
  match fst (generateSummary startDate endDate env this) with
  | Ok _ => first_error outcomes = None
  | Err e => first_error outcomes = Some e
  end.
Proof.
  cbv zeta.
  change [ result_map (fun _ => tt)
             (post_count (reads env (prisma this))
                (window startDate endDate));
           result_map (fun _ => tt)
             (comment_count (reads env (prisma this))
                (window startDate endDate));
           result_map (fun _ => tt)
             (reaction_count (reads env (prisma this))
                (window startDate endDate));
           result_map (fun _ => tt)
             (repost_count (reads env (prisma this))
                (window startDate endDate));
           result_map (fun _ => tt)
             (post_findMany_category (reads env (prisma this))
                (window startDate endDate));
           result_map (fun _ => tt)
             (post_findMany_hashtags (reads env (prisma this))
                (window startDate endDate));
           result_map (fun _ => tt)
             (cell_findMany (reads env (prisma this))
                (window startDate endDate));
           result_map (fun _ => tt)
             (sector_findMany (reads env (prisma this))
                (window startDate endDate));
           result_map (fun _ => tt)
             (district_findMany (reads env (prisma this))
                (window startDate endDate)) ]
    with (read_outcomes (reads env (prisma this))
            (window startDate endDate)).
  unfold read_outcomes, window, generateSummary, getCategoryStats,
    getHashtagStats, getLocationStats, bind, ret, await_prisma, new_Date,
    set_lastUpdated.
  cbn [prisma].
  repeat match goal with
         | H : ?q = _ |- context [?q] => rewrite H
         | |- context [match ?q (reads env (prisma this)) ?w with
                       | Ok _ => _ | Err _ => _ end] =>
             let E := fresh "E" in
             destruct (q (reads env (prisma this)) w) eqn:E;
             cbn [fst snd prisma result_map first_error];
             rewrite ?for_of_run
         end; reflexivity.
Qed.

(** X5: [resetInstance] only clears the static field.  The next
    [getInstance] builds a new engine around the client it is given, with
    no last-updated instant, at a new address; the engines built before
    stay as they were for whoever still holds them. *)
Theorem X5_reset_then_getInstance (p : Process) (client : PrismaClient) :
  let '(a, p') := getInstance client (resetInstance p) in
  a = List.length (heap p)
  /\ instance p' = Some a
  /\ nth_error (heap p') a = Some {| prisma := client; lastUpdated := None |}
  /\ (forall b, (b < List.length (heap p))%nat ->
        nth_error (heap p') b = nth_error (heap p) b).
Proof.
  unfold getInstance, new_AnalyticsEngine, resetInstance. cbn [instance heap].
  split; [reflexivity|]. split; [reflexivity|]. split.
  - rewrite nth_error_app2, Nat.sub_diag by lia. reflexivity.
  - intros b Hb. now rewrite nth_error_app1.
Qed.

(** X6: when the nodes of each level have distinct ids, the [totalPosts] of
    a level's entries add up to at most the national number of posts, and
    to exactly that number when every post of the window names a node of
    the level. *)
Theorem X6_level_posts_within_national (db : Database)
    (t startDate endDate : Date) (this : AnalyticsEngine) :
  NoDup (List.map location_id (db_cells db)) ->
  NoDup (List.map location_id (db_sectors db)) ->
  NoDup (List.map location_id (db_districts db)) ->
  exists r this',
    generateSummary startDate endDate (env_of db t) this = (Ok r, this')
    /\ (forall stats fk nodes,
          In (stats, fk, nodes)
             [ (cellStats r, post_cellId, db_cells db);
               (sectorStats r, post_sectorId, db_sectors db);
               (districtStats r, post_districtId, db_districts db) ] ->
          (sumN (List.map totalPosts stats) <= nationalPosts (national r))%N
          /\ (posts_located db fk (window startDate endDate) nodes ->
              sumN (List.map totalPosts stats)
              = nationalPosts (national r))).
Proof.
  intros Hc Hs Hd. eexists _, _. split; [apply generateSummary_env_of|].
  cbn [cellStats sectorStats districtStats national nationalPosts summary_on].
  intros stats fk nodes [E|[E|[E|[]]]]; injection E as <- <- <-;
    now apply level_posts_total.
Qed.

Lemma X6_level_posts_within_national_witness :
  (NoDup (List.map location_id (db_cells hashtag_db))
   /\ NoDup (List.map location_id (db_sectors hashtag_db))
   /\ NoDup (List.map location_id (db_districts hashtag_db)))
  /\ exists r this',
       generateSummary 0 100 (env_of hashtag_db 200) fresh_engine
       = (Ok r, this')
       /\ (forall stats fk nodes,
             In (stats, fk, nodes)
                [ (cellStats r, post_cellId, db_cells hashtag_db);
                  (sectorStats r, post_sectorId, db_sectors hashtag_db);
                  (districtStats r, post_districtId,
                   db_districts hashtag_db) ] ->
             (sumN (List.map totalPosts stats)
              <= nationalPosts (national r))%N
             /\ (posts_located hashtag_db fk (window 0 100) nodes ->
                 sumN (List.map totalPosts stats)
                 = nationalPosts (national r))).
Proof.
  assert (Hc : NoDup (List.map location_id (db_cells hashtag_db))).
  { simpl. repeat constructor; simpl; intuition discriminate. }
  assert (Hs : NoDup (List.map location_id (db_sectors hashtag_db))).
  { simpl. repeat constructor; simpl; intuition discriminate. }
  assert (Hd : NoDup (List.map location_id (db_districts hashtag_db))).
  { simpl. repeat constructor; simpl; intuition discriminate. }
  split; [exact (conj Hc (conj Hs Hd))|].
  exact (X6_level_posts_within_national hashtag_db 200 0 100 fresh_engine
           Hc Hs Hd).
Defined.

(** X7: a node with at least one post and no comment, reaction or repost
    scores exactly 1, whatever the number of its posts (below 2^53). *)
Theorem X7_score_without_interactions (p : N) :
  (0 < p < 2 ^ 53)%N ->
  calculateEngagementScore p 0 0 0 = of_N 1.
Proof.
  intros Hp. unfold calculateEngagementScore.
  replace (p * 1 + 0 * 2 + 0 * 1 + 0 * 3)%N with p by lia.
  replace (or_one p) with p
    by (unfold or_one; destruct (N.eqb_spec p 0); lia).
  destruct (of_N_finite p Hp) as (m & e & -> & _).
  rewrite fdiv_self. vm_compute. reflexivity.
Qed.

Lemma X7_score_without_interactions_witness :
  (0 < 7 < 2 ^ 53)%N /\ calculateEngagementScore 7 0 0 0 = of_N 1.
Proof.
  assert (H : (0 < 7 < 2 ^ 53)%N) by (split; reflexivity).
  split; [exact H|]. exact (X7_score_without_interactions 7 H).
Defined.

(* ================================================================== *)
(** * Properties of [PostBuilder] *)
(* ================================================================== *)

Section PostBuilderProperties.
Import PostBuilder PostBuilderFacts.

(** X8: whatever calls a new builder has received, in whatever order and
    whether they returned or threw, a post that [build] then returns is
    well formed: content trimmed, not empty and at most 5000 long; an
    author; a location with its three ids; at most 10 tags, distinct and
    each starting with [#]; at most 5 images, each with a url. *)
Theorem X8_built_post_well_formed (uuid : string) (now now' : Date)
    (calls : list PostBuilder.Call) (p : Post.t) :
  fst (build now' (after_all calls (new uuid now))) = Ok p ->
  well_formed p.
Proof.
  intros Hb.
  pose proof (after_all_invariant calls _ (invariant_new uuid now))
    as (Hc & Hh & Hi & Hl).
  pose proof (build_outcome now' (after_all calls (new uuid now))) as Ho.
  rewrite Hb in Ho.
  destruct Ho as (Hc' & Ha & El & _ & _ & Ec & Ea & _ & Eh & Ei & _).
  unfold well_formed. rewrite Ec, Ea, Eh, Ei.
  split; [assumption|]. split; [assumption|]. split; [assumption|].
  split; [now apply Hl|]. split; assumption.
Qed.

Lemma X8_built_post_well_formed_witness :
  let calls :=
    [ SetContent "  Umuganda at the school  "; AddHashtag "clean";
      SetContent ""; SetAuthorId "u1"; SetLocation "c1" "s1" "d1";
      SetCategory CLEANING; AddHashtags ["#clean"; "school"];
      AddImage "" None None ]%string in
  let p :=
    {| Post.id := "id-1"; Post.content := "Umuganda at the school";
       Post.authorId := "u1";
       Post.location :=
         {| cellId := "c1"; sectorId := "s1"; districtId := "d1" |};
       Post.category := CLEANING; Post.status := PUBLISHED;
       Post.hashtags := ["#clean"; "#school"]; Post.images := [];
       Post.createdAt := 3; Post.updatedAt := 7 |}%string in
  fst (build 7 (after_all calls (new "id-1"%string 3))) = Ok p
  /\ well_formed p.
Proof.
  cbv zeta.
  assert (H : fst (build 7
                (after_all
                   [ SetContent "  Umuganda at the school  ";
                     AddHashtag "clean"; SetContent ""; SetAuthorId "u1";
                     SetLocation "c1" "s1" "d1"; SetCategory CLEANING;
                     AddHashtags ["#clean"; "school"];
                     AddImage "" None None ]%string
                   (new "id-1"%string 3)))
              = Ok {| Post.id := "id-1";
                      Post.content := "Umuganda at the school";
                      Post.authorId := "u1";
                      Post.location :=
                        {| cellId := "c1"; sectorId := "s1";
                           districtId := "d1" |};
                      Post.category := CLEANING; Post.status := PUBLISHED;
                      Post.hashtags := ["#clean"; "#school"];
                      Post.images := [];
                      Post.createdAt := 3; Post.updatedAt := 7 |}%string)
    by (vm_compute; reflexivity).
  split; [exact H|].
  exact (X8_built_post_well_formed _ _ _ _ _ H).
Defined.

(** X9: on a builder reached by any calls, [addHashtags] leaves the first
    10 of: the tags held, then the given ones with [#] put in front where
    missing, each kept at its first occurrence.  It returns when these are
    at most 10 and throws otherwise, the tags before the eleventh staying
    added. *)
Theorem X9_addHashtags_tags (uuid : string) (now : Date)
    (calls : list PostBuilder.Call) (hs : list string) :
  let b := after_all calls (new uuid now) in
  let all := first_seen (hashtags b ++ List.map cleanHashtag hs) in
  hashtags (snd (addHashtags hs b)) = firstn 10 all
  /\ (is_ok (fst (addHashtags hs b)) = true <-> (List.length all <= 10)%nat).
Proof.
  cbv zeta. apply addHashtags_outcome.
  apply (after_all_invariant calls _ (invariant_new uuid now)).
Qed.

(** X10: [addImages] adds all the images or none.  It returns, with the
    images appended in order, exactly when the total stays within 5 and
    every given image has a url; otherwise it throws and the builder is as
    before. *)
Theorem X10_addImages_all_or_nothing (imgs : list Image) (b : t) :
  let fits :=
    (List.length (images b) + List.length imgs <= 5)%nat
    /\ Forall (fun img => url img <> ""%string) imgs in
  match fst (addImages imgs b) with
  | Ok _ => fits /\ snd (addImages imgs b) = set_images (images b ++ imgs) b
  | Err _ => ~ fits /\ snd (addImages imgs b) = b
  end.
Proof.
  cbv zeta. rewrite addImages_outcome.
  destruct (5 <? _)%nat eqn:E5.
  - apply Nat.ltb_lt in E5. cbn. split; [|reflexivity]. intros [H _]. lia.
  - apply Nat.ltb_ge in E5.
    destruct (forallb _ imgs) eqn:Eu; cbn.
    + apply forallb_urls in Eu. split; [|reflexivity]. now split.
    + split; [|reflexivity]. intros [_ H]. apply forallb_urls in H.
      congruence.
Qed.

(** X11: [build] leaves the builder as it was, so it can build again; it
    returns exactly when content, author, location and category are all
    set; and the check after [validate] never fires: no builder throws
    "Invalid post state". *)
Theorem X11_build_errors (now : Date) (b : t) :
  snd (build now b) = b
  /\ (is_ok (fst (build now b)) = true
      <-> content b <> ""%string /\ authorId b <> ""%string
          /\ location b <> None /\ category b <> None)
  /\ fst (build now b) <> Err "Invalid post state"%string.
Proof.
  split; [apply build_state|].
  pose proof (build_outcome now b) as H.
  destruct (fst (build now b)) as [p|e]; cbn.
  - destruct H as (Hc & Ha & Hl & Hcat & _).
    split; [|discriminate]. split; [|reflexivity].
    intros _. rewrite Hl, Hcat. repeat split; try assumption; discriminate.
  - split.
    + split; [discriminate|]. intros (Hc & Ha & Hl & Hcat).
      destruct H as [[E _]|[(_ & E & _)|[(_ & _ & E & _)|(_ & _ & _ & E & _)]]];
        contradiction.
    + intros [= ->].
      destruct H as [[_ E]|[(_ & _ & E)|[(_ & _ & _ & E)|(_ & _ & _ & _ & E)]]];
        discriminate.
Qed.

End PostBuilderProperties.

(* ================================================================== *)
(** * Properties of the factories and of [PostService] *)
(* ================================================================== *)

Section PostServiceProperties.
Import PostBuilder PostBuilderFacts PostFactory PostService PostServiceFacts.
Variable toLowerCase : string -> string.

(** X12: after [registerFactory(t, f)], [getFactory(t')] gives [f] for
    every [t'] that lowercases like [t], and what it gave before for every
    other type. *)
Theorem X12_register_then_get (factories : Factories) (t t' : string)
    (f : PostFactory) :
  getFactory toLowerCase (registerFactory toLowerCase factories t f) t'
  = if String.eqb (toLowerCase t) (toLowerCase t') then Ok f
    else getFactory toLowerCase factories t'.
Proof.
  unfold getFactory, registerFactory. rewrite factories_get_set.
  destruct (String.eqb _ _); reflexivity.
Qed.


(** X13: with the two factories the module registers, [createTextPost]
    stores a row exactly when the content has a character that is not
    white space and is at most 5000 long, author and the three location
    ids are not empty, and the tags, once [#] is put in front and
    repetitions dropped, are at most 10.  The row, appended to the table,
    has the content trimmed, these tags, status PUBLISHED and no image.
    Otherwise the call throws and the table is as before. *)
Theorem X13_createTextPost_outcome (env : PostService.Env) (input : Input)
    (table : Table) :
  toLowerCase "text" = "text"%string ->
  let tags :=
    first_seen (List.map cleanHashtag
                  (or_default (input_hashtags input) [])) in
  let accepted :=
    trim (input_content input) <> ""%string
    /\ (String.length (input_content input) <= 5000)%nat
    /\ input_authorId input <> ""%string
    /\ input_cellId input <> ""%string
    /\ input_sectorId input <> ""%string
    /\ input_districtId input <> ""%string
    /\ (List.length tags <= 10)%nat in
  match createTextPost toLowerCase initial_factories env input table with
  | (Ok row, table') =>
      accepted
      /\ row = {| PostService.id := new_id env;
                  PostService.content := trim (input_content input);
                  PostService.authorId := input_authorId input;
                  PostService.cellId := input_cellId input;
                  PostService.sectorId := input_sectorId input;
                  PostService.districtId := input_districtId input;
                  PostService.category := input_category input;
                  PostService.status := PUBLISHED;
                  PostService.hashtags := tags;
                  PostService.images := [];
                  PostService.createdAt := PostService.now env |}
      /\ table' = (table ++ [row])%list
  | (Err _, table') => ~ accepted /\ table' = table
  end.
Proof.
  intros Hlc. cbv zeta.
  unfold createTextPost, getFactory. rewrite Hlc.
  cbn [initial_factories factories_get String.eqb Ascii.eqb Bool.eqb].
  rewrite TextPostFactory_outcome. cbn [args_of Args.content].
  destruct (falsy (trim (input_content input))) eqn:Et.
  { apply falsy_true in Et. cbv beta iota. split; [|reflexivity].
    intros (H & _). contradiction. }
  destruct (5000 <? String.length (input_content input))%nat eqn:El.
  { apply Nat.ltb_lt in El. cbv beta iota. split; [|reflexivity].
    intros (_ & H & _). lia. }
  apply Nat.ltb_ge in El. apply falsy_false in Et. cbv beta iota.
  cbn [args_of IPost.content IPost.authorId IPost.cellId IPost.sectorId
       IPost.districtId IPost.category IPost.status Args.authorId Args.cellId
       Args.sectorId Args.districtId Args.category Args.status or_default].
  pose proof (text_chain_outcome (uuid env) (PostService.now env)
                (input_content input) (input_authorId input)
                (input_cellId input) (input_sectorId input)
                (input_districtId input) (input_category input) PUBLISHED
                (input_hashtags input)) as H.
  cbv zeta in H.
  match type of H with
  | match fst ?x with _ => _ end => destruct x as [[p|e] b']
  end; cbn [fst] in H.
  - destruct H as (Hacc & ->). unfold post_create, text_data_of.
    cbn [Post.content Post.authorId Post.location Post.category Post.status
         Post.hashtags cellId sectorId districtId data_content data_authorId
         data_cellId data_sectorId data_districtId data_category data_status
         data_hashtags data_images].
    destruct (input_hashtags input); split; try exact Hacc; split; reflexivity.
  - destruct (input_hashtags input); split; try exact H; reflexivity.
Qed.

(** X14: with the two factories the module registers, [createImagePost]
    stores a row exactly when [createTextPost] would and, besides, there
    are between 1 and 5 images, each with a url.  The row carries the
    images in the order given.  Otherwise the call throws and the table is
    as before. *)
Theorem X14_createImagePost_outcome (env : PostService.Env) (input : Input)
    (table : Table) :
  toLowerCase "image" = "image"%string ->
  let tags :=
    first_seen (List.map cleanHashtag
                  (or_default (input_hashtags input) [])) in
  let accepted (imgs : list Image) :=
    trim (input_content input) <> ""%string
    /\ (String.length (input_content input) <= 5000)%nat
    /\ input_authorId input <> ""%string
    /\ input_cellId input <> ""%string
    /\ input_sectorId input <> ""%string
    /\ input_districtId input <> ""%string
    /\ (1 <= List.length imgs <= 5)%nat
    /\ Forall (fun img => url img <> ""%string) imgs
    /\ (List.length tags <= 10)%nat in
  match createImagePost toLowerCase initial_factories env input table with
  | (Ok row, table') =>
      exists imgs,
        input_images input = Some imgs /\ accepted imgs
        /\ row = {| PostService.id := new_id env;
                    PostService.content := trim (input_content input);
                    PostService.authorId := input_authorId input;
                    PostService.cellId := input_cellId input;
                    PostService.sectorId := input_sectorId input;
                    PostService.districtId := input_districtId input;
                    PostService.category := input_category input;
                    PostService.status := PUBLISHED;
                    PostService.hashtags := tags;
                    PostService.images := imgs;
                    PostService.createdAt := PostService.now env |}
        /\ table' = (table ++ [row])%list
  | (Err _, table') =>
      (forall imgs, input_images input = Some imgs -> ~ accepted imgs)
      /\ table' = table
  end.
Proof.
  intros Hlc. cbv zeta.
  unfold createImagePost, getFactory. rewrite Hlc.
  cbn [initial_factories factories_get String.eqb Ascii.eqb Bool.eqb].
  unfold ImagePostFactory. cbn [createPost args_of Args.content Args.images].
  destruct (falsy (trim (input_content input))) eqn:Et.
  { apply falsy_true in Et. cbv beta iota. split; [|reflexivity].
    intros ? _ (H & _). contradiction. }
  destruct (5000 <? String.length (input_content input))%nat eqn:El.
  { apply Nat.ltb_lt in El. cbv beta iota. split; [|reflexivity].
    intros ? _ (_ & H & _). lia. }
  apply Nat.ltb_ge in El. apply falsy_false in Et.
  destruct (input_images input) as [imgs|] eqn:Ei.
  2:{ cbv beta iota. split; [|reflexivity]. intros ? [=]. }
  destruct (List.length imgs =? 0)%nat eqn:E0.
  { apply Nat.eqb_eq in E0. cbv beta iota. split; [|reflexivity].
    intros ? [= <-]. intros (_&_&_&_&_&_& H & _). lia. }
  apply Nat.eqb_neq in E0.
  destruct (MAX_IMAGES <? List.length imgs)%nat eqn:E5.
  { apply Nat.ltb_lt in E5. unfold MAX_IMAGES in E5. cbv beta iota.
    split; [|reflexivity]. intros ? [= <-]. intros (_&_&_&_&_&_& H & _).
    lia. }
  apply Nat.ltb_ge in E5. unfold MAX_IMAGES in E5.
  destruct (forallb _ imgs) eqn:Eu.
  2:{ cbn [negb]. cbv beta iota. split; [|reflexivity].
      intros ? [= <-]. intros (_&_&_&_&_&_&_& H & _).
      apply forallb_urls in H. congruence. }
  cbn [negb]. cbv beta iota.
  cbn [args_of IPost.content IPost.authorId IPost.cellId IPost.sectorId
       IPost.districtId IPost.category IPost.status IPost.images
       Args.authorId Args.cellId Args.sectorId Args.districtId Args.category
       Args.status or_default].
  pose proof (image_chain_outcome (uuid env) (PostService.now env)
                (input_content input) (input_authorId input)
                (input_cellId input) (input_sectorId input)
                (input_districtId input) (input_category input) PUBLISHED
                (Some imgs) (input_hashtags input)) as H.
  cbv zeta in H.
  match type of H with
  | match fst ?x with _ => _ end => destruct x as [[p|e] b']
  end; cbn [fst] in H.
  - destruct H as (imgs' & [= <-] & Hacc & ->).
    unfold post_create, image_data_of.
    cbn [Post.content Post.authorId Post.location Post.category Post.status
         Post.hashtags Post.images cellId sectorId districtId data_content
         data_authorId data_cellId data_sectorId data_districtId
         data_category data_status data_hashtags data_images].
    exists imgs. split; [reflexivity|].
    destruct Hacc as (A1 & A2 & A3 & A4 & A5 & A6 & A7 & A8 & A9).
    destruct (input_hashtags input);
      (split; [repeat split; first [assumption | lia]|]); split; reflexivity.
  - split; [|reflexivity]. intros ? [= <-].
    intros (A1 & A2 & A3 & A4 & A5 & A6 & A7 & A8 & A9).
    apply (H imgs eq_refl).
    destruct (input_hashtags input); repeat split; first [assumption | lia].
Qed.

(** X15: whatever factories are registered, a call of [createTextPost] or
    [createImagePost] either throws and leaves the table as it was, or
    appends one row and returns it; and that row is well formed, because
    the builder checks again what a factory let through. *)
Theorem X15_created_row_well_formed (factories : Factories)
    (env : PostService.Env) (input : Input) (table : Table) :
  let written (r : Result PostRow * Table) :=
    match r with
    | (Ok row, table') =>
        table' = (table ++ [row])%list /\ row_ok row
        /\ PostService.id row = new_id env
    | (Err _, table') => table' = table
    end in
  written (createTextPost toLowerCase factories env input table)
  /\ written (createImagePost toLowerCase factories env input table).
Proof.
  cbv zeta. split.
  - unfold createTextPost.
    destruct (getFactory toLowerCase factories "text") as [f|e];
      [|reflexivity].
    destruct (createPost f (args_of input)) as [tp|e]; [|reflexivity].
    pose proof (text_chain_outcome (uuid env) (PostService.now env)
                  (IPost.content tp) (IPost.authorId tp) (IPost.cellId tp)
                  (IPost.sectorId tp) (IPost.districtId tp)
                  (IPost.category tp) (IPost.status tp)
                  (input_hashtags input)) as H.
    cbv zeta in H. cbv zeta.
    match type of H with
    | match fst ?x with _ => _ end => destruct x as [[p|e] b']
    end; cbn [fst] in H; [|reflexivity].
    destruct H as ((A1 & A2 & A3 & A4 & A5 & A6 & A7) & ->).
    unfold post_create, text_data_of, row_ok.
    cbn [Post.content Post.authorId Post.location Post.category Post.status
         Post.hashtags cellId sectorId districtId data_content data_authorId
         data_cellId data_sectorId data_districtId data_category data_status
         data_hashtags data_images PostService.id PostService.content
         PostService.authorId PostService.cellId PostService.sectorId
         PostService.districtId PostService.hashtags PostService.images].
    split; [reflexivity|]. split; [|reflexivity].
    split; [assumption|]. split.
    { split; [apply trim_idem|]. pose proof (trim_length (IPost.content tp)).
      lia. }
    split; [assumption|]. split; [assumption|]. split; [assumption|].
    split; [assumption|]. split; [|apply images_ok_nil].
    now apply hashtags_ok_first_seen.
  - unfold createImagePost.
    destruct (getFactory toLowerCase factories "image") as [f|e];
      [|reflexivity].
    destruct (createPost f (args_of input)) as [tp|e]; [|reflexivity].
    pose proof (image_chain_outcome (uuid env) (PostService.now env)
                  (IPost.content tp) (IPost.authorId tp) (IPost.cellId tp)
                  (IPost.sectorId tp) (IPost.districtId tp)
                  (IPost.category tp) (IPost.status tp) (IPost.images tp)
                  (input_hashtags input)) as H.
    cbv zeta in H. cbv zeta.
    match type of H with
    | match fst ?x with _ => _ end => destruct x as [[p|e] b']
    end; cbn [fst] in H; [|reflexivity].
    destruct H as (imgs & _ & (A1 & A2 & A3 & A4 & A5 & A6 & A7 & A8 & A9)
                   & ->).
    unfold post_create, image_data_of, row_ok.
    cbn [Post.content Post.authorId Post.location Post.category Post.status
         Post.hashtags Post.images cellId sectorId districtId data_content
         data_authorId data_cellId data_sectorId data_districtId
         data_category data_status data_hashtags data_images PostService.id
         PostService.content PostService.authorId PostService.cellId
         PostService.sectorId PostService.districtId PostService.hashtags
         PostService.images].
    split; [reflexivity|]. split; [|reflexivity].
    split; [assumption|]. split.
    { split; [apply trim_idem|]. pose proof (trim_length (IPost.content tp)).
      lia. }
    split; [assumption|]. split; [assumption|]. split; [assumption|].
    split; [assumption|]. split; [now apply hashtags_ok_first_seen|].
    split; assumption.
Qed.

End PostServiceProperties.

Section PostServiceWitnesses.
Import PostBuilder PostFactory PostService.

Lemma X13_createTextPost_outcome_witness :
  (fun s : string => s) "text"%string = "text"%string
  /\ let tags :=
       first_seen (List.map cleanHashtag
                     (or_default (input_hashtags sample_input) [])) in
     let accepted :=
       trim (input_content sample_input) <> ""%string
       /\ (String.length (input_content sample_input) <= 5000)%nat
       /\ input_authorId sample_input <> ""%string
       /\ input_cellId sample_input <> ""%string
       /\ input_sectorId sample_input <> ""%string
       /\ input_districtId sample_input <> ""%string
       /\ (List.length tags <= 10)%nat in
     match createTextPost (fun s => s) initial_factories sample_env
             sample_input sample_table with
     | (Ok row, table') =>
         accepted
         /\ row = {| PostService.id := new_id sample_env;
                     PostService.content := trim (input_content sample_input);
                     PostService.authorId := input_authorId sample_input;
                     PostService.cellId := input_cellId sample_input;
                     PostService.sectorId := input_sectorId sample_input;
                     PostService.districtId := input_districtId sample_input;
                     PostService.category := input_category sample_input;
                     PostService.status := PUBLISHED;
                     PostService.hashtags := tags;
                     PostService.images := [];
                     PostService.createdAt := PostService.now sample_env |}
         /\ table' = (sample_table ++ [row])%list
     | (Err _, table') => ~ accepted /\ table' = sample_table
     end.
Proof.
  split; [reflexivity|].
  exact (X13_createTextPost_outcome (fun s => s) sample_env sample_input
           sample_table eq_refl).
Defined.

Lemma X14_createImagePost_outcome_witness :
  (fun s : string => s) "image"%string = "image"%string
  /\ let tags :=
       first_seen (List.map cleanHashtag
                     (or_default (input_hashtags sample_input) [])) in
     let accepted (imgs : list Image) :=
       trim (input_content sample_input) <> ""%string
       /\ (String.length (input_content sample_input) <= 5000)%nat
       /\ input_authorId sample_input <> ""%string
       /\ input_cellId sample_input <> ""%string
       /\ input_sectorId sample_input <> ""%string
       /\ input_districtId sample_input <> ""%string
       /\ (1 <= List.length imgs <= 5)%nat
       /\ Forall (fun img => url img <> ""%string) imgs
       /\ (List.length tags <= 10)%nat in
     match createImagePost (fun s => s) initial_factories sample_env
             sample_input sample_table with
     | (Ok row, table') =>
         exists imgs,
           input_images sample_input = Some imgs /\ accepted imgs
           /\ row = {| PostService.id := new_id sample_env;
                       PostService.content :=
                         trim (input_content sample_input);
                       PostService.authorId := input_authorId sample_input;
                       PostService.cellId := input_cellId sample_input;
                       PostService.sectorId := input_sectorId sample_input;
                       PostService.districtId :=
                         input_districtId sample_input;
                       PostService.category := input_category sample_input;
                       PostService.status := PUBLISHED;
                       PostService.hashtags := tags;
                       PostService.images := imgs;
                       PostService.createdAt := PostService.now sample_env |}
           /\ table' = (sample_table ++ [row])%list
     | (Err _, table') =>
         (forall imgs, input_images sample_input = Some imgs ->
            ~ accepted imgs)
         /\ table' = sample_table
     end.
Proof.
  split; [reflexivity|].
  exact (X14_createImagePost_outcome (fun s => s) sample_env sample_input
           sample_table eq_refl).
Defined.

End PostServiceWitnesses.

Section DeletePostProperties.
Import PostService PostServiceFacts.

(** X16: on a table whose ids are distinct, [deletePost] returns the row
    with the given id and takes exactly that row out, the others staying
    in their order, when the row exists and its author is the caller.  It
    throws "Post not found" when no row has the id and "Unauthorized" when
    the row is another author's, and then the table is as before. *)
Theorem X16_deletePost_outcome (postId userId : string) (table : Table) :
  NoDup (List.map PostService.id table) ->
  match deletePost postId userId table with
  | (Ok post, table') =>
      PostService.id post = postId /\ PostService.authorId post = userId
      /\ exists before after',
           table = (before ++ post :: after')%list
           /\ table' = (before ++ after')%list
  | (Err e, table') =>
      table' = table
      /\ ((e = "Post not found"%string
           /\ ~ In postId (List.map PostService.id table))
          \/ (e = "Unauthorized"%string
              /\ exists post,
                   In post table /\ PostService.id post = postId
                   /\ PostService.authorId post <> userId))
  end.
Proof.
  intros Hnd. unfold deletePost.
  destruct (post_findUnique postId table) as [post|] eqn:Ef.
  - destruct (post_findUnique_In _ _ _ Ef) as [Hin Hid].
    destruct (String.eqb_spec (PostService.authorId post) userId) as [E|E];
      cbn [negb].
    + split; [assumption|]. split; [assumption|].
      now apply post_delete_split.
    + split; [reflexivity|]. right. split; [reflexivity|].
      exists post. auto.
  - split; [reflexivity|]. left. split; [reflexivity|].
    now apply post_findUnique_None.
Qed.

Lemma X16_deletePost_outcome_witness :
  NoDup (List.map PostService.id sample_table)
  /\ match deletePost "row-2" "u2" sample_table with
     | (Ok post, table') =>
         PostService.id post = "row-2"%string
         /\ PostService.authorId post = "u2"%string
         /\ exists before after',
              sample_table = (before ++ post :: after')%list
              /\ table' = (before ++ after')%list
     | (Err e, table') =>
         table' = sample_table
         /\ ((e = "Post not found"%string
              /\ ~ In "row-2"%string (List.map PostService.id sample_table))
             \/ (e = "Unauthorized"%string
                 /\ exists post,
                      In post sample_table
                      /\ PostService.id post = "row-2"%string
                      /\ PostService.authorId post <> "u2"%string))
     end.
Proof.
  assert (H : NoDup (List.map PostService.id sample_table)).
  { simpl. repeat constructor; simpl; intuition discriminate. }
  split; [exact H|].
  exact (X16_deletePost_outcome "row-2" "u2" sample_table H).
Defined.

End DeletePostProperties.

(* ================================================================== *)
(** * Properties of the analytics route *)
(* ================================================================== *)

Section AnalyticsRouteProperties.
Import AnalyticsRoute AnalyticsRouteFacts.

(** X17: the analytics route answers 200 exactly when the session has a
    user id and the nine reads of the engine it serves from all succeed;
    the body is then [apiSuccess] of the very summary that engine's
    [generateSummary] resolved with for the request's window, stamped with
    the instant of the call.  Every other answer is 401 with "User not
    authenticated" or 500 with "Failed to generate analytics": the error of
    a failed read is not passed on. *)
Theorem X17_GET_status (client : PrismaClient) (request : Request)
    (p : Process) :
  process_ok p ->
  let this := match instance p with
              | Some a =>
                  nth a (heap p) {| prisma := client; lastUpdated := None |}
              | None => {| prisma := client; lastUpdated := None |}
              end in
  let outcomes :=
    read_outcomes (reads (engine_env request) (prisma this))
      (window (window_start request) (window_end request)) in
  let authenticated :=
    exists u, session_user_id request = Ok (Some u) /\ u <> ""%string in
  let response := fst (GET client request p) in
  (status response = OK <-> authenticated /\ forallb is_ok outcomes = true)
  /\ (status response = OK ->
      exists summary this',
        generateSummary (window_start request) (window_end request)
          (engine_env request) this = (Ok summary, this')
        /\ body response = apiSuccess (responded_at request) summary
        /\ summaryUpdated summary = now (engine_env request))
  /\ (status response <> OK ->
      (status response = UNAUTHORIZED
       /\ body response = apiError (responded_at request) "UNAUTHORIZED"
                            "User not authenticated")
      \/ (status response = INTERNAL_SERVER_ERROR
          /\ body response = apiError (responded_at request) "INTERNAL_ERROR"
                               "Failed to generate analytics")).
Proof.
  intros Hp. cbv zeta.
  destruct (session_user_id request) as [[u|]|e] eqn:Hs.
  - destruct (String.eqb_spec u "") as [->|Hu].
    + unfold GET. rewrite Hs. cbn. split; [|split].
      * split; [discriminate|]. intros [(u & [= <-] & Hu) _]. exfalso. now apply Hu.
      * discriminate.
      * intros _. left. split; reflexivity.
    + destruct (GET_authenticated client request p u Hs Hu Hp) as (-> & _).
      pose proof (generateSummary_outcome (engine_env request)
                    match instance p with
                    | Some a =>
                        nth a (heap p)
                          {| prisma := client; lastUpdated := None |}
                    | None => {| prisma := client; lastUpdated := None |}
                    end (window_start request) (window_end request)) as Ho.
      cbv zeta in Ho.
      destruct (generateSummary _ _ _ _) as [[sm|er] this'] eqn:Eg;
        cbn [fst status body].
      * destruct Ho as (Hall & _ & Hup). split; [|split].
        -- split; [|reflexivity]. intros _. split; [|exact Hall].
           exists u. now split.
        -- intros _. exists sm, this'. split; [reflexivity|]. now split.
        -- intros H. exfalso. now apply H.
      * destruct Ho as (Hall & _ & _). split; [|split].
        -- split; [discriminate|]. intros [_ H]. congruence.
        -- discriminate.
        -- intros _. right. split; reflexivity.
  - unfold GET. rewrite Hs. cbn. split; [|split].
    + split; [discriminate|]. intros [(u & [=] & _) _].
    + discriminate.
    + intros _. left. split; reflexivity.
  - unfold GET. rewrite Hs. cbn. split; [|split].
    + split; [discriminate|]. intros [(u & [=] & _) _].
    + discriminate.
    + intros _. right. split; reflexivity.
Qed.

(** X18: a request without a user id leaves the process alone: no engine
    is made and none is called.  A request with one is served by the
    engine the static field already points to, or else by a new engine
    around the route's client, which the field points to from then on; the
    engine keeps its client, its last-updated instant moves to the instant
    of the call when all nine reads succeed and stays when any of them
    fails, and the other objects of the heap are untouched. *)
Theorem X18_GET_engine (client : PrismaClient) (request : Request)
    (p : Process) :
  process_ok p ->
  let this := match instance p with
              | Some a =>
                  nth a (heap p) {| prisma := client; lastUpdated := None |}
              | None => {| prisma := client; lastUpdated := None |}
              end in
  let outcomes :=
    read_outcomes (reads (engine_env request) (prisma this))
      (window (window_start request) (window_end request)) in
  let authenticated :=
    exists u, session_user_id request = Ok (Some u) /\ u <> ""%string in
  let p' := snd (GET client request p) in
  process_ok p'
  /\ (~ authenticated -> p' = p)
  /\ (authenticated ->
      exists a,
        instance p' = Some a
        /\ (forall a0, instance p = Some a0 -> a = a0)
        /\ nth_error (heap p') a
           = Some {| prisma := prisma this;
                     lastUpdated :=
                       if forallb is_ok outcomes
                       then Some (now (engine_env request))
                       else lastUpdated this |}
        /\ (forall b, b <> a -> (b < List.length (heap p))%nat ->
              nth_error (heap p') b = nth_error (heap p) b)).
Proof.
  intros Hp. cbv zeta.
  assert (Hno : (forall u, session_user_id request = Ok (Some u) ->
                   u = ""%string) ->
                snd (GET client request p) = p).
  { intros H. unfold GET.
    destruct (session_user_id request) as [[u|]|e]; try reflexivity.
    rewrite (H u eq_refl). reflexivity. }
  destruct (session_user_id request) as [[u|]|e] eqn:Hs.
  2,3: rewrite Hno by (intros ? [=]);
       (split; [assumption|]); (split; [reflexivity|]);
       intros (? & [=] & _).
  destruct (String.eqb_spec u "") as [->|Hu].
  { rewrite Hno by (now intros ? [= <-]).
    split; [assumption|]. split; [reflexivity|].
    intros (? & [= <-] & H). exfalso. now apply H. }
  destruct (GET_authenticated client request p u Hs Hu Hp)
    as (-> & Hnth & Hlt).
  pose proof (generateSummary_outcome (engine_env request)
                match instance p with
                | Some a =>
                    nth a (heap p)
                      {| prisma := client; lastUpdated := None |}
                | None => {| prisma := client; lastUpdated := None |}
                end (window_start request) (window_end request)) as Ho.
  cbv zeta in Ho.
  set (this := match instance p with
               | Some a =>
                   nth a (heap p) {| prisma := client; lastUpdated := None |}
               | None => {| prisma := client; lastUpdated := None |}
               end) in *.
  set (a := match instance p with
            | Some a => a
            | None => List.length (heap p)
            end) in *.
  set (h := match instance p with
            | Some _ => heap p
            | None => (heap p ++ [this])%list
            end) in *.
  assert (Hother : forall b, b <> a -> (b < List.length (heap p))%nat ->
                     nth_error h b = nth_error (heap p) b).
  { intros b _ Hb. unfold h. destruct (instance p); [reflexivity|].
    now rewrite nth_error_app1. }
  assert (Ha0 : forall a0, instance p = Some a0 -> a = a0).
  { intros a0 E. unfold a. now rewrite E. }
  destruct (generateSummary _ _ _ _) as [[sm|er] this'];
    cbn [snd heap instance].
  - destruct Ho as (Hall & -> & _). split; [|split].
    + unfold process_ok. cbn [instance heap]. now rewrite heap_set_length.
    + intros H. exfalso. apply H. exists u. now split.
    + intros _. exists a. split; [reflexivity|]. split; [exact Ha0|].
      split.
      * rewrite heap_set_same by assumption. now rewrite Hall.
      * intros b Hb Hlt'. rewrite heap_set_other by auto. now apply Hother.
  - destruct Ho as (Hall & _ & ->). split; [|split].
    + unfold process_ok. cbn [instance heap]. now rewrite heap_set_length.
    + intros H. exfalso. apply H. exists u. now split.
    + intros _. exists a. split; [reflexivity|]. split; [exact Ha0|].
      split.
      * rewrite heap_set_same by assumption. rewrite Hall.
        now destruct this.
      * intros b Hb Hlt'. rewrite heap_set_other by auto. now apply Hother.
Qed.

Lemma X17_GET_status_witness :
  process_ok empty_process
  /\ let this := {| prisma := 0%nat; lastUpdated := None |} in
     let outcomes :=
       read_outcomes (reads (engine_env sample_request) (prisma this))
         (window (window_start sample_request) (window_end sample_request)) in
     let authenticated :=
       exists u,
         session_user_id sample_request = Ok (Some u) /\ u <> ""%string in
     let response := fst (GET 0%nat sample_request empty_process) in
     (status response = OK
      <-> authenticated /\ forallb is_ok outcomes = true)
     /\ (status response = OK ->
         exists summary this',
           generateSummary (window_start sample_request)
             (window_end sample_request) (engine_env sample_request) this
           = (Ok summary, this')
           /\ body response = apiSuccess (responded_at sample_request) summary
           /\ summaryUpdated summary = now (engine_env sample_request))
     /\ (status response <> OK ->
         (status response = UNAUTHORIZED
          /\ body response
             = apiError (responded_at sample_request) "UNAUTHORIZED"
                 "User not authenticated")
         \/ (status response = INTERNAL_SERVER_ERROR
             /\ body response
                = apiError (responded_at sample_request) "INTERNAL_ERROR"
                    "Failed to generate analytics")).
Proof.
  split; [exact I|].
  exact (X17_GET_status 0%nat sample_request empty_process I).
Defined.

Lemma X18_GET_engine_witness :
  process_ok empty_process
  /\ let this := {| prisma := 0%nat; lastUpdated := None |} in
     let outcomes :=
       read_outcomes (reads (engine_env sample_request) (prisma this))
         (window (window_start sample_request) (window_end sample_request)) in
     let authenticated :=
       exists u,
         session_user_id sample_request = Ok (Some u) /\ u <> ""%string in
     let p' := snd (GET 0%nat sample_request empty_process) in
     process_ok p'
     /\ (~ authenticated -> p' = empty_process)
     /\ (authenticated ->
         exists a,
           instance p' = Some a
           /\ (forall a0, instance empty_process = Some a0 -> a = a0)
           /\ nth_error (heap p') a
              = Some {| prisma := prisma this;
                        lastUpdated :=
                          if forallb is_ok outcomes
                          then Some (now (engine_env sample_request))
                          else lastUpdated this |}
           /\ (forall b, b <> a ->
                 (b < List.length (heap empty_process))%nat ->
                 nth_error (heap p') b = nth_error (heap empty_process) b)).
Proof.
  split; [exact I|].
  exact (X18_GET_engine 0%nat sample_request empty_process I).
Defined.

End AnalyticsRouteProperties.
